(** * FakePrinter: a shallow embedding of the three drivers

    The repository simulates a layer-by-layer print job driven by the rows of
    a CSV file.  Three scripts implement the same [FakePrinter] class:

    - [normal_driver.py]: sequential processing ([Normal]);
    - [multi_driver.py]: sequential supervised mode, automatic mode on
      [asyncio.gather] ([Multi]);
    - [smart_driver.py]: supervised mode with a bounded window of prefetching
      tasks, automatic mode on [asyncio.gather] ([Smart]).

    Modelling choices.

    - Python values read from the data frame are [pyval]s; a [str] object is
      modelled by its UTF-8 encoding, a [string] of bytes.  [strip] removes
      the white space of [str.strip()], ASCII and Unicode; [lower] maps the
      ASCII letters and leaves the other bytes alone, which is exact for the
      comparisons the drivers make (with "supervised", "automatic", "q" and
      "e": a string that holds a character outside ASCII is lowercased into
      none of these words).
    - The object [self] is a record threaded through a state and error monad
      [M]; [sys.exit] and uncaught exceptions are results of that monad.
    - Everything the program does to the outside world is appended to a trace
      of [event]s; what the outside world answers (does a write fail, what
      does the HTTP request return, what does the user type) is read from an
      environment [Env] and from the machine's [stdin].
    - A coroutine is a value of the resumption type [coro]; the asyncio event
      loop is a table of such coroutines, advanced at the suspension points of
      the main coroutine in the order chosen by an oracle ([sched]), so a
      statement quantified over the oracle holds for every completion order. *)

From Stdlib Require Import ZArith Ascii List Lia.
From stdpp Require Import base list strings pretty gmap.

#[local] Arguments String.append !s1 s2 : simpl nomatch.

(** ** Python strings and values *)

Definition ascii_lower (c : ascii) : ascii :=
  let n := nat_of_ascii c in
  if (65 <=? n)%nat && (n <=? 90)%nat then ascii_of_nat (n + 32) else c.

(** [str.lower()]. *)
Fixpoint lower (s : string) : string :=
  match s with
  | EmptyString => EmptyString
  | String c r => String (ascii_lower c) (lower r)
  end.

(** The white space of [str.strip()] and [str.isspace()], by the length of
    its UTF-8 encoding.  One byte: tab, line feed, vertical tab, form feed,
    carriage return, the four separators 28..31 and the space. *)
Definition is_space (c : ascii) : bool :=
  let n := nat_of_ascii c in
  ((9 <=? n)%nat && (n <=? 13)%nat) || ((28 <=? n)%nat && (n <=? 32)%nat).

(** Two bytes: U+0085 (C2 85) and U+00A0 (C2 A0). *)
Definition is_space2 (c1 c2 : ascii) : bool :=
  let a := nat_of_ascii c1 in
  let b := nat_of_ascii c2 in
  (a =? 194)%nat && ((b =? 133)%nat || (b =? 160)%nat).

(** Three bytes: U+1680 (E1 9A 80), U+2000..U+200A (E2 80 80..8A), U+2028
    and U+2029 (E2 80 A8, A9), U+202F (E2 80 AF), U+205F (E2 81 9F) and
    U+3000 (E3 80 80). *)
Definition is_space3 (c1 c2 c3 : ascii) : bool :=
  let a := nat_of_ascii c1 in
  let b := nat_of_ascii c2 in
  let c := nat_of_ascii c3 in
  ((a =? 225)%nat && (b =? 154)%nat && (c =? 128)%nat)
  || ((a =? 226)%nat && (b =? 128)%nat
      && (((128 <=? c)%nat && (c <=? 138)%nat)
          || (c =? 168)%nat || (c =? 169)%nat || (c =? 175)%nat))
  || ((a =? 226)%nat && (b =? 129)%nat && (c =? 159)%nat)
  || ((a =? 227)%nat && (b =? 128)%nat && (c =? 128)%nat).

(** [s] is one white-space character. *)
Definition space_char (s : string) : bool :=
  match s with
  | String c1 EmptyString => is_space c1
  | String c1 (String c2 EmptyString) => is_space2 c1 c2
  | String c1 (String c2 (String c3 EmptyString)) => is_space3 c1 c2 c3
  | _ => false
  end.

(** [str.lstrip()]. *)
Fixpoint lstrip (s : string) : string :=
  match s with
  | EmptyString => EmptyString
  | String c1 r1 =>
      if is_space c1 then lstrip r1
      else
        match r1 with
        | String c2 r2 =>
            if is_space2 c1 c2 then lstrip r2
            else
              match r2 with
              | String c3 r3 => if is_space3 c1 c2 c3 then lstrip r3 else s
              | EmptyString => s
              end
        | EmptyString => s
        end
  end.

(** [str.rstrip()]: the bytes are gone through from the right; a byte that
    completes a white-space character with what is left after it goes. *)
Fixpoint rstrip (s : string) : string :=
  match s with
  | EmptyString => EmptyString
  | String c r =>
      let r' := rstrip r in
      if space_char (String c r') then EmptyString else String c r'
  end.

(** [str.strip()]. *)
Definition strip (s : string) : string := rstrip (lstrip s).

(** A cell of the data frame (or a default passed to [Series.get]): a string,
    an integer, or the missing value NaN that pandas puts in an empty cell. *)
Inductive pyval : Type :=
| PStr (s : string)
| PInt (z : Z)
| PNaN.

Global Instance pyval_eq_dec : EqDecision pyval.
Proof. solve_decision. Defined.

(** [f"{v}"]. *)
Definition py_str (v : pyval) : string :=
  match v with
  | PStr s => s
  | PInt z => pretty z
  | PNaN => "nan"
  end.

(** Truth value of [v] in [if v:]: the empty string and zero are false, NaN
    (a non-zero float) is true. *)
Definition truthy (v : pyval) : bool :=
  match v with
  | PStr s => negb (String.eqb s "")
  | PInt z => negb (Z.eqb z 0)
  | PNaN => true
  end.

(** [a != b]; NaN differs from everything, itself included. *)
Definition py_ne (a b : pyval) : bool :=
  match a, b with
  | PStr s, PStr t => negb (String.eqb s t)
  | PInt x, PInt y => negb (Z.eqb x y)
  | _, _ => true
  end.

(** [f"{x}"] for an optional error text ([None] prints as "None"). *)
Definition fmt_opt (o : option string) : string :=
  match o with
  | Some s => s
  | None => "None"
  end.

(** One row of the data frame ([pd.Series]): column name to cell. *)
Definition Series : Type := list (string * pyval).

(** [layer.get(key, default)]. *)
Fixpoint series_get (layer : Series) (key : string) (default : pyval) : pyval :=
  match layer with
  | [] => default
  | (k, v) :: rest => if String.eqb k key then v else series_get rest key default
  end.

(** ** Paths *)

Fixpoint ends_with_slash (s : string) : bool :=
  match s with
  | EmptyString => false
  | String c EmptyString => Ascii.eqb c "/"%char
  | String _ r => ends_with_slash r
  end.

Definition starts_with_slash (s : string) : bool :=
  match s with
  | String c _ => Ascii.eqb c "/"%char
  | EmptyString => false
  end.

(** [os.path.join(a, b)] (POSIX, two components). *)
Definition path_join (a b : string) : string :=
  if starts_with_slash b then b
  else if String.eqb a "" || ends_with_slash a then a +:+ b
  else a +:+ "/" +:+ b.

(** ** Exceptions *)

Inductive exn_class : Type :=
| RequestException   (* requests.RequestException and its subclasses *)
| OSError
| EOFError
| LookupError        (* IndexError / AttributeError raised by [iloc] *)
| OtherException.

Global Instance exn_class_eq_dec : EqDecision exn_class.
Proof. solve_decision. Defined.

Record exn : Type := Exn { exn_cls : exn_class; exn_msg : string }.

Global Instance exn_eq_dec : EqDecision exn.
Proof. solve_decision. Defined.

Definition is_request_exception (e : exn) : bool :=
  match exn_cls e with
  | RequestException => true
  | _ => false
  end.

(** ** Console messages

    One constructor per [print] or [input] prompt of the sources; [render]
    gives the text. *)
Inductive msg : Type :=
| MsgLoaded (total : nat) (csv_file : string)
| MsgErrorLoading (e : string)
| MsgErrorWriting (layer_number : pyval) (e : string)
| MsgErrorDownloading (layer_number : pyval) (e : string)
| MsgPrinted (layer_number : pyval)
| MsgNoImageSkipping (layer_number : pyval)
| MsgNoImage (layer_number : pyval)
| MsgDataOnly (layer_number : pyval)
| MsgAborted
| MsgErrorDetected (layer_number csv_error : pyval)
| MsgAbortedError
| MsgErrorLogging (layer_number csv_error : pyval)
| MsgSummarySaved (path : string)
| MsgErrorSummary (e : string)
| MsgChartSaved (path : string)
| MsgErrorChart (e : string)
| MsgInvalidMode
| MsgCsvError (layer_number csv_error : pyval)
| MsgHasCsvError (layer_number csv_error : pyval)
| MsgFailed (layer_number : pyval) (error : option string)
| MsgPrefetched (layer_number : pyval)
| MsgNoPrefetched (index : nat)
| PromptPrint (layer_number : pyval)
| PromptChoiceNormal
| PromptChoiceMulti
| PromptProcess (index : nat).

Definition render (m : msg) : string :=
  match m with
  | MsgLoaded total f => "Loaded " +:+ pretty total +:+ " layers from " +:+ f
  | MsgErrorLoading e => "Error loading CSV file: " +:+ e
  | MsgErrorWriting n e =>
      "Error writing layer data for layer " +:+ py_str n +:+ ": " +:+ e
  | MsgErrorDownloading n e =>
      "Error downloading image for layer " +:+ py_str n +:+ ": " +:+ e
  | MsgPrinted n => "Layer " +:+ py_str n +:+ " printed successfully."
  | MsgNoImageSkipping n =>
      "No image URL provided for layer " +:+ py_str n +:+ ". Skipping image download."
  | MsgNoImage n => "No image URL provided for layer " +:+ py_str n +:+ "."
  | MsgDataOnly n => "Layer " +:+ py_str n +:+ " printed with data only."
  | MsgAborted => "Printing aborted by user."
  | MsgErrorDetected n err =>
      "Error detected in layer " +:+ py_str n +:+ ": " +:+ py_str err
  | MsgAbortedError => "Printing aborted by user due to error."
  | MsgErrorLogging n err =>
      "Error detected in layer " +:+ py_str n +:+ ": " +:+ py_str err
      +:+ ". Logging error and continuing."
  | MsgSummarySaved p => "Print summary saved to " +:+ p
  | MsgErrorSummary e => "Error writing summary file: " +:+ e
  | MsgChartSaved p => "Print summary chart saved to " +:+ p
  | MsgErrorChart e => "Error generating summary chart: " +:+ e
  | MsgInvalidMode =>
      "Invalid mode selected. Please choose 'supervised' or 'automatic'."
  | MsgCsvError n err => "Layer " +:+ py_str n +:+ " CSV error: " +:+ py_str err
  | MsgHasCsvError n err =>
      "Layer " +:+ py_str n +:+ " has CSV error: " +:+ py_str err
  | MsgFailed n error => "Layer " +:+ py_str n +:+ " failed: " +:+ fmt_opt error
  | MsgPrefetched n =>
      "Layer " +:+ py_str n +:+ " printed successfully (prefetched)."
  | MsgNoPrefetched i =>
      "No prefetched result available for layer " +:+ pretty i +:+ "."
  | PromptPrint n =>
      "Press 'Enter' to print layer " +:+ py_str n +:+ " or type 'q' to quit: "
  | PromptChoiceNormal =>
      "Options: [i]gnore error and continue, [e]nd printing. Enter choice (i/e): "
  | PromptChoiceMulti =>
      "Options: [i]gnore error and continue, [e]nd printing. (i/e): "
  | PromptProcess i =>
      "Press Enter to process layer " +:+ pretty i +:+ " (or 'q' to quit): "
  end.

(** ** Events: what the program does to the outside world *)

Inductive event : Type :=
| EvMakedirs (path : string) (ok : bool)
    (* os.makedirs(path, exist_ok=True) *)
| EvWriteText (path content : string) (ok : bool)
    (* with open(path, "w") as f: f.write(content) *)
| EvHttpGet (url : pyval) (ok : bool)
    (* the GET request, its status check and the read of its body *)
| EvWriteBytes (path content : string) (ok : bool)
    (* with open(path, "wb") as f: f.write(content) *)
| EvPrint (m : msg)
| EvInput (prompt : msg)
| EvSleep
    (* time.sleep(0.5) *)
| EvCreateTask (index : nat)
    (* asyncio.create_task(self.fetch_layer_supervised(csv_data.iloc[index], ..)) *)
| EvWriteSummary (path print_name : string) (total successful failed : nat)
    (errors : list string) (ok : bool)
| EvSaveChart (path : string) (successful failed : nat) (ok : bool).

(** ** The outside world's answers *)

(** What happens to the I/O of one row. *)
Record RowIO : Type := {
  makedirs_res : option exn;      (* os.makedirs(layer_folder): raises? *)
  json_text : string;             (* the text of layer.to_json(indent=2) *)
  write_data_res : option exn;    (* writing layer_data.txt: raises? *)
  http_res : exn + string;        (* fetching the image: raises, or the body *)
  write_image_res : option exn    (* writing the .png: raises? *)
}.

Record Env : Type := {
  read_csv : string -> exn + list Series;   (* pd.read_csv *)
  out_makedirs_res : option exn;            (* os.makedirs(output_folder) *)
  row_io : nat -> RowIO;                    (* by row position *)
  summary_res : option exn;                 (* writing print_summary.txt *)
  chart_res : option exn                    (* drawing and saving the chart *)
}.

(** ** The object *)

Record FakePrinter : Type := {
  print_name : string;
  output_folder : string;
  mode : string;
  csv_data : option (list Series);
  total_layers : nat;
  successful_layers : nat;
  failed_layers : nat;
  error_log : list string
}.

(** ** Coroutines

    A coroutine either returns, raises, performs an effect and goes on, or
    reaches an [await] that hands control back to the event loop. *)
Inductive coro (A : Type) : Type :=
| Return (a : A)
| Raise (e : exn)
| Effect (ev : event) (k : coro A)
| Await (k : coro A).

Arguments Return {A} a.
Arguments Raise {A} e.
Arguments Effect {A} ev k.
Arguments Await {A} k.

(** What a layer task returns: [(layer_number, success_flag, error_message)]. *)
Definition outcome : Type := pyval * bool * option string.

(** Run a coroutine up to its next suspension point. *)
Fixpoint slice {A} (c : coro A) : list event * coro A :=
  match c with
  | Effect ev k => let '(evs, c') := slice k in (ev :: evs, c')
  | Await k => ([], k)
  | _ => ([], c)
  end.

(** Run a coroutine to its end, through all its suspension points. *)
Fixpoint run_to_end {A} (c : coro A) : list event * coro A :=
  match c with
  | Effect ev k => let '(evs, c') := run_to_end k in (ev :: evs, c')
  | Await k => run_to_end k
  | _ => ([], c)
  end.

Definition is_done {A} (c : coro A) : bool :=
  match c with
  | Return _ | Raise _ => true
  | _ => false
  end.

(** ** The machine and its monad *)

Record machine : Type := {
  self : FakePrinter;
  stdin : list string;            (* the lines the user will type *)
  trace : list event;             (* oldest first *)
  tasks : list (coro outcome);    (* the event loop's tasks, by task id *)
  sched : list (list nat)         (* per suspension of the main coroutine:
                                     the task ids that get a turn, in order *)
}.

Inductive status (A : Type) : Type :=
| Normal (a : A)
| SysExit (code : Z)
| Uncaught (e : exn).

Arguments Normal {A} a.
Arguments SysExit {A} code.
Arguments Uncaught {A} e.

Definition M (A : Type) : Type := machine -> status A * machine.

Definition ret {A} (a : A) : M A := fun m => (Normal a, m).

Definition bind {A B} (c : M A) (k : A -> M B) : M B :=
  fun m =>
    match c m with
    | (Normal a, m') => k a m'
    | (SysExit code, m') => (SysExit code, m')
    | (Uncaught e, m') => (Uncaught e, m')
    end.

Declare Scope m_scope.
Delimit Scope m_scope with M.
Notation "'do' x <- c ; k" := (bind c (fun x => k))
  (at level 10, x name, c at level 100, k at level 200) : m_scope.
Notation "c ;; k" := (bind c (fun _ => k))
  (at level 100, k at level 200, right associativity) : m_scope.
#[local] Open Scope m_scope.

Definition raise {A} (e : exn) : M A := fun m => (Uncaught e, m).
Definition sys_exit {A} (code : Z) : M A := fun m => (SysExit code, m).

Definition get_self : M FakePrinter := fun m => (Normal (self m), m).

Definition set_self (p : FakePrinter) : M unit :=
  fun m => (Normal tt,
            {| self := p; stdin := stdin m; trace := trace m;
               tasks := tasks m; sched := sched m |}).

Definition emit (ev : event) : M unit :=
  fun m => (Normal tt,
            {| self := self m; stdin := stdin m; trace := trace m ++ [ev];
               tasks := tasks m; sched := sched m |}).

Definition print (x : msg) : M unit := emit (EvPrint x).

(** [try: body / except <classes accepted by catches> as e: handler e],
    followed by [k] when the body did not raise.  A handler that ends in
    [return] is this with nothing after it; [SystemExit] is never caught. *)
Definition try_except {A B} (body : M A) (catches : exn -> bool)
    (handler : exn -> M B) (k : A -> M B) : M B :=
  fun m =>
    match body m with
    | (Normal a, m') => k a m'
    | (SysExit code, m') => (SysExit code, m')
    | (Uncaught e, m') =>
        if catches e then handler e m' else (Uncaught e, m')
    end.

Definition any_exception (e : exn) : bool := true.

(** An operation on the outside world: logged, then it raises or not. *)
Definition attempt (ev : bool -> event) (res : option exn) : M unit :=
  match res with
  | Some e => emit (ev false) ;; raise e
  | None => emit (ev true)
  end.

Definition os_makedirs (path : string) (res : option exn) : M unit :=
  attempt (EvMakedirs path) res.

Definition write_text (path content : string) (res : option exn) : M unit :=
  attempt (EvWriteText path content) res.

Definition write_bytes (path content : string) (res : option exn) : M unit :=
  attempt (EvWriteBytes path content) res.

(** [requests.get(url, verify=False, timeout=10)] with [raise_for_status()]. *)
Definition requests_get (url : pyval) (res : exn + string) : M string :=
  match res with
  | inl e => emit (EvHttpGet url false) ;; raise e
  | inr content => emit (EvHttpGet url true) ;; ret content
  end.

(** [self.successful_layers += 1]. *)
Definition incr_successful : M unit :=
  do p <- get_self;
  set_self {| print_name := print_name p; output_folder := output_folder p;
              mode := mode p; csv_data := csv_data p;
              total_layers := total_layers p;
              successful_layers := successful_layers p + 1;
              failed_layers := failed_layers p; error_log := error_log p |}.

(** [self.failed_layers += 1]. *)
Definition incr_failed : M unit :=
  do p <- get_self;
  set_self {| print_name := print_name p; output_folder := output_folder p;
              mode := mode p; csv_data := csv_data p;
              total_layers := total_layers p;
              successful_layers := successful_layers p;
              failed_layers := failed_layers p + 1; error_log := error_log p |}.

(** [self.error_log.append(entry)]. *)
Definition log_error (entry : string) : M unit :=
  do p <- get_self;
  set_self {| print_name := print_name p; output_folder := output_folder p;
              mode := mode p; csv_data := csv_data p;
              total_layers := total_layers p;
              successful_layers := successful_layers p;
              failed_layers := failed_layers p;
              error_log := error_log p ++ [entry] |}.

(** [input(prompt)]: the next line of [stdin], [EOFError] when there is none. *)
Definition input (prompt : msg) : M string :=
  fun m =>
    let tr := trace m ++ [EvInput prompt] in
    match stdin m with
    | [] => (Uncaught (Exn EOFError "EOF when reading a line"),
             {| self := self m; stdin := []; trace := tr;
                tasks := tasks m; sched := sched m |})
    | line :: rest =>
        (Normal line,
         {| self := self m; stdin := rest; trace := tr;
            tasks := tasks m; sched := sched m |})
    end.

(** ** Field updates of the machine *)

Definition with_trace (f : list event -> list event) (m : machine) : machine :=
  {| self := self m; stdin := stdin m; trace := f (trace m);
     tasks := tasks m; sched := sched m |}.

Definition with_tasks (f : list (coro outcome) -> list (coro outcome))
    (m : machine) : machine :=
  {| self := self m; stdin := stdin m; trace := trace m;
     tasks := f (tasks m); sched := sched m |}.

Definition with_sched (f : list (list nat) -> list (list nat))
    (m : machine) : machine :=
  {| self := self m; stdin := stdin m; trace := trace m;
     tasks := tasks m; sched := f (sched m) |}.

Definition with_stdin (f : list string -> list string) (m : machine) : machine :=
  {| self := self m; stdin := f (stdin m); trace := trace m;
     tasks := tasks m; sched := sched m |}.

(** ** The event loop *)

(** Task [id] gets a turn: it runs up to its next suspension point. *)
Definition advance (id : nat) (m : machine) : machine :=
  match tasks m !! id with
  | Some c =>
      let '(evs, c') := slice c in
      with_tasks (fun ts => <[id := c']> ts) (with_trace (fun tr => tr ++ evs) m)
  | None => m
  end.

(** Task [id] runs until it is done. *)
Definition complete (id : nat) (m : machine) : machine :=
  match tasks m !! id with
  | Some c =>
      let '(evs, c') := run_to_end c in
      with_tasks (fun ts => <[id := c']> ts) (with_trace (fun tr => tr ++ evs) m)
  | None => m
  end.

(** The main coroutine is suspended: the tasks named by the head of the
    oracle get their turns, in that order. *)
Definition suspend (m : machine) : machine :=
  foldl (fun m' id => advance id m') (with_sched tl m) (hd [] (sched m)).

(** [asyncio.create_task(c)], [c] being the coroutine for row [index]: the
    task is entered in the loop's table and starts at the next suspension. *)
Definition create_task (index : nat) (c : coro outcome) : M nat :=
  fun m =>
    (Normal (length (tasks m)),
     with_tasks (fun ts => ts ++ [c])
       (with_trace (fun tr => tr ++ [EvCreateTask index]) m)).

Definition no_such_task : exn := Exn LookupError "no such task".

(** [await task]: immediate when the task is done; otherwise the main
    coroutine is suspended until that very task is done, however many turns
    the other tasks get meanwhile. *)
Definition await_task (id : nat) : M outcome :=
  fun m =>
    let m1 :=
      match tasks m !! id with
      | Some c => if is_done c then m else complete id (suspend m)
      | None => m
      end in
    match tasks m1 !! id with
    | Some (Return r) => (Normal r, m1)
    | Some (Raise e) => (Uncaught e, m1)
    | _ => (Uncaught no_such_task, m1)
    end.

(** [await loop.run_in_executor(None, input, prompt)]: the prompt is shown,
    the loop runs the tasks while the user thinks, then the line arrives. *)
Definition run_in_executor_input (prompt : msg) : M string :=
  fun m =>
    let m1 := suspend (with_trace (fun tr => tr ++ [EvInput prompt]) m) in
    match stdin m1 with
    | [] => (Uncaught (Exn EOFError "EOF when reading a line"), m1)
    | line :: _ => (Normal line, with_stdin tl m1)
    end.

(** [asyncio.gather] with [return_exceptions=False], first phase: turns are
    taken in the oracle's order; the first task seen to raise ends the wait. *)
Fixpoint gather_turns (ids : list nat) (m : machine) : option exn * machine :=
  match ids with
  | [] => (None, m)
  | id :: rest =>
      let m' := advance id m in
      match tasks m' !! id with
      | Some (Raise e) => (Some e, m')
      | _ => gather_turns rest m'
      end
  end.

(** Second phase: the tasks not yet done finish; results come back in the
    order of the arguments. *)
Fixpoint gather_finish (ids : list nat) (m : machine)
    : status (list outcome) * machine :=
  match ids with
  | [] => (Normal [], m)
  | id :: rest =>
      let m' := complete id m in
      match tasks m' !! id with
      | Some (Return r) =>
          match gather_finish rest m' with
          | (Normal rs, m'') => (Normal (r :: rs), m'')
          | other => other
          end
      | Some (Raise e) => (Uncaught e, m')
      | _ => (Uncaught no_such_task, m')
      end
  end.

(** [await asyncio.gather] of the coroutines [cs], [return_exceptions=False]. *)
Definition gather (cs : list (coro outcome)) : M (list outcome) :=
  fun m =>
    let ids := seq (length (tasks m)) (length cs) in
    let m1 := with_tasks (fun ts => ts ++ cs) m in
    match gather_turns (hd [] (sched m1)) (with_sched tl m1) with
    | (Some e, m2) => (Uncaught e, m2)
    | (None, m2) => gather_finish ids m2
    end.

(** Rows with their positions, as [iterrows()] yields them. *)
Fixpoint enumerate_from {A} (i : nat) (l : list A) : list (nat * A) :=
  match l with
  | [] => []
  | x :: r => (i, x) :: enumerate_from (S i) r
  end.

Definition no_data_frame : exn := Exn LookupError "csv_data is None".
Definition out_of_bounds : exn := Exn LookupError "single positional indexer is out-of-bounds".

(** [self.csv_data.iterrows()]. *)
Definition iterrows : M (list (nat * Series)) :=
  do p <- get_self;
  match csv_data p with
  | None => raise no_data_frame
  | Some rows => ret (enumerate_from 0 rows)
  end.

(** [self.csv_data.iloc[i]]. *)
Definition iloc (i : nat) : M Series :=
  do p <- get_self;
  match csv_data p with
  | None => raise no_data_frame
  | Some rows =>
      match rows !! i with
      | Some layer => ret layer
      | None => raise out_of_bounds
      end
  end.

(** ** What the three classes share

    [__init__], [load_csv_data] and [generate_summary] are the same code in
    the three files; the synchronous [print_layer] differs in the exception
    class of its second handler and in one message, the sequential
    [supervised_mode] in one prompt, the layer coroutine in one message. *)
Section Shared.
Variable env : Env.

  (** [FakePrinter.__init__]. *)
Definition init (name folder mode_arg : string) : M unit :=
    set_self {| print_name := name; output_folder := folder;
                mode := lower mode_arg; csv_data := None;
                total_layers := 0; successful_layers := 0;
                failed_layers := 0; error_log := [] |} ;;
    os_makedirs folder (out_makedirs_res env).

Definition set_csv_data (rows : list Series) : M unit :=
    do p <- get_self;
    set_self {| print_name := print_name p; output_folder := output_folder p;
                mode := mode p; csv_data := Some rows;
                total_layers := length rows;
                successful_layers := successful_layers p;
                failed_layers := failed_layers p; error_log := error_log p |}.

Definition load_csv_data (csv_file : string) : M unit :=
    try_except
      (match read_csv env csv_file with
       | inl e => raise e
       | inr rows =>
           set_csv_data rows ;;
           print (MsgLoaded (length rows) csv_file)
       end)
      any_exception
      (fun e => print (MsgErrorLoading (exn_msg e)) ;; sys_exit 1)
      ret.

  (** The synchronous [print_layer]; [index] is the row's position, under
      which the environment answers for its I/O. *)
Definition print_layer_sync (catches : exn -> bool) (no_image : pyval -> msg)
      (index : nat) (layer_data : Series) : M unit :=
    let io := row_io env index in
    let layer_number := series_get layer_data "Layer Number" (PStr "unknown") in
    do p <- get_self;
    let layer_folder :=
      path_join (output_folder p) ("layer_" +:+ py_str layer_number) in
    os_makedirs layer_folder (makedirs_res io) ;;
    let layer_data_file := path_join layer_folder "layer_data.txt" in
    try_except
      (write_text layer_data_file (json_text io) (write_data_res io))
      any_exception
      (fun e =>
         print (MsgErrorWriting layer_number (exn_msg e)) ;;
         log_error ("Layer " +:+ py_str layer_number +:+ ": Error writing data: "
                    +:+ exn_msg e) ;;
         incr_failed)
      (fun _ =>
         let image_url := series_get layer_data "image url" (PStr "") in
         if truthy image_url then
           let image_path :=
             path_join layer_folder ("layer_" +:+ py_str layer_number +:+ ".png") in
           try_except
             (do content <- requests_get image_url (http_res io);
              write_bytes image_path content (write_image_res io) ;;
              print (MsgPrinted layer_number) ;;
              incr_successful)
             catches
             (fun e =>
                print (MsgErrorDownloading layer_number (exn_msg e)) ;;
                log_error ("Layer " +:+ py_str layer_number +:+ ": " +:+ exn_msg e) ;;
                incr_failed)
             ret
         else
           print (no_image layer_number) ;;
           print (MsgDataOnly layer_number) ;;
           incr_successful).

  (** The body of the sequential [supervised_mode]'s loop over the rows. *)
Fixpoint supervised_rows (print_layer : nat -> Series -> M unit)
      (choice_prompt : msg) (rows : list (nat * Series)) : M unit :=
    match rows with
    | [] => ret tt
    | (index, layer) :: rest =>
        let layer_number := series_get layer "Layer Number" (PStr "unknown") in
        do line <- input (PromptPrint layer_number);
        let user_input := lower (strip line) in
        if String.eqb user_input "q" then
          print MsgAborted                      (* break *)
        else
          let csv_error := series_get layer "Error" (PStr "SUCCESS") in
          do stop <-
            (if py_ne csv_error (PStr "SUCCESS") then
               print (MsgErrorDetected layer_number csv_error) ;;
               do line' <- input choice_prompt;
               let choice := lower (strip line') in
               if String.eqb choice "e" then
                 print MsgAbortedError ;; ret true   (* break *)
               else ret false
             else ret false);
          if (stop : bool) then ret tt
          else print_layer index layer ;;
               supervised_rows print_layer choice_prompt rest
    end.

Definition supervised_mode_sync (print_layer : nat -> Series -> M unit)
      (choice_prompt : msg) : M unit :=
    do rows <- iterrows;
    supervised_rows print_layer choice_prompt rows.

  (** The layer coroutine: [fetch_layer_supervised] of [smart_driver.py] and
      [print_layer_async] of [multi_driver.py]. *)
Definition layer_coro (csv_msg : pyval -> pyval -> msg) (folder : string)
      (layer : Series) (io : RowIO) : coro outcome :=
    let layer_number := series_get layer "Layer Number" (PStr "unknown") in
    let layer_folder := path_join folder ("layer_" +:+ py_str layer_number) in
    match makedirs_res io with
    | Some e => Effect (EvMakedirs layer_folder false) (Raise e)
    | None =>
      Effect (EvMakedirs layer_folder true)
      (let layer_data_file := path_join layer_folder "layer_data.txt" in
       match write_data_res io with
       | Some e =>
           Effect (EvWriteText layer_data_file (json_text io) false)
             (Return (layer_number, false,
                      Some ("Error writing layer data: " +:+ exn_msg e)))
       | None =>
         Effect (EvWriteText layer_data_file (json_text io) true)
         (let csv_error := series_get layer "Error" (PStr "SUCCESS") in
          let inherent_error := py_ne csv_error (PStr "SUCCESS") in
          let finish :=
            if inherent_error then
              Return (layer_number, false,
                      Some ("Inherent CSV error: " +:+ py_str csv_error))
            else Return (layer_number, true, None) in
          let image_url := series_get layer "image url" (PStr "") in
          let download :=
            if truthy image_url then
              let image_path :=
                path_join layer_folder
                  ("layer_" +:+ py_str layer_number +:+ ".png") in
              Await                               (* session.get(...) *)
                (match http_res io with
                 | inl e =>
                     Effect (EvHttpGet image_url false)
                       (Return (layer_number, false,
                                Some ("Error downloading image: " +:+ exn_msg e)))
                 | inr content =>
                     Await                        (* await response.read() *)
                       (Effect (EvHttpGet image_url true)
                          (match write_image_res io with
                           | Some e =>
                               Effect (EvWriteBytes image_path content false)
                                 (Return (layer_number, false,
                                          Some ("Error downloading image: "
                                                +:+ exn_msg e)))
                           | None =>
                               Effect (EvWriteBytes image_path content true)
                                 finish
                           end))
                 end)
            else Effect (EvPrint (MsgNoImage layer_number)) finish in
          if inherent_error then
            Effect (EvPrint (csv_msg layer_number csv_error)) download
          else download)
       end)
    end.

  (** The fold of [automatic_mode_async] over the gathered results. *)
Fixpoint fold_results (results : list outcome) : M unit :=
    match results with
    | [] => ret tt
    | (layer_number, success, error) :: rest =>
        (if (success : bool) then
           incr_successful ;;
           print (MsgPrinted layer_number)
         else
           incr_failed ;;
           log_error ("Layer " +:+ py_str layer_number +:+ ": " +:+ fmt_opt error) ;;
           print (MsgFailed layer_number error)) ;;
        fold_results rest
    end.

Definition automatic_mode_gather (csv_msg : pyval -> pyval -> msg) : M unit :=
    do rows <- iterrows;
    do p <- get_self;
    do results <-
      gather (map (fun '(index, layer) =>
                     layer_coro csv_msg (output_folder p) layer (row_io env index))
                rows);
    fold_results results.

Definition generate_summary : M unit :=
    do p <- get_self;
    let summary_file := path_join (output_folder p) "print_summary.txt" in
    try_except
      (attempt (EvWriteSummary summary_file (print_name p) (total_layers p)
                  (successful_layers p) (failed_layers p) (error_log p))
         (summary_res env) ;;
       print (MsgSummarySaved summary_file))
      any_exception
      (fun e => print (MsgErrorSummary (exn_msg e)))
      ret ;;
    let chart_path := path_join (output_folder p) "print_summary_chart.png" in
    try_except
      (attempt (EvSaveChart chart_path (successful_layers p) (failed_layers p))
         (chart_res env) ;;
       print (MsgChartSaved chart_path))
      any_exception
      (fun e => print (MsgErrorChart (exn_msg e)))
      ret.

  (** [run], given the two mode methods of the class. *)
Definition run_with (supervised automatic : M unit) (csv_file : string)
      : M unit :=
    load_csv_data csv_file ;;
    do p <- get_self;
    (if String.eqb (mode p) "supervised" then supervised
     else if String.eqb (mode p) "automatic" then automatic
     else print MsgInvalidMode ;; sys_exit 1) ;;
    generate_summary.
End Shared.

(** ** normal_driver.py *)
Module Normal.
Definition print_layer (env : Env) : nat -> Series -> M unit :=
    print_layer_sync env is_request_exception MsgNoImageSkipping.

Definition supervised_mode (env : Env) : M unit :=
    supervised_mode_sync (print_layer env) PromptChoiceNormal.

Fixpoint automatic_rows (env : Env) (rows : list (nat * Series)) : M unit :=
    match rows with
    | [] => ret tt
    | (index, layer) :: rest =>
        let layer_number := series_get layer "Layer Number" (PStr "unknown") in
        let csv_error := series_get layer "Error" (PStr "SUCCESS") in
        (if py_ne csv_error (PStr "SUCCESS") then
           print (MsgErrorLogging layer_number csv_error) ;;
           log_error ("Layer " +:+ py_str layer_number +:+ ": " +:+ py_str csv_error) ;;
           incr_failed
         else print_layer env index layer) ;;
        emit EvSleep ;;
        automatic_rows env rest
    end.

Definition automatic_mode (env : Env) : M unit :=
    do rows <- iterrows;
    automatic_rows env rows.

Definition run (env : Env) (csv_file : string) : M unit :=
    run_with env (supervised_mode env) (automatic_mode env) csv_file.
End Normal.

(** ** multi_driver.py *)
Module Multi.
Definition print_layer (env : Env) : nat -> Series -> M unit :=
    print_layer_sync env any_exception MsgNoImage.

Definition print_layer_async : string -> Series -> RowIO -> coro outcome :=
    layer_coro MsgCsvError.

Definition supervised_mode (env : Env) : M unit :=
    supervised_mode_sync (print_layer env) PromptChoiceMulti.

Definition automatic_mode_async (env : Env) : M unit :=
    automatic_mode_gather env MsgCsvError.

Definition run (env : Env) (csv_file : string) : M unit :=
    run_with env (supervised_mode env) (automatic_mode_async env) csv_file.
End Multi.

(** ** smart_driver.py *)
Module Smart.
Definition fetch_layer_supervised : string -> Series -> RowIO -> coro outcome :=
    layer_coro MsgHasCsvError.

Definition print_layer (env : Env) : nat -> Series -> M unit :=
    print_layer_sync env any_exception MsgNoImage.

Definition automatic_mode_async (env : Env) : M unit :=
    automatic_mode_gather env MsgHasCsvError.

  (** *** The prefetching supervised mode, as a transition system

      The local variables of [supervised_mode_async], and where control is:
      in the initial prefetch loop, at the head of the consumer loop, past the
      prompt (about to retrieve), in the refill loop, or out of the method. *)
Inductive control : Type :=
  | InitialPrefetch
  | LoopHead
  | Retrieve
  | Refill
  | Finished (st : status unit).

Record locals : Type := {
    max_prefetch : nat;
    initial_prefetch : nat;
    prefetched : gmap nat nat;       (* layer index to task id *)
    n_layers : nat;                  (* the local [total_layers] *)
    next_index_to_prefetch : nat;
    current_index : nat;
    pc : control
  }.

Definition goto (c : control) (l : locals) : locals :=
    {| max_prefetch := max_prefetch l; initial_prefetch := initial_prefetch l;
       prefetched := prefetched l; n_layers := n_layers l;
       next_index_to_prefetch := next_index_to_prefetch l;
       current_index := current_index l; pc := c |}.

  (** The body shared by the two prefetch loops:
      [layer = iloc[next]; task = create_task(..); prefetched[next] = task;
       next += 1]. *)
Definition launch (env : Env) (l : locals) : M locals :=
    let i := next_index_to_prefetch l in
    do layer <- iloc i;
    do p <- get_self;
    do task <- create_task i
                 (fetch_layer_supervised (output_folder p) layer (row_io env i));
    ret {| max_prefetch := max_prefetch l; initial_prefetch := initial_prefetch l;
           prefetched := <[i := task]> (prefetched l); n_layers := n_layers l;
           next_index_to_prefetch := i + 1;
           current_index := current_index l; pc := pc l |}.

  (** Lines 130-149: retrieve the result for [current_index], fold it into
      the counters, drop it from the store, advance. *)
Definition retrieve (l : locals) : M locals :=
    let i := current_index l in
    do store <-
      match prefetched l !! i with
      | Some task =>
          do result <-
            try_except (await_task task) any_exception
              (fun e =>
                 do layer <- iloc i;
                 ret (series_get layer "Layer Number" (PStr "unknown"), false,
                      Some ("Error: " +:+ exn_msg e)))
              ret;
          let '(layer_number, success, error) := result in
          (if (success : bool) then
             print (MsgPrefetched layer_number) ;;
             incr_successful
           else
             print (MsgFailed layer_number error) ;;
             incr_failed ;;
             log_error ("Layer " +:+ py_str layer_number +:+ ": " +:+ fmt_opt error)) ;;
          ret (delete i (prefetched l))
      | None =>
          print (MsgNoPrefetched i) ;;
          ret (prefetched l)
      end;
    ret {| max_prefetch := max_prefetch l; initial_prefetch := initial_prefetch l;
           prefetched := store; n_layers := n_layers l;
           next_index_to_prefetch := next_index_to_prefetch l;
           current_index := i + 1; pc := Refill |}.

Definition step_body (env : Env) (l : locals) : M locals :=
    match pc l with
    | InitialPrefetch =>
        if (next_index_to_prefetch l <? n_layers l)
           && (size (prefetched l) <? initial_prefetch l)
        then launch env l
        else ret (goto LoopHead l)
    | LoopHead =>
        if current_index l <? n_layers l then
          do user_input <- run_in_executor_input (PromptProcess (current_index l));
          if String.eqb (lower (strip user_input)) "q" then
            print MsgAborted ;;
            ret (goto (Finished (Normal tt)) l)       (* break *)
          else ret (goto Retrieve l)
        else ret (goto (Finished (Normal tt)) l)
    | Retrieve => retrieve l
    | Refill =>
        if (next_index_to_prefetch l <? n_layers l)
           && (size (prefetched l) <? max_prefetch l)
        then launch env l
        else ret (goto LoopHead l)
    | Finished _ => ret l
    end.

  (** One transition; an exit or an uncaught exception leaves the method. *)
Definition step (env : Env) (c : machine * locals) : machine * locals :=
    let '(m, l) := c in
    match pc l with
    | Finished _ => c
    | _ =>
        match step_body env l m with
        | (Normal l', m') => (m', l')
        | (SysExit code, m') => (m', goto (Finished (SysExit code)) l)
        | (Uncaught e, m') => (m', goto (Finished (Uncaught e)) l)
        end
    end.

Fixpoint steps (env : Env) (n : nat) (c : machine * locals) : machine * locals :=
    match n with
    | O => c
    | S n' => steps env n' (step env c)
    end.

  (** The locals at the entry of the method, with the two window sizes. *)
Definition entry (max_window initial_fill total : nat) : locals :=
    {| max_prefetch := max_window; initial_prefetch := initial_fill;
       prefetched := ∅; n_layers := total;
       next_index_to_prefetch := 0; current_index := 0;
       pc := InitialPrefetch |}.

  (** Enough transitions for any run: each one launches a row, consumes a
      row or leaves a loop. *)
Definition budget (total : nat) : nat := 4 * total + 4.

Definition step_budget_exhausted : exn := Exn OtherException "step budget exhausted".

Definition supervised_mode_async_with (max_window initial_fill : nat)
      (env : Env) : M unit :=
    fun m =>
      let total := total_layers (self m) in
      let '(m', l') :=
        steps env (budget total) (m, entry max_window initial_fill total) in
      match pc l' with
      | Finished st => (st, m')
      | _ => (Uncaught step_budget_exhausted, m')
      end.

  (** [max_prefetch = 10], [initial_prefetch = 6]. *)
Definition supervised_mode_async : Env -> M unit :=
    supervised_mode_async_with 10 6.

Definition run (env : Env) (csv_file : string) : M unit :=
    run_with env (supervised_mode_async env) (automatic_mode_async env) csv_file.
End Smart.

(** ** Starting a program *)

Definition blank : FakePrinter :=
  {| print_name := ""; output_folder := ""; mode := ""; csv_data := None;
     total_layers := 0; successful_layers := 0; failed_layers := 0;
     error_log := [] |}.

(** The machine before the object exists: what the user will type, and the
    oracle of the event loop. *)
Definition boot (lines : list string) (oracle : list (list nat)) : machine :=
  {| self := blank; stdin := lines; trace := []; tasks := []; sched := oracle |}.

(** [printer = FakePrinter(name, folder, mode); printer.run(csv_file)]. *)
Definition session (run : string -> M unit) (env : Env)
    (name folder mode_arg csv_file : string) : M unit :=
  init env name folder mode_arg ;;
  run csv_file.

(** ** Observations used in the statements *)

(** Rows processed so far, as the counters tell. *)
Definition done_count (m : machine) : nat :=
  successful_layers (self m) + failed_layers (self m).

(** The two messages of an interactive abort ([break] after 'q' or 'e'). *)
Definition is_abort (ev : event) : bool :=
  match ev with
  | EvPrint MsgAborted | EvPrint MsgAbortedError => true
  | _ => false
  end.

Definition aborted (tr : list event) : bool := existsb is_abort tr.

(** The row indices for which a task was created, in order. *)
Definition created (tr : list event) : list nat :=
  omap (fun ev => match ev with EvCreateTask i => Some i | _ => None end) tr.

(** The outcomes handed to the consumer of the prefetching mode, in order:
    each one is reported by exactly one of these two messages. *)
Definition delivered (tr : list event) : list outcome :=
  omap (fun ev =>
          match ev with
          | EvPrint (MsgPrefetched n) => Some (n, true, None)
          | EvPrint (MsgFailed n error) => Some (n, false, error)
          | _ => None
          end) tr.

(** The prompts shown. *)
Definition prompts (tr : list event) : list msg :=
  omap (fun ev => match ev with EvInput p => Some p | _ => None end) tr.

(** The events a layer task can produce. *)
Definition task_event (ev : event) : bool :=
  match ev with
  | EvMakedirs _ _ | EvWriteText _ _ _ | EvHttpGet _ _ | EvWriteBytes _ _ _ => true
  | EvPrint (MsgNoImage _) | EvPrint (MsgCsvError _ _)
  | EvPrint (MsgHasCsvError _ _) => true
  | _ => false
  end.

(** The answer that quits the prefetching consumer loop. *)
Definition is_quit (line : string) : bool := String.eqb (lower (strip line)) "q".

(** How many times the user confirms before the first 'q' (or the end of
    the input). *)
Fixpoint confirmations (lines : list string) : nat :=
  match lines with
  | [] => 0
  | line :: rest => if is_quit line then 0 else S (confirmations rest)
  end.

(** Where a coroutine ends, and the events it still has to produce. *)
Definition final {A} (c : coro A) : coro A := snd (run_to_end c).
Definition remaining {A} (c : coro A) : list event := fst (run_to_end c).

(** [c] is a later stage of the task that started as [c0]. *)
Definition stage (c0 c : coro outcome) : Prop :=
  final c = final c0 /\ Forall (fun ev => task_event ev = true) (remaining c).

(** What lines 136-143 of [smart_driver.py] do to [self] for one result. *)
Definition consume (p : FakePrinter) (r : outcome) : FakePrinter :=
  let '(layer_number, success, error) := r in
  if (success : bool) then
    {| print_name := print_name p; output_folder := output_folder p;
       mode := mode p; csv_data := csv_data p; total_layers := total_layers p;
       successful_layers := successful_layers p + 1;
       failed_layers := failed_layers p; error_log := error_log p |}
  else
    {| print_name := print_name p; output_folder := output_folder p;
       mode := mode p; csv_data := csv_data p; total_layers := total_layers p;
       successful_layers := successful_layers p;
       failed_layers := failed_layers p + 1;
       error_log :=
         error_log p
         ++ ["Layer " +:+ py_str layer_number +:+ ": " +:+ fmt_opt error] |}.

(** Row [i] of the data frame, its task, and the outcome its consumer gets: the task's
    result, or the tuple made by the [except] clause when the task raised. *)
Definition row (rows : list Series) (i : nat) : Series :=
  match rows !! i with
  | Some layer => layer
  | None => []
  end.

Definition row_coro (env : Env) (folder : string) (rows : list Series)
    (i : nat) : coro outcome :=
  Smart.fetch_layer_supervised folder (row rows i) (row_io env i).

Definition row_outcome (env : Env) (folder : string) (rows : list Series)
    (i : nat) : outcome :=
  match final (row_coro env folder rows i) with
  | Return r => r
  | Raise e =>
      (series_get (row rows i) "Layer Number" (PStr "unknown"),
       false, Some ("Error: " +:+ exn_msg e))
  | _ => (PNaN, false, None)
  end.

(** The artifacts of a row: its data file and its image file. *)
Definition layer_name (layer : Series) : string :=
  py_str (series_get layer "Layer Number" (PStr "unknown")).

Definition data_file_of (folder : string) (layer : Series) : string :=
  path_join (path_join folder ("layer_" +:+ layer_name layer)) "layer_data.txt".

Definition image_file_of (folder : string) (layer : Series) : string :=
  path_join (path_join folder ("layer_" +:+ layer_name layer))
    ("layer_" +:+ layer_name layer +:+ ".png").

(** The tasks of the event loop that are still running. *)
Definition in_flight (m : machine) : nat :=
  length (filter (fun c => is_done c = false) (tasks m)).

(** What a turn of the event loop may change, the tasks being stages of the
    coroutines [cs0]: they move on and their events are appended; the object,
    the input and the finished tasks are left alone. *)
Definition quiet_step (cs0 : list (coro outcome)) (m m' : machine) : Prop :=
  self m' = self m /\ stdin m' = stdin m /\
  Forall2 stage cs0 (tasks m') /\
  (exists evs, trace m' = trace m ++ evs /\
               Forall (fun ev => task_event ev = true) evs) /\
  (forall i c, tasks m !! i = Some c -> is_done c = true -> tasks m' !! i = Some c).

Definition eof : exn := Exn EOFError "EOF when reading a line".

(** The line already read at this point of the loop but not yet acted on. *)
Definition pc_extra (c : Smart.control) : nat :=
  match c with
  | Smart.Retrieve => 1
  | _ => 0
  end.

(** The invariant of the prefetching supervised mode, for a run that entered
    the method in machine [m0] with the data frame [rows] and the window
    sizes [mw] and [ifill]. *)
Record prefetch_inv (env : Env) (mw ifill : nat) (rows : list Series)
    (m0 m : machine) (l : Smart.locals) : Prop := {
  inv_max : Smart.max_prefetch l = mw;
  inv_initial : Smart.initial_prefetch l = ifill;
  inv_total : Smart.n_layers l = length rows;
  inv_data : csv_data (self m) = Some rows;
  inv_folder : output_folder (self m) = output_folder (self m0);
  inv_bounds :
    Smart.current_index l <= Smart.next_index_to_prefetch l <= length rows;
  inv_store : forall i,
    Smart.prefetched l !! i =
    if decide (Smart.current_index l <= i < Smart.next_index_to_prefetch l)
    then Some i else None;
  inv_size :
    size (Smart.prefetched l) =
    Smart.next_index_to_prefetch l - Smart.current_index l;
  inv_window :
    Smart.next_index_to_prefetch l - Smart.current_index l <= mw;
  inv_tasks :
    Forall2 stage
      (map (row_coro env (output_folder (self m0)) rows)
         (seq 0 (Smart.next_index_to_prefetch l)))
      (tasks m);
  inv_retired : forall i, i < Smart.current_index l ->
    exists c, tasks m !! i = Some c /\ is_done c = true;
  inv_self :
    self m =
    foldl consume (self m0)
      (map (row_outcome env (output_folder (self m0)) rows)
         (seq 0 (Smart.current_index l)));
  inv_delivered :
    delivered (trace m) =
    delivered (trace m0) ++
    map (row_outcome env (output_folder (self m0)) rows)
      (seq 0 (Smart.current_index l));
  inv_created :
    created (trace m) =
    created (trace m0) ++ seq 0 (Smart.next_index_to_prefetch l);
  inv_pc :
    match Smart.pc l with
    | Smart.InitialPrefetch =>
        Smart.current_index l = 0 /\ Smart.next_index_to_prefetch l <= ifill
    | Smart.LoopHead =>
        Smart.next_index_to_prefetch l = length rows \/
        Smart.current_index l < Smart.next_index_to_prefetch l
    | Smart.Retrieve =>
        Smart.current_index l < length rows /\
        Smart.current_index l < Smart.next_index_to_prefetch l
    | Smart.Refill => True
    | Smart.Finished st =>
        Smart.current_index l = Nat.min (confirmations (stdin m0)) (length rows) /\
        match st with
        | Normal _ =>
            Smart.current_index l = length rows \/ aborted (trace m) = true
        | Uncaught e =>
            e = eof /\ confirmations (stdin m0) = length (stdin m0) /\
            Smart.current_index l < length rows
        | SysExit _ => False
        end
    end;
  inv_stdin :
    match Smart.pc l with
    | Smart.Finished _ => True
    | c =>
        exists used,
          stdin m0 = used ++ stdin m /\
          Forall (fun line => is_quit line = false) used /\
          length used = Smart.current_index l + pc_extra c
    end
}.

(** The measure that every transition decreases. *)
Definition potential (l : Smart.locals) : nat :=
  3 * (Smart.n_layers l - Smart.current_index l)
  + (Smart.n_layers l - Smart.next_index_to_prefetch l)
  + match Smart.pc l with
    | Smart.InitialPrefetch => 3
    | Smart.LoopHead => 2
    | Smart.Retrieve => 1
    | Smart.Refill => 3
    | Smart.Finished _ => 0
    end.

(** ** Sample data

    Three rows, each with an image; the third carries the inherent error
    "Nozzle Jam". *)

Definition ok_io : RowIO :=
  {| makedirs_res := None; json_text := "{}"; write_data_res := None;
     http_res := inr "PNG"; write_image_res := None |}.

Definition sample_rows : list Series :=
  [ [("Layer Number", PInt 1); ("image url", PStr "http://host/1.png");
     ("Error", PStr "SUCCESS")];
    [("Layer Number", PInt 2); ("image url", PStr "http://host/2.png");
     ("Error", PStr "SUCCESS")];
    [("Layer Number", PInt 3); ("image url", PStr "http://host/3.png");
     ("Error", PStr "Nozzle Jam")] ].

Definition sample_env : Env :=
  {| read_csv := fun _ => inr sample_rows; out_makedirs_res := None;
     row_io := fun _ => ok_io; summary_res := None; chart_res := None |}.

(** A machine inside [run], the data frame loaded. *)
Definition sample_machine : machine :=
  {| self := {| print_name := "job"; output_folder := "out";
                mode := "supervised"; csv_data := Some sample_rows;
                total_layers := 3; successful_layers := 0; failed_layers := 0;
                error_log := [] |};
     stdin := [""; ""; "q"]; trace := []; tasks := []; sched := [[2; 0]; [1]] |}.

(** The same with an empty data frame. *)
Definition empty_machine : machine :=
  {| self := {| print_name := "job"; output_folder := "out";
                mode := "supervised"; csv_data := Some [];
                total_layers := 0; successful_layers := 0; failed_layers := 0;
                error_log := [] |};
     stdin := [""; "q"]; trace := []; tasks := []; sched := [[0]] |}.

(** ** Statements and their vocabulary *)

(** The machine once [__init__] and [load_csv_data] have run without error. *)
Definition loaded (name folder mode_arg csv_file : string) (rows : list Series)
    (lines : list string) (oracle : list (list nat)) : machine :=
  {| self := {| print_name := name; output_folder := folder;
                mode := lower mode_arg; csv_data := Some rows;
                total_layers := length rows; successful_layers := 0;
                failed_layers := 0; error_log := [] |};
     stdin := lines;
     trace := [EvMakedirs folder true; EvPrint (MsgLoaded (length rows) csv_file)];
     tasks := []; sched := oracle |}.

(** The object as [run] finds it after loading the data frame. *)
Definition fresh (name folder mode_arg : string) (rows : list Series) : FakePrinter :=
  {| print_name := name; output_folder := folder; mode := lower mode_arg;
     csv_data := Some rows; total_layers := length rows;
     successful_layers := 0; failed_layers := 0; error_log := [] |}.

(** What [run] leaves behind when it exits before any work: exit status 1,
    nothing but console messages added to the trace, the counters, the error
    log, the input and the event loop untouched. *)
Definition exits_before_work (m : machine) (r : status unit * machine) : Prop :=
  fst r = SysExit 1 /\
  (exists console, trace (snd r) = trace m ++ map EvPrint console) /\
  successful_layers (self (snd r)) = successful_layers (self m) /\
  failed_layers (self (snd r)) = failed_layers (self m) /\
  error_log (self (snd r)) = error_log (self m) /\
  stdin (snd r) = stdin m /\ tasks (snd r) = tasks m.

(** The path separator occurs in [s]. *)
Fixpoint has_slash (s : string) : bool :=
  match s with
  | EmptyString => false
  | String c r => Ascii.eqb c "/"%char || has_slash r
  end.

(** What [os.path.join] puts before a relative second component. *)
Definition join_prefix (a : string) : string :=
  if String.eqb a "" || ends_with_slash a then a else a +:+ "/".

(** Two different rows that carry the same layer number. *)
Definition twin_a : Series :=
  [("Layer Number", PInt 7); ("image url", PStr "http://host/a.png")].

Definition twin_b : Series :=
  [("Layer Number", PInt 7); ("image url", PStr "http://host/b.png")].

(** A string as the list of its characters. *)
Definition chars : string -> list ascii := String.list_ascii_of_string.


(** The image step failed with [e]: the request, or the write of the file. *)
Definition image_failed (layer : Series) (io : RowIO) (e : exn) : Prop :=
  truthy (series_get layer "image url" (PStr "")) = true /\
  (http_res io = inl e \/
   exists content, http_res io = inr content /\ write_image_res io = Some e).




(** A successful write of [path] is in the trace. *)
Definition persisted (path : string) (tr : list event) : bool :=
  existsb (fun ev =>
             match ev with
             | EvWriteText p _ true | EvWriteBytes p _ true => String.eqb p path
             | _ => false
             end) tr.

(** An inherent-data error comes only after successful I/O and carries the
    original value, for a layer coroutine. *)
Definition inherent_error_after_io
    (process : string -> Series -> RowIO -> coro outcome) : Prop :=
  forall folder layer io n x,
    final (process folder layer io)
    = Return (n, false, Some ("Inherent CSV error: " +:+ x)) ->
    let err := series_get layer "Error" (PStr "SUCCESS") in
    let url := series_get layer "image url" (PStr "") in
    let evs := remaining (process folder layer io) in
    makedirs_res io = None /\ write_data_res io = None /\
    In (EvWriteText (data_file_of folder layer) (json_text io) true) evs /\
    (truthy url = true ->
     exists content,
       http_res io = inr content /\ write_image_res io = None /\
       In (EvHttpGet url true) evs /\
       In (EvWriteBytes (image_file_of folder layer) content true) evs) /\
    py_ne err (PStr "SUCCESS") = true /\ x = py_str err.

(** What every mode does to the counters, run on a machine that holds the
    data frame [rows]: at most one count per row, and exactly one per row
    when the mode returns and no abort message was printed. *)
Definition mode_ok (act : M unit) : Prop :=
  forall m rows,
    csv_data (self m) = Some rows -> total_layers (self m) = length rows ->
    tasks m = [] ->
    let r := act m in
    total_layers (self (snd r)) = length rows /\
    done_count (snd r) <= done_count m + length rows /\
    (fst r = Normal tt -> aborted (trace (snd r)) = false ->
     done_count (snd r) = done_count m + length rows).

(** The same for the processing of one row. *)
Definition row_ok (process : nat -> Series -> M unit) : Prop :=
  forall index layer m,
    let r := process index layer m in
    total_layers (self (snd r)) = total_layers (self m) /\
    done_count (snd r) <= done_count m + 1 /\
    (fst r = Normal tt -> done_count (snd r) = done_count m + 1).

(** The counters of a finished program: never more rows counted than the
    data frame has, and all of them counted when the program returned and
    no abort message was printed. *)
Definition counts_ok (r : status unit * machine) : Prop :=
  done_count (snd r) <= total_layers (self (snd r)) /\
  (fst r = Normal tt -> aborted (trace (snd r)) = false ->
   done_count (snd r) = total_layers (self (snd r))).

(** The folder of every row can be made. *)
Definition folders_ok (env : Env) (rows : list Series) : Prop :=
  forall i, i < length rows -> makedirs_res (row_io env i) = None.

(** Whenever the image step of a row fails, it fails with a
    [requests.RequestException]. *)
Definition request_failures_only (env : Env) (rows : list Series) : Prop :=
  forall i e, i < length rows ->
    image_failed (row rows i) (row_io env i) e -> is_request_exception e = true.

(** The program returned from [run] with every row counted. *)
Definition all_counted (r : status unit * machine) : Prop :=
  fst r = Normal tt /\ done_count (snd r) = total_layers (self (snd r)).

(** The program returned from [run], or stopped at a prompt that got no
    line. *)
Definition returns_or_eof (r : status unit * machine) : Prop :=
  fst r = Normal tt \/ fst r = Uncaught eof.

(** A machine whose object holds a mode that [run] does not know. *)
Definition manual_machine : machine :=
  {| self := {| print_name := "job"; output_folder := "out"; mode := "manual";
                csv_data := None; total_layers := 0; successful_layers := 0;
                failed_layers := 0; error_log := [] |};
     stdin := [""]; trace := []; tasks := []; sched := [] |}.

(** ** Vocabulary of the further properties *)

(** An environment whose CSV file cannot be read. *)
Definition broken_env : Env :=
  {| read_csv := fun _ => inl (Exn OSError "No such file or directory");
     out_makedirs_res := None; row_io := fun _ => ok_io;
     summary_res := Some (Exn OSError "Permission denied");
     chart_res := None |}.

(** An environment where the image of every row is fetched but cannot be
    written. *)
Definition disk_full_env : Env :=
  {| read_csv := fun _ => inr sample_rows; out_makedirs_res := None;
     row_io := fun _ =>
       {| makedirs_res := None; json_text := "{}"; write_data_res := None;
          http_res := inr "PNG";
          write_image_res := Some (Exn OSError "No space left on device") |};
     summary_res := None; chart_res := None |}.

(** [s] is made of white-space characters. *)
Fixpoint all_space (s : string) : bool :=
  match s with
  | EmptyString => true
  | String c1 r1 =>
      if is_space c1 then all_space r1
      else
        match r1 with
        | String c2 r2 =>
            if is_space2 c1 c2 then all_space r2
            else
              match r2 with
              | String c3 r3 => is_space3 c1 c2 c3 && all_space r3
              | EmptyString => false
              end
        | EmptyString => false
        end
  end.

(** The row has a column named [key]. *)
Definition has_column (layer : Series) (key : string) : bool :=
  existsb (fun kv => String.eqb (fst kv) key) layer.

(** [c] ends as the task that started as [c0] ends. *)
Definition same_final (c0 c : coro outcome) : Prop := final c = final c0.

(** What [gather] makes of coroutines that are left to finish in the order
    of the arguments. *)
Fixpoint collect (cs : list (coro outcome)) : status (list outcome) :=
  match cs with
  | [] => Normal []
  | c :: rest =>
      match final c with
      | Return r =>
          match collect rest with
          | Normal rs => Normal (r :: rs)
          | other => other
          end
      | Raise e => Uncaught e
      | _ => Uncaught no_such_task
      end
  end.

(** The result a coroutine returns (a placeholder when it raises). *)
Definition returned (c : coro outcome) : outcome :=
  match final c with
  | Return r => r
  | _ => (PNaN, false, None)
  end.

(** An environment where the folder of the second row cannot be made. *)
Definition no_folder_env : Env :=
  {| read_csv := fun _ => inr sample_rows; out_makedirs_res := None;
     row_io := fun i =>
       if Nat.eqb i 1 then
         {| makedirs_res := Some (Exn OSError "Permission denied");
            json_text := "{}"; write_data_res := None;
            http_res := inr "PNG"; write_image_res := None |}
       else ok_io;
     summary_res := None; chart_res := None |}.

(** The number of rows for which a task has been created once the consumer
    stands at row [k]: the initial fill before the first row is consumed,
    then the window counted from the current row. *)
Definition lookahead (mw ifill total k : nat) : nat :=
  if Nat.eqb k 0 then Nat.min total ifill else Nat.min total (k + mw).

(** Outside the two prefetch loops, the producer is exactly [lookahead]
    rows ahead. *)
Definition pace (mw ifill : nat) (l : Smart.locals) : Prop :=
  match Smart.pc l with
  | Smart.InitialPrefetch => True
  | Smart.Refill => 1 <= Smart.current_index l
  | _ =>
      Smart.next_index_to_prefetch l =
      lookahead mw ifill (Smart.n_layers l) (Smart.current_index l)
  end.

(** The row carries no inherent error. *)
Definition error_free (layer : Series) : bool :=
  negb (py_ne (series_get layer "Error" (PStr "SUCCESS")) (PStr "SUCCESS")).

(** The statuses agree (whatever the value returned). *)
Definition same_status {A B} (s : status A) (t : status B) : Prop :=
  match s, t with
  | Normal _, Normal _ => True
  | SysExit a, SysExit b => a = b
  | Uncaught e, Uncaught e' => e = e'
  | _, _ => False
  end.

(** A machine inside [run] whose data frame holds the two rows of the sample
    that carry no inherent error. *)
Definition clean_machine : machine :=
  {| self := {| print_name := "job"; output_folder := "out";
                mode := "supervised"; csv_data := Some (take 2 sample_rows);
                total_layers := 2; successful_layers := 0; failed_layers := 0;
                error_log := [] |};
     stdin := [""; "yes"]; trace := []; tasks := []; sched := [] |}.

(** The number of prompts shown so far: one per row consumed, one more when
    a line was read and not yet acted on, or when the method ended at a
    prompt (on 'q' or on the end of the input). *)
Definition asked (l : Smart.locals) : nat :=
  Smart.current_index l +
  match Smart.pc l with
  | Smart.Retrieve => 1
  | Smart.Finished _ =>
      if Smart.current_index l <? Smart.n_layers l then 1 else 0
  | _ => 0
  end.

(** The prompts shown since the method was entered in [m0] are those of
    rows [0 .. asked - 1], and one line of input was read for each; unless
    the method ended on the end of the input, each prompt got its line. *)
Definition dialogue (m0 m : machine) (l : Smart.locals) : Prop :=
  prompts (trace m) = prompts (trace m0) ++ map PromptProcess (seq 0 (asked l)) /\
  stdin m = drop (asked l) (stdin m0) /\
  match Smart.pc l with
  | Smart.Finished (Uncaught _) => True
  | _ => asked l <= length (stdin m0)
  end.

(** ** Basic facts *)

Ltac unfold_m :=
  unfold os_makedirs, write_text, write_bytes, requests_get, incr_successful,
    incr_failed, log_error, print, set_csv_data, iterrows, iloc in *;
  unfold attempt in *;
  unfold try_except, emit, input, bind, ret, raise, sys_exit, get_self, set_self,
    create_task in *.

(** The same by evaluation: the operations of the monad and the projections
    of the machine and of the object are computed, call by value, so that a
    machine is never copied into the record that follows it. *)
Ltac run_m :=
  cbv [os_makedirs write_text write_bytes requests_get incr_successful
       incr_failed log_error print attempt try_except emit bind ret raise
       get_self set_self any_exception
       self stdin trace tasks sched
       print_name output_folder mode csv_data total_layers successful_layers
       failed_layers error_log fst snd].

Lemma slice_run_to_end {A} (c : coro A) :
  run_to_end c =
  (fst (slice c) ++ fst (run_to_end (snd (slice c))),
   snd (run_to_end (snd (slice c)))).
Proof.
  induction c as [a|e|ev k IH|k IH]; simpl; try reflexivity.
  - rewrite IH. destruct (slice k) as [evs c']. simpl.
    destruct (run_to_end c') as [evs' c'']. reflexivity.
  - destruct (run_to_end k); reflexivity.
Qed.

Lemma run_to_end_done {A} (c : coro A) : is_done (final c) = true.
Proof.
  unfold final. induction c as [a|e|ev k IH|k IH]; simpl; try reflexivity.
  - destruct (run_to_end k). exact IH.
  - exact IH.
Qed.

Lemma done_run_to_end {A} (c : coro A) : is_done c = true -> run_to_end c = ([], c).
Proof. destruct c; simpl; intros; congruence. Qed.

Lemma done_slice {A} (c : coro A) : is_done c = true -> slice c = ([], c).
Proof. destruct c; simpl; intros; congruence. Qed.

Lemma final_final {A} (c : coro A) : final (final c) = final c.
Proof.
  unfold final at 1. rewrite done_run_to_end; [reflexivity|apply run_to_end_done].
Qed.

Lemma remaining_final {A} (c : coro A) : remaining (final c) = [].
Proof.
  unfold remaining. rewrite done_run_to_end; [reflexivity|apply run_to_end_done].
Qed.

Lemma stage_refl c :
  Forall (fun ev => task_event ev = true) (remaining c) -> stage c c.
Proof. intros; split; [reflexivity|assumption]. Qed.

Lemma stage_slice c0 c : stage c0 c -> stage c0 (snd (slice c)).
Proof.
  intros [Hf Hr]. unfold stage, final, remaining in *.
  rewrite (slice_run_to_end c) in Hf, Hr. simpl in *.
  apply Forall_app in Hr as [_ Hr]. split; assumption.
Qed.

Lemma stage_final c0 c : stage c0 c -> stage c0 (final c).
Proof.
  intros [Hf Hr]. split; [rewrite final_final; exact Hf|].
  rewrite remaining_final. constructor.
Qed.

Lemma slice_events c0 c :
  stage c0 c -> Forall (fun ev => task_event ev = true) (fst (slice c)).
Proof.
  intros [_ Hr]. unfold remaining in Hr. rewrite (slice_run_to_end c) in Hr.
  simpl in Hr. apply Forall_app in Hr as [Hr _]. exact Hr.
Qed.

Lemma created_app tr1 tr2 : created (tr1 ++ tr2) = created tr1 ++ created tr2.
Proof. apply omap_app. Qed.

Lemma delivered_app tr1 tr2 : delivered (tr1 ++ tr2) = delivered tr1 ++ delivered tr2.
Proof. apply omap_app. Qed.

Lemma prompts_app tr1 tr2 : prompts (tr1 ++ tr2) = prompts tr1 ++ prompts tr2.
Proof. apply omap_app. Qed.

Lemma aborted_app tr1 tr2 : aborted (tr1 ++ tr2) = aborted tr1 || aborted tr2.
Proof. apply existsb_app. Qed.

Lemma task_events_silent evs :
  Forall (fun ev => task_event ev = true) evs ->
  created evs = [] /\ delivered evs = [] /\ prompts evs = [] /\ aborted evs = false.
Proof.
  induction 1 as [|ev evs Hev _ (IH1 & IH2 & IH3 & IH4)]; [done|].
  change (ev :: evs) with ([ev] ++ evs).
  rewrite created_app, delivered_app, prompts_app, aborted_app, IH1, IH2, IH3, IH4.
  destruct ev as [| | | |x|x| | | |]; try discriminate Hev; try done.
  destruct x; try discriminate Hev; done.
Qed.

(** Case analysis on what happens to the I/O of a layer task. *)
Ltac layer_cases io :=
  destruct (makedirs_res io); simpl;
  [| destruct (write_data_res io); simpl;
     [| destruct (py_ne _ _); simpl;
        (destruct (truthy _); simpl;
         [destruct (http_res io); simpl;
          [| destruct (write_image_res io); simpl] |]) ]].

Lemma layer_coro_events csv_msg folder layer io :
  (forall n e, task_event (EvPrint (csv_msg n e)) = true) ->
  Forall (fun ev => task_event ev = true)
    (remaining (layer_coro csv_msg folder layer io)).
Proof.
  intros Hmsg. unfold remaining, layer_coro. layer_cases io;
    repeat (constructor; try reflexivity; try apply Hmsg).
Qed.

Lemma row_coro_stage env folder rows i :
  stage (row_coro env folder rows i) (row_coro env folder rows i).
Proof.
  apply stage_refl. apply layer_coro_events. reflexivity.
Qed.

(** A successful result of a layer task carries no error text. *)
Lemma layer_coro_success csv_msg folder layer io n e :
  final (layer_coro csv_msg folder layer io) = Return (n, true, e) -> e = None.
Proof.
  unfold final, layer_coro. layer_cases io; congruence.
Qed.

(** ** The event loop moves tasks forward and nothing else *)

Lemma quiet_step_refl cs0 m : Forall2 stage cs0 (tasks m) -> quiet_step cs0 m m.
Proof.
  intros H. repeat split; try done.
  exists []. rewrite app_nil_r. split; [done|constructor].
Qed.

Lemma quiet_step_trans cs0 m1 m2 m3 :
  quiet_step cs0 m1 m2 -> quiet_step cs0 m2 m3 -> quiet_step cs0 m1 m3.
Proof.
  intros (Hs1 & Hi1 & _ & (evs1 & Ht1 & He1) & Hd1)
         (Hs2 & Hi2 & Hf2 & (evs2 & Ht2 & He2) & Hd2).
  repeat split; try congruence; try done.
  - exists (evs1 ++ evs2). rewrite Ht2, Ht1, app_assoc.
    split; [done|]. apply Forall_app; done.
  - intros i c Hc Hdone. eauto.
Qed.

Lemma advance_quiet cs0 id m :
  Forall2 stage cs0 (tasks m) -> quiet_step cs0 m (advance id m).
Proof.
  intros H. unfold advance.
  destruct (tasks m !! id) as [c|] eqn:Hc; [|by apply quiet_step_refl].
  destruct (Forall2_lookup_r _ _ _ _ _ H Hc) as (c0 & Hc0 & Hst).
  pose proof (stage_slice _ _ Hst) as Hst'.
  pose proof (slice_events _ _ Hst) as Hev.
  destruct (slice c) as [evs c'] eqn:Hsl. simpl in *.
  repeat split; try done.
  - simpl. rewrite <- (list_insert_id cs0 id c0) by done.
    apply Forall2_insert; done.
  - exists evs. done.
  - intros i d Hd Hdone. simpl.
    destruct (decide (i = id)) as [->|Hne].
    + rewrite Hc in Hd. injection Hd as ->.
      rewrite (done_slice _ Hdone) in Hsl. injection Hsl as _ <-.
      rewrite list_lookup_insert_eq; [done|]. eapply lookup_lt_Some; done.
    + rewrite list_lookup_insert_ne; done.
Qed.

Lemma complete_quiet cs0 id m :
  Forall2 stage cs0 (tasks m) -> quiet_step cs0 m (complete id m).
Proof.
  intros H. unfold complete.
  destruct (tasks m !! id) as [c|] eqn:Hc; [|by apply quiet_step_refl].
  destruct (Forall2_lookup_r _ _ _ _ _ H Hc) as (c0 & Hc0 & Hst).
  pose proof (stage_final _ _ Hst) as Hst'.
  destruct Hst as [_ Hev]. unfold final, remaining in *.
  destruct (run_to_end c) as [evs c'] eqn:Hrun. simpl in *.
  repeat split; try done.
  - simpl. rewrite <- (list_insert_id cs0 id c0) by done.
    apply Forall2_insert; done.
  - exists evs. done.
  - intros i d Hd Hdone. simpl.
    destruct (decide (i = id)) as [->|Hne].
    + rewrite Hc in Hd. injection Hd as ->.
      rewrite (done_run_to_end _ Hdone) in Hrun. injection Hrun as _ <-.
      rewrite list_lookup_insert_eq; [done|]. eapply lookup_lt_Some; done.
    + rewrite list_lookup_insert_ne; done.
Qed.

Lemma complete_lookup id m c :
  tasks m !! id = Some c -> tasks (complete id m) !! id = Some (final c).
Proof.
  intros Hc. unfold complete, final. rewrite Hc.
  destruct (run_to_end c) as [evs c']. simpl.
  rewrite list_lookup_insert_eq; [done|]. eapply lookup_lt_Some; done.
Qed.

Lemma turns_quiet cs0 ids m :
  Forall2 stage cs0 (tasks m) ->
  quiet_step cs0 m (foldl (fun m' id => advance id m') m ids).
Proof.
  revert m. induction ids as [|id ids IH]; intros m H; simpl.
  - by apply quiet_step_refl.
  - pose proof (advance_quiet cs0 id m H) as Hq.
    eapply quiet_step_trans; [exact Hq|]. apply IH. apply Hq.
Qed.

Lemma suspend_quiet cs0 m :
  Forall2 stage cs0 (tasks m) -> quiet_step cs0 m (suspend m).
Proof.
  intros H. unfold suspend.
  pose proof (turns_quiet cs0 (hd [] (sched m)) (with_sched tl m) H) as Hq.
  exact Hq.
Qed.

(** ** The invariant of the prefetching supervised mode *)

Lemma confirmations_app used rest :
  Forall (fun line => is_quit line = false) used ->
  confirmations (used ++ rest) = length used + confirmations rest.
Proof.
  induction 1 as [|line used Hq _ IH]; simpl; [done|].
  rewrite Hq, IH. done.
Qed.

Lemma confirmations_le lines : confirmations lines <= length lines.
Proof.
  induction lines as [|line rest IH]; simpl; [done|].
  destruct (is_quit line); lia.
Qed.

Lemma foldl_consume_snoc p (f : nat -> outcome) n :
  foldl consume p (map f (seq 0 (n + 1))) =
  consume (foldl consume p (map f (seq 0 n))) (f n).
Proof. rewrite seq_app, map_app, foldl_app. reflexivity. Qed.

Lemma lookup_map_seq {A} (f : nat -> A) n i :
  i < n -> map f (seq 0 n) !! i = Some (f i).
Proof.
  intros Hi. change (map f (seq 0 n)) with (f <$> seq 0 n).
  rewrite list_lookup_fmap, lookup_seq_lt by done. done.
Qed.

Lemma consume_frame p r :
  csv_data (consume p r) = csv_data p /\
  output_folder (consume p r) = output_folder p /\
  total_layers (consume p r) = total_layers p /\
  successful_layers (consume p r) + failed_layers (consume p r) =
  successful_layers p + failed_layers p + 1.
Proof. destruct r as [[n []] e]; simpl; repeat split; lia. Qed.

Section PrefetchInvariant.
Context (env : Env) (mw ifill : nat) (rows : list Series) (m0 : machine).
Hypothesis Hfill : 1 <= ifill <= mw.

Abbreviation inv := (prefetch_inv env mw ifill rows m0).
Abbreviation folder := (output_folder (self m0)).

Lemma inv_entry :
  csv_data (self m0) = Some rows -> tasks m0 = [] ->
  inv m0 (Smart.entry mw ifill (length rows)).
Proof.
  intros Hdata Htasks. split; simpl; try done; try lia.
  all: try (by rewrite app_nil_r).
  - rewrite Htasks. constructor.
  - exists []. repeat split; constructor.
Qed.

Lemma launch_spec m l :
  inv m l -> Smart.next_index_to_prefetch l < length rows ->
  Smart.launch env l m =
  (Normal
     {| Smart.max_prefetch := Smart.max_prefetch l;
        Smart.initial_prefetch := Smart.initial_prefetch l;
        Smart.prefetched :=
          <[Smart.next_index_to_prefetch l := Smart.next_index_to_prefetch l]>
            (Smart.prefetched l);
        Smart.n_layers := Smart.n_layers l;
        Smart.next_index_to_prefetch := Smart.next_index_to_prefetch l + 1;
        Smart.current_index := Smart.current_index l;
        Smart.pc := Smart.pc l |},
   with_tasks
     (fun ts => ts ++ [row_coro env folder rows (Smart.next_index_to_prefetch l)])
     (with_trace (fun tr => tr ++ [EvCreateTask (Smart.next_index_to_prefetch l)]) m)).
Proof.
  intros Hinv Hlt. unfold Smart.launch. unfold_m. cbv beta iota.
  rewrite (inv_data _ _ _ _ _ _ _ Hinv).
  destruct (lookup_lt_is_Some_2 rows _ Hlt) as [layer Hlayer].
  unfold row_coro, row. rewrite Hlayer. simpl.
  pose proof (Forall2_length _ _ _ (inv_tasks _ _ _ _ _ _ _ Hinv)) as Hlen.
  rewrite length_map, length_seq in Hlen.
  rewrite (inv_folder _ _ _ _ _ _ _ Hinv), <- Hlen. reflexivity.
Qed.

Lemma launch_inv m l :
  inv m l ->
  Smart.next_index_to_prefetch l < length rows ->
  Smart.next_index_to_prefetch l - Smart.current_index l < mw ->
  match Smart.pc l with
  | Smart.InitialPrefetch => Smart.next_index_to_prefetch l < ifill
  | Smart.Refill => True
  | _ => False
  end ->
  inv
    (with_tasks
       (fun ts => ts ++ [row_coro env folder rows (Smart.next_index_to_prefetch l)])
       (with_trace
          (fun tr => tr ++ [EvCreateTask (Smart.next_index_to_prefetch l)]) m))
    {| Smart.max_prefetch := Smart.max_prefetch l;
       Smart.initial_prefetch := Smart.initial_prefetch l;
       Smart.prefetched :=
         <[Smart.next_index_to_prefetch l := Smart.next_index_to_prefetch l]>
           (Smart.prefetched l);
       Smart.n_layers := Smart.n_layers l;
       Smart.next_index_to_prefetch := Smart.next_index_to_prefetch l + 1;
       Smart.current_index := Smart.current_index l;
       Smart.pc := Smart.pc l |}.
Proof.
  intros [Hmax Hini Htot Hdata Hfold Hbnd Hstore Hsize Hwin Htasks Hret Hself
            Hdel Hcre Hpc Hstdin] Hlt Hroom Hat.
  split; simpl; try done; try lia.
  - intros i. destruct (decide (i = Smart.next_index_to_prefetch l)) as [->|Hne].
    + rewrite lookup_insert_eq. case_decide; [done|lia].
    + rewrite lookup_insert_ne by done. rewrite Hstore.
      repeat case_decide; try done; lia.
  - rewrite map_size_insert_None; [lia|].
    rewrite Hstore. case_decide; [lia|done].
  - rewrite seq_app, map_app. apply Forall2_app; [done|].
    constructor; [apply row_coro_stage|constructor].
  - intros i Hi. destruct (Hret i Hi) as (c & Hc & Hdone).
    exists c. split; [|done]. by apply lookup_app_l_Some.
  - rewrite delivered_app, Hdel. simpl. by rewrite app_nil_r.
  - rewrite created_app, Hcre, seq_app, app_assoc. done.
  - destruct (Smart.pc l); try done. lia.
Qed.

Lemma inv_frame m m' l :
  inv m l ->
  self m' = self m -> stdin m' = stdin m ->
  Forall2 stage
    (map (row_coro env folder rows) (seq 0 (Smart.next_index_to_prefetch l)))
    (tasks m') ->
  (forall i c, tasks m !! i = Some c -> is_done c = true -> tasks m' !! i = Some c) ->
  (exists evs, trace m' = trace m ++ evs /\ created evs = [] /\ delivered evs = []) ->
  inv m' l.
Proof.
  intros [Hmax Hini Htot Hdata Hfold Hbnd Hstore Hsize Hwin Htasks Hret Hself
            Hdel Hcre Hpc Hstdin] Es Ei Ht Hd (evs & Et & Ec & Ed).
  split; try done; try congruence.
  - intros i Hi. destruct (Hret i Hi) as (c & Hc & Hdone). eauto.
  - rewrite Et, delivered_app, Ed, app_nil_r. done.
  - rewrite Et, created_app, Ec, app_nil_r. done.
  - destruct (Smart.pc l) as [| | | |[]]; try done.
    destruct Hpc as [Hc [Hall|Hab]]; split; try done; [by left|right].
    rewrite Et, aborted_app, Hab. done.
  - destruct (Smart.pc l); try done; by rewrite Ei.
Qed.

Lemma inv_quiet m m' l :
  inv m l ->
  quiet_step
    (map (row_coro env folder rows) (seq 0 (Smart.next_index_to_prefetch l)))
    m m' ->
  inv m' l.
Proof.
  intros Hinv (Es & Ei & Ht & (evs & Et & Hev) & Hd).
  apply (inv_frame m m' l Hinv Es Ei Ht Hd).
  exists evs. destruct (task_events_silent evs Hev) as (? & ? & _). done.
Qed.

Lemma leave_prefetch_loop m l bound :
  inv m l -> 1 <= bound ->
  (Smart.pc l = Smart.InitialPrefetch \/ Smart.pc l = Smart.Refill) ->
  (Smart.next_index_to_prefetch l <? Smart.n_layers l)
  && (size (Smart.prefetched l) <? bound) = false ->
  inv m (Smart.goto Smart.LoopHead l).
Proof.
  intros [Hmax Hini Htot Hdata Hfold Hbnd Hstore Hsize Hwin Htasks Hret Hself
            Hdel Hcre Hpc Hstdin] Hb Hat Hcond.
  split; simpl; try done.
  - apply andb_false_iff in Hcond as [Hc|Hc]; apply Nat.ltb_ge in Hc; lia.
  - destruct Hat as [-> | ->] in Hstdin; done.
Qed.

Lemma prefetch_loop_inv m l bound :
  inv m l ->
  (Smart.pc l = Smart.InitialPrefetch /\ bound = ifill \/
   Smart.pc l = Smart.Refill /\ bound = mw) ->
  let r :=
    (if (Smart.next_index_to_prefetch l <? Smart.n_layers l)
        && (size (Smart.prefetched l) <? bound)
     then Smart.launch env l
     else ret (Smart.goto Smart.LoopHead l)) m in
  exists l', fst r = Normal l' /\ inv (snd r) l' /\ potential l' < potential l.
Proof.
  intros Hinv Hat.
  destruct ((Smart.next_index_to_prefetch l <? Smart.n_layers l)
            && (size (Smart.prefetched l) <? bound)) eqn:Hcond; simpl.
  - apply andb_true_iff in Hcond as [Hn Hs].
    apply Nat.ltb_lt in Hn, Hs.
    rewrite (inv_total _ _ _ _ _ _ _ Hinv) in Hn.
    rewrite (inv_size _ _ _ _ _ _ _ Hinv) in Hs.
    rewrite (launch_spec m l Hinv Hn). simpl. eexists. split; [done|]. split.
    + apply launch_inv; try done.
      * destruct Hat as [[_ ->]|[_ ->]]; lia.
      * pose proof (inv_pc _ _ _ _ _ _ _ Hinv) as Hpc.
        destruct Hat as [[Hp ->]|[Hp ->]]; rewrite Hp in *; [lia|done].
    + unfold potential. simpl.
      rewrite (inv_total _ _ _ _ _ _ _ Hinv). lia.
  - eexists. split; [done|]. split.
    + apply (leave_prefetch_loop m l bound); try done.
      * destruct Hat as [[_ ->]|[_ ->]]; lia.
      * destruct Hat as [[? _]|[? _]]; auto.
    + unfold potential. simpl. destruct Hat as [[-> _]|[-> _]]; lia.
Qed.

Lemma prompt_inv m l :
  inv m l -> Smart.pc l = Smart.LoopHead ->
  let r := Smart.step_body env l m in
  (exists l', fst r = Normal l' /\ inv (snd r) l' /\ potential l' < potential l) \/
  (exists e, fst r = Uncaught e /\
             inv (snd r) (Smart.goto (Smart.Finished (Uncaught e)) l)).
Proof.
  intros Hinv Hat. unfold Smart.step_body. rewrite Hat.
  pose proof Hinv as [Hmax Hini Htot Hdata Hfold Hbnd Hstore Hsize Hwin Htasks
                        Hret Hself Hdel Hcre Hpc Hstdin].
  rewrite Hat in Hpc, Hstdin. destruct Hstdin as (used & Hused & Hconf & Hlen).
  simpl in Hlen. rewrite Nat.add_0_r in Hlen.
  destruct (Smart.current_index l <? Smart.n_layers l) eqn:Hcur.
  2: { left. eexists. split; [done|]. simpl.
       split; [|unfold potential; simpl; rewrite Hat; lia].
       apply Nat.ltb_ge in Hcur. rewrite Htot in Hcur.
       split; simpl; try done. split; [|left; lia].
       rewrite Hused, confirmations_app by done. lia. }
  apply Nat.ltb_lt in Hcur. rewrite Htot in Hcur.
  unfold bind, run_in_executor_input.
  set (p := PromptProcess (Smart.current_index l)).
  set (ma := with_trace (fun tr => tr ++ [EvInput p]) m).
  assert (Hq : quiet_step
                 (map (row_coro env folder rows)
                    (seq 0 (Smart.next_index_to_prefetch l))) ma (suspend ma))
    by (apply suspend_quiet; exact Htasks).
  assert (Hinv1 : inv (suspend ma) l).
  { destruct Hq as (Es & Ei & Ht & (evs & Et & Hev) & Hd).
    apply (inv_frame m _ l Hinv); try done.
    exists ([EvInput p] ++ evs). subst ma. simpl in Et.
    rewrite Et, <- app_assoc. split; [done|].
    destruct (task_events_silent evs Hev) as (Hc & Hdl & _).
    rewrite created_app, delivered_app, Hc, Hdl. done. }
  assert (Hin : stdin (suspend ma) = stdin m) by apply Hq.
  destruct (stdin (suspend ma)) as [|line rest] eqn:Hlines.
  - right. eexists. split; [done|]. simpl.
    destruct Hinv1 as [? ? ? ? ? ? ? ? ? ? ? ? ? ? _ _].
    split; simpl; try done.
    rewrite <- Hin, app_nil_r in Hused. subst used.
    rewrite <- (app_nil_r (stdin m0)) at 1.
    rewrite confirmations_app by done. simpl.
    split; [lia|]. split; [done|]. split; [|lia].
    rewrite <- (app_nil_r (stdin m0)) at 1.
    rewrite confirmations_app by done. simpl. lia.
  - simpl. destruct (String.eqb (lower (strip line)) "q") eqn:Hquit.
    + left. eexists. split; [done|]. simpl.
      split; [|unfold potential; simpl; rewrite Hat; lia].
      destruct Hinv1 as [? ? ? ? ? ? ? ? ? ? ? ? Hdel1 Hcre1 _ _].
      split; simpl; try done.
      * rewrite delivered_app, Hdel1. simpl. by rewrite app_nil_r.
      * rewrite created_app, Hcre1. simpl. by rewrite app_nil_r.
      * split.
        -- rewrite Hused, <- Hin, confirmations_app by done. simpl.
           unfold is_quit. rewrite Hquit. lia.
        -- right. rewrite aborted_app. simpl. by rewrite orb_true_r.
    + left. eexists. split; [done|]. simpl.
      split; [|unfold potential; simpl; rewrite Hat; lia].
      destruct Hinv1 as [? ? ? ? ? ? ? ? ? ? ? ? Hdel1 Hcre1 _ _].
      split; simpl; try done.
      * lia.
      * exists (used ++ [line]). rewrite <- app_assoc. simpl.
        rewrite <- Hin in Hused. rewrite Hlines. simpl. split; [done|]. split.
        -- apply Forall_app. split; [done|]. constructor; [exact Hquit|constructor].
        -- rewrite length_app. simpl. lia.
Qed.

Lemma await_spec m l :
  inv m l -> Smart.pc l = Smart.Retrieve ->
  exists m1,
    quiet_step
      (map (row_coro env folder rows) (seq 0 (Smart.next_index_to_prefetch l)))
      m m1 /\
    tasks m1 !! Smart.current_index l =
      Some (final (row_coro env folder rows (Smart.current_index l))) /\
    await_task (Smart.current_index l) m =
      (match final (row_coro env folder rows (Smart.current_index l)) with
       | Return r => Normal r
       | Raise e => Uncaught e
       | _ => Uncaught no_such_task
       end, m1).
Proof.
  intros Hinv Hat.
  pose proof (inv_tasks _ _ _ _ _ _ _ Hinv) as Htasks.
  pose proof (inv_pc _ _ _ _ _ _ _ Hinv) as Hpc. rewrite Hat in Hpc.
  destruct Hpc as [_ Hlt].
  set (cur := Smart.current_index l) in *.
  set (cs0 := map (row_coro env folder rows)
                (seq 0 (Smart.next_index_to_prefetch l))) in *.
  assert (Hrc : cs0 !! cur = Some (row_coro env folder rows cur))
    by (apply lookup_map_seq; done).
  assert (Hfind : forall m', Forall2 stage cs0 (tasks m') ->
            exists c, tasks m' !! cur = Some c /\
                      stage (row_coro env folder rows cur) c).
  { intros m' H. destruct (Forall2_lookup_l _ _ _ _ _ H Hrc) as (c & ? & ?). eauto. }
  destruct (Hfind m Htasks) as (c & Hc & Hst).
  assert (Hres : forall m1, tasks m1 !! cur =
                   Some (final (row_coro env folder rows cur)) ->
            match tasks m1 !! cur with
            | Some (Return r) => (Normal r, m1)
            | Some (Raise e) => (Uncaught e, m1)
            | _ => (Uncaught no_such_task, m1)
            end =
            (match final (row_coro env folder rows cur) with
             | Return r => Normal r
             | Raise e => Uncaught e
             | _ => Uncaught no_such_task
             end, m1)).
  { intros m1 ->. destruct (final _); done. }
  unfold await_task. rewrite Hc.
  destruct (is_done c) eqn:Hdone.
  - exists m. split; [by apply quiet_step_refl|].
    assert (Hm : tasks m !! cur = Some (final (row_coro env folder rows cur))).
    { rewrite Hc. f_equal. destruct Hst as [<- _].
      unfold final. by rewrite done_run_to_end. }
    split; [done|]. by apply Hres.
  - pose proof (suspend_quiet cs0 m Htasks) as Hq1.
    assert (Ht1 : Forall2 stage cs0 (tasks (suspend m))) by apply Hq1.
    pose proof (complete_quiet cs0 cur _ Ht1) as Hq2.
    destruct (Hfind _ Ht1) as (c1 & Hc1 & Hst1).
    exists (complete cur (suspend m)).
    split; [eapply quiet_step_trans; done|].
    assert (Hm : tasks (complete cur (suspend m)) !! cur =
                 Some (final (row_coro env folder rows cur))).
    { rewrite (complete_lookup _ _ _ Hc1). f_equal. apply Hst1. }
    split; [done|]. by apply Hres.
Qed.

Lemma consume_inv m m1 m2 l :
  inv m l -> Smart.pc l = Smart.Retrieve ->
  quiet_step
    (map (row_coro env folder rows) (seq 0 (Smart.next_index_to_prefetch l)))
    m m1 ->
  tasks m1 !! Smart.current_index l =
    Some (final (row_coro env folder rows (Smart.current_index l))) ->
  self m2 =
    consume (self m1) (row_outcome env folder rows (Smart.current_index l)) ->
  stdin m2 = stdin m1 -> tasks m2 = tasks m1 ->
  (exists evs, trace m2 = trace m1 ++ evs /\ created evs = [] /\
               delivered evs = [row_outcome env folder rows (Smart.current_index l)]) ->
  inv m2
    {| Smart.max_prefetch := Smart.max_prefetch l;
       Smart.initial_prefetch := Smart.initial_prefetch l;
       Smart.prefetched := delete (Smart.current_index l) (Smart.prefetched l);
       Smart.n_layers := Smart.n_layers l;
       Smart.next_index_to_prefetch := Smart.next_index_to_prefetch l;
       Smart.current_index := Smart.current_index l + 1;
       Smart.pc := Smart.Refill |}.
Proof.
  intros Hinv Hat Hq Hcur Es Ei Et (evs & Etr & Ec & Ed).
  pose proof (inv_quiet m m1 l Hinv Hq)
    as [Hmax Hini Htot Hdata Hfold Hbnd Hstore Hsize Hwin Htasks Hret Hself
          Hdel Hcre Hpc Hstdin].
  rewrite Hat in Hpc, Hstdin. destruct Hpc as [Hlt Hnext].
  destruct (consume_frame (self m1)
              (row_outcome env folder rows (Smart.current_index l)))
    as (Fd & Ff & _).
  split; simpl; try done; try lia.
  - by rewrite Es, Fd.
  - by rewrite Es, Ff.
  - intros i. destruct (decide (i = Smart.current_index l)) as [->|Hne].
    + rewrite lookup_delete_eq. case_decide; [lia|done].
    + rewrite lookup_delete_ne by done. rewrite Hstore.
      repeat case_decide; try done; lia.
  - rewrite map_size_delete_Some; [lia|].
    rewrite Hstore. case_decide; [done|lia].
  - by rewrite Et.
  - intros i Hi. rewrite Et.
    destruct (decide (i = Smart.current_index l)) as [->|Hne].
    + eexists. split; [exact Hcur|apply run_to_end_done].
    + apply Hret. lia.
  - by rewrite Es, Hself, foldl_consume_snoc.
  - rewrite Etr, delivered_app, Hdel, Ed, seq_app, map_app, <- app_assoc. done.
  - rewrite Etr, created_app, Hcre, Ec, app_nil_r. done.
  - rewrite Ei. simpl in Hstdin. rewrite Nat.add_0_r. done.
Qed.

Lemma retrieve_inv m l :
  inv m l -> Smart.pc l = Smart.Retrieve ->
  exists l', fst (Smart.retrieve l m) = Normal l' /\
             inv (snd (Smart.retrieve l m)) l' /\ potential l' < potential l.
Proof.
  intros Hinv Hat.
  destruct (await_spec m l Hinv Hat) as (m1 & Hq & Hcur & Hawait).
  pose proof (inv_quiet m m1 l Hinv Hq) as Hinv1.
  pose proof (inv_store _ _ _ _ _ _ _ Hinv (Smart.current_index l)) as Hst.
  pose proof (inv_pc _ _ _ _ _ _ _ Hinv) as Hpc. rewrite Hat in Hpc.
  destruct Hpc as [Hlt Hnext].
  rewrite decide_True in Hst by lia.
  assert (Hpot : forall store,
            potential
              {| Smart.max_prefetch := Smart.max_prefetch l;
                 Smart.initial_prefetch := Smart.initial_prefetch l;
                 Smart.prefetched := store;
                 Smart.n_layers := Smart.n_layers l;
                 Smart.next_index_to_prefetch := Smart.next_index_to_prefetch l;
                 Smart.current_index := Smart.current_index l + 1;
                 Smart.pc := Smart.Refill |} < potential l).
  { intros store. unfold potential. simpl.
    rewrite Hat, (inv_total _ _ _ _ _ _ _ Hinv). lia. }
  unfold Smart.retrieve. rewrite Hst.
  unfold bind, try_except. rewrite Hawait.
  pose proof (run_to_end_done (row_coro env folder rows (Smart.current_index l)))
    as Hdone.
  assert (Hro := eq_refl (row_outcome env folder rows (Smart.current_index l))).
  unfold row_outcome at 2 in Hro.
  destruct (final (row_coro env folder rows (Smart.current_index l)))
    as [[[n success] error]|e| |] eqn:Hfin; try discriminate Hdone.
  - destruct success.
    + assert (error = None) as ->
        by (eapply layer_coro_success; exact Hfin).
      unfold_m. simpl. eexists. split; [reflexivity|]. split; [|apply Hpot].
      eapply (consume_inv m m1); try done.
      * rewrite Hfin. exact Hcur.
      * rewrite Hro. done.
      * eexists. split; [done|]. rewrite Hro. done.
    + unfold_m. simpl. eexists. split; [reflexivity|]. split; [|apply Hpot].
      eapply (consume_inv m m1); try done.
      * rewrite Hfin. exact Hcur.
      * rewrite Hro. done.
      * eexists. split; [done|]. rewrite Hro. done.
  - unfold any_exception. unfold_m. cbv beta iota.
    rewrite (inv_data _ _ _ _ _ _ _ Hinv1).
    destruct (lookup_lt_is_Some_2 rows _ Hlt) as [layer Hlayer].
    unfold row in Hro. rewrite Hlayer in Hro. rewrite Hlayer. simpl.
    eexists. split; [reflexivity|]. split; [|apply Hpot].
    eapply (consume_inv m m1); try done.
    * rewrite Hfin. exact Hcur.
    * rewrite Hro. done.
    * eexists. split; [done|]. rewrite Hro. done.
Qed.

Lemma finished_dec (c : Smart.control) :
  {st | c = Smart.Finished st} + {forall st, c <> Smart.Finished st}.
Proof. destruct c; eauto; right; intros; discriminate. Qed.

(** One transition keeps the invariant and, unless the method is over,
    decreases the measure. *)
Lemma step_inv m l :
  inv m l ->
  inv (fst (Smart.step env (m, l))) (snd (Smart.step env (m, l))) /\
  ((forall st, Smart.pc l <> Smart.Finished st) ->
   potential (snd (Smart.step env (m, l))) < potential l).
Proof.
  intros Hinv. unfold Smart.step.
  destruct (Smart.pc l) eqn:Hat.
  - unfold Smart.step_body. rewrite Hat, (inv_initial _ _ _ _ _ _ _ Hinv).
    destruct (prefetch_loop_inv m l ifill Hinv) as (l' & E & Hi & Hp); [by left|].
    simpl in E, Hi.
    match type of E with fst ?x = _ => destruct x as [st m'] end.
    simpl in *. subst st. done.
  - destruct (prompt_inv m l Hinv Hat) as [(l' & E & Hi & Hp)|(e & E & Hi)];
      simpl in E, Hi;
      destruct (Smart.step_body env l m) as [st m']; simpl in *; subst st.
    + done.
    + split; [done|]. intros _. unfold potential. simpl. rewrite Hat. lia.
  - unfold Smart.step_body. rewrite Hat.
    destruct (retrieve_inv m l Hinv Hat) as (l' & E & Hi & Hp).
    destruct (Smart.retrieve l m) as [st m']. simpl in *. subst st. done.
  - unfold Smart.step_body. rewrite Hat, (inv_max _ _ _ _ _ _ _ Hinv).
    destruct (prefetch_loop_inv m l mw Hinv) as (l' & E & Hi & Hp); [by right|].
    simpl in E, Hi.
    match type of E with fst ?x = _ => destruct x as [st' m'] end.
    simpl in *. subst st'. done.
  - split; [done|]. intros H. by destruct (H st).
Qed.

#[local] Arguments Smart.step : simpl never.

Lemma steps_inv n m l :
  inv m l -> inv (fst (Smart.steps env n (m, l))) (snd (Smart.steps env n (m, l))).
Proof.
  revert m l. induction n as [|n IH]; intros m l Hinv; [done|].
  simpl. destruct (Smart.step env (m, l)) as [m' l'] eqn:E.
  apply IH. pose proof (step_inv m l Hinv) as [H _]. by rewrite E in H.
Qed.

(** The budget is enough: the method is over when the transitions are used up. *)
Lemma steps_finish n m l :
  inv m l -> potential l <= n ->
  exists st, Smart.pc (snd (Smart.steps env n (m, l))) = Smart.Finished st.
Proof.
  revert m l. induction n as [|n IH]; intros m l Hinv Hn.
  - simpl. unfold potential in Hn. destruct (Smart.pc l); eauto; lia.
  - simpl. destruct (finished_dec (Smart.pc l)) as [[st E]|Hrun].
    + assert (Hfix : forall k, Smart.steps env k (m, l) = (m, l)).
      { induction k as [|k IHk]; [done|]. simpl.
        unfold Smart.step at 1. rewrite E. exact IHk. }
      replace (Smart.step env (m, l)) with (m, l)
        by (unfold Smart.step; by rewrite E).
      rewrite Hfix. eauto.
    + pose proof (step_inv m l Hinv) as [Hi Hp]. specialize (Hp Hrun).
      destruct (Smart.step env (m, l)) as [m' l']. simpl in *.
      apply IH; [done|lia].
Qed.
End PrefetchInvariant.

(** ** Consequences for the prefetching supervised mode *)

Lemma in_flight_bound (ts : list (coro outcome)) k :
  (forall i, i < k -> exists c, ts !! i = Some c /\ is_done c = true) ->
  length (filter (fun c => is_done c = false) ts) <= length ts - k.
Proof.
  revert k. induction ts as [|c ts IH]; intros k Hk; [simpl; lia|].
  destruct k as [|k].
  - rewrite Nat.sub_0_r. apply length_filter.
  - destruct (Hk 0) as (c0 & Hc0 & Hdone); [lia|]. simpl in Hc0.
    injection Hc0 as ->.
    rewrite filter_cons_False by (rewrite Hdone; discriminate).
    simpl. apply IH. intros i Hi. apply (Hk (S i)). lia.
Qed.

Lemma inv_in_flight env mw ifill rows m0 m l :
  prefetch_inv env mw ifill rows m0 m l -> in_flight m <= mw.
Proof.
  intros Hinv. unfold in_flight.
  pose proof (in_flight_bound (tasks m) (Smart.current_index l)
                (inv_retired _ _ _ _ _ _ _ Hinv)) as Hb.
  pose proof (Forall2_length _ _ _ (inv_tasks _ _ _ _ _ _ _ Hinv)) as Hlen.
  rewrite length_map, length_seq in Hlen.
  pose proof (inv_window _ _ _ _ _ _ _ Hinv). lia.
Qed.

(** The method, run from a machine that holds the data frame [rows] and an
    empty event loop, ends, and the invariant holds where it ends. *)
Lemma supervised_run env mw ifill rows m :
  1 <= ifill <= mw ->
  csv_data (self m) = Some rows -> total_layers (self m) = length rows ->
  tasks m = [] ->
  exists l',
    prefetch_inv env mw ifill rows m
      (snd (Smart.supervised_mode_async_with mw ifill env m)) l' /\
    Smart.pc l' =
      Smart.Finished (fst (Smart.supervised_mode_async_with mw ifill env m)).
Proof.
  intros Hfill Hdata Htotal Htasks.
  pose proof (inv_entry env mw ifill rows m Hfill Hdata Htasks) as Hinv0.
  unfold Smart.supervised_mode_async_with. rewrite Htotal.
  pose proof (steps_inv env mw ifill rows m Hfill
                (Smart.budget (length rows)) m _ Hinv0) as Hinv.
  destruct (steps_finish env mw ifill rows m Hfill
              (Smart.budget (length rows)) m _ Hinv0) as [st Hst].
  { unfold potential, Smart.budget. simpl. lia. }
  destruct (Smart.steps env (Smart.budget (length rows))
              (m, Smart.entry mw ifill (length rows))) as [m' l'].
  simpl in *. rewrite Hst. simpl. eauto.
Qed.

(** C4. In the prefetching supervised mode, for all window sizes
    [1 <= initial_fill <= max_window] and every data frame, after any number
    of transitions: [current_index <= next_index_to_prefetch <= total], the
    store holds at most [max_window] entries, every key of the store lies in
    [[current_index, next_index_to_prefetch)], at most [max_window] tasks are
    running, and when the consumer is about to retrieve [current_index]
    (which is then below [total]) that index is in the store. *)
Theorem prefetch_window_invariant env max_window initial_fill rows m0 n :
  1 <= initial_fill <= max_window ->
  csv_data (self m0) = Some rows -> tasks m0 = [] ->
  let c := Smart.steps env n (m0, Smart.entry max_window initial_fill (length rows)) in
  let m := fst c in
  let l := snd c in
  Smart.current_index l <= Smart.next_index_to_prefetch l <= length rows /\
  size (Smart.prefetched l) <= max_window /\
  (forall i, is_Some (Smart.prefetched l !! i) ->
             Smart.current_index l <= i < Smart.next_index_to_prefetch l) /\
  in_flight m <= max_window /\
  (Smart.pc l = Smart.Retrieve ->
   Smart.current_index l < length rows /\
   is_Some (Smart.prefetched l !! Smart.current_index l)).
Proof.
  intros Hfill Hdata Htasks c m l.
  pose proof (inv_entry env max_window initial_fill rows m0 Hfill Hdata Htasks) as Hinv0.
  pose proof (steps_inv env max_window initial_fill rows m0 Hfill n m0 _ Hinv0)
    as Hinv.
  fold c in Hinv. fold m l in Hinv.
  pose proof (inv_in_flight _ _ _ _ _ _ _ Hinv) as Hfl.
  destruct Hinv as [Hmax Hini Htot _ _ Hbnd Hstore Hsize Hwin _ _ _ _ _ Hpc _].
  split; [lia|]. split; [lia|]. split; [|split; [lia|]].
  - intros i [x Hx]. rewrite Hstore in Hx. case_decide; [lia|discriminate].
  - intros Hat. rewrite Hat in Hpc. split; [lia|].
    rewrite Hstore, decide_True by lia. eauto.
Qed.

Lemma prefetch_window_invariant_witness :
  let c := Smart.steps sample_env 5 (sample_machine, Smart.entry 10 6 3) in
  Smart.current_index (snd c) <= Smart.next_index_to_prefetch (snd c) <= 3 /\
  size (Smart.prefetched (snd c)) <= 10 /\
  (forall i, is_Some (Smart.prefetched (snd c) !! i) ->
             Smart.current_index (snd c) <= i < Smart.next_index_to_prefetch (snd c)) /\
  in_flight (fst c) <= 10 /\
  (Smart.pc (snd c) = Smart.Retrieve ->
   Smart.current_index (snd c) < 3 /\
   is_Some (Smart.prefetched (snd c) !! Smart.current_index (snd c))).
Proof.
  apply (prefetch_window_invariant sample_env 10 6 sample_rows sample_machine 5);
    [lia | reflexivity | reflexivity].
Defined.

(** C9. With no rows, the prefetching supervised mode returns at once and
    leaves the machine as it found it: no prompt is shown, no task is
    created, nothing is read from the input; this holds for the window sizes
    of the source and for any others. *)
Theorem no_rows_no_work env m :
  total_layers (self m) = 0 ->
  Smart.supervised_mode_async env m = (Normal tt, m) /\
  forall max_window initial_fill,
    Smart.supervised_mode_async_with max_window initial_fill env m = (Normal tt, m).
Proof.
  intros Hzero. unfold Smart.supervised_mode_async.
  assert (H : forall mw ifill,
             Smart.supervised_mode_async_with mw ifill env m = (Normal tt, m)).
  { intros mw ifill. unfold Smart.supervised_mode_async_with.
    rewrite Hzero. reflexivity. }
  split; [apply H|exact H].
Qed.

Lemma no_rows_no_work_witness :
  Smart.supervised_mode_async sample_env empty_machine = (Normal tt, empty_machine) /\
  forall max_window initial_fill,
    Smart.supervised_mode_async_with max_window initial_fill sample_env empty_machine
    = (Normal tt, empty_machine).
Proof. apply (no_rows_no_work sample_env empty_machine). reflexivity. Defined.

(** ** From the command line to the mode *)

Lemma session_loaded env supervised automatic name folder mode_arg csv_file
    rows lines oracle :
  out_makedirs_res env = None -> read_csv env csv_file = inr rows ->
  session (run_with env supervised automatic) env name folder mode_arg csv_file
    (boot lines oracle)
  = ((if String.eqb (lower mode_arg) "supervised" then supervised
      else if String.eqb (lower mode_arg) "automatic" then automatic
      else print MsgInvalidMode ;; sys_exit 1) ;;
     generate_summary env)
      (loaded name folder mode_arg csv_file rows lines oracle).
Proof.
  intros Hdir Hcsv. unfold session, run_with, init, load_csv_data.
  unfold os_makedirs, attempt. rewrite Hdir, Hcsv. reflexivity.
Qed.

Lemma generate_summary_spec env m :
  fst (generate_summary env m) = Normal tt /\
  self (snd (generate_summary env m)) = self m /\
  exists evs,
    trace (snd (generate_summary env m)) = trace m ++ evs /\
    created evs = [] /\ delivered evs = [] /\ aborted evs = false.
Proof.
  unfold generate_summary. unfold_m. unfold any_exception.
  destruct (summary_res env), (chart_res env); simpl;
    (split; [reflexivity|]; split; [reflexivity|];
     eexists; rewrite <- !app_assoc; split; [reflexivity|done]).
Qed.

Lemma foldl_consume_counts outs p :
  successful_layers (foldl consume p outs) + failed_layers (foldl consume p outs)
  = successful_layers p + failed_layers p + length outs /\
  length (error_log (foldl consume p outs)) + failed_layers p
  = length (error_log p) + failed_layers (foldl consume p outs) /\
  total_layers (foldl consume p outs) = total_layers p.
Proof.
  revert p. induction outs as [|r outs IH]; intros p; simpl; [lia|].
  destruct (IH (consume p r)) as (H1 & H2 & H3). rewrite H1, H3.
  destruct r as [[n []] e]; simpl in *; rewrite ?length_app in *; simpl in *; lia.
Qed.

(** The prefetching supervised mode followed by the summary, from the
    loaded machine. *)
Lemma supervised_then_summary env name folder mode_arg csv_file rows lines oracle :
  let m1 := loaded name folder mode_arg csv_file rows lines oracle in
  let r := (Smart.supervised_mode_async env ;; generate_summary env) m1 in
  exists l' m2 st,
    prefetch_inv env 10 6 rows m1 m2 l' /\ Smart.pc l' = Smart.Finished st /\
    self (snd r) = self m2 /\ fst r = st /\
    exists evs, trace (snd r) = trace m2 ++ evs /\
                created evs = [] /\ delivered evs = [] /\ aborted evs = false.
Proof.
  intros m1 r.
  destruct (supervised_run env 10 6 rows m1) as (l' & Hinv & Hpc);
    [lia|reflexivity|reflexivity|reflexivity|].
  fold (Smart.supervised_mode_async env) in Hinv, Hpc.
  subst r. unfold bind.
  destruct (Smart.supervised_mode_async env m1) as [st m2]. simpl in Hinv, Hpc.
  exists l', m2, st. split; [done|]. split; [done|].
  destruct st as [[]|code|e].
  - destruct (generate_summary_spec env m2) as (Hok & Hself & Hev).
    split; [done|]. split; [done|]. exact Hev.
  - simpl. split; [done|]. split; [done|].
    exists []. by rewrite app_nil_r.
  - simpl. split; [done|]. split; [done|].
    exists []. by rewrite app_nil_r.
Qed.

(** C1. In supervised prefetching mode, whatever the data frame, the lines
    typed and the order in which the event loop runs the tasks: if the user
    confirms [k] times before quitting (or before the rows or the input run
    out), the outcomes delivered to the consumer are those of rows
    [0 .. k-1] in row order, each once; no row has two tasks created for it,
    tasks are created for rows of the data frame only, every delivered row
    had its task created, and the program ends by returning or by the end
    of the input at a prompt. *)
Theorem prefetch_delivers_in_row_order env name folder mode_arg csv_file rows
    lines oracle :
  lower mode_arg = "supervised" ->
  out_makedirs_res env = None -> read_csv env csv_file = inr rows ->
  let final :=
    snd (session (Smart.run env) env name folder mode_arg csv_file
           (boot lines oracle)) in
  let ended :=
    fst (session (Smart.run env) env name folder mode_arg csv_file
           (boot lines oracle)) in
  let k := Nat.min (confirmations lines) (length rows) in
  delivered (trace final) = map (row_outcome env folder rows) (seq 0 k) /\
  NoDup (created (trace final)) /\
  (forall i, i ∈ created (trace final) -> i < length rows) /\
  (forall i, i < k -> i ∈ created (trace final)) /\
  (ended = Normal tt \/ ended = Uncaught eof).
Proof.
  intros Hmode Hdir Hcsv final ended k. subst final ended. unfold Smart.run.
  rewrite (session_loaded _ _ _ _ _ _ _ rows) by done.
  rewrite Hmode. simpl String.eqb. cbv iota.
  destruct (supervised_then_summary env name folder mode_arg csv_file rows
              lines oracle)
    as (l' & m2 & st & Hinv & Hpc & _ & Hst & evs & Htr & Hc & Hd & _).
  rewrite Htr, delivered_app, created_app, Hc, Hd, !app_nil_r, Hst.
  destruct Hinv as [_ _ _ _ _ Hbnd _ _ _ _ _ _ Hdel Hcre Hfin _].
  rewrite Hpc in Hfin. destruct Hfin as [Hk Hend]. simpl in Hdel, Hcre, Hk.
  rewrite Hdel, Hcre, Hk. fold k in Hk. rewrite Hk in Hbnd.
  split; [done|]. split; [apply NoDup_seq|]. split; [|split].
  - intros i Hi. apply elem_of_seq in Hi. lia.
  - intros i Hi. apply elem_of_seq. lia.
  - destruct st as [[]|code|e]; [by left|done|right]. by destruct Hend as [-> _].
Qed.

Lemma prefetch_delivers_in_row_order_witness :
  let final :=
    snd (session (Smart.run sample_env) sample_env "job" "out" "Supervised"
           "layers.csv" (boot [""; ""; " Q "] [[2; 0]; [1]])) in
  let ended :=
    fst (session (Smart.run sample_env) sample_env "job" "out" "Supervised"
           "layers.csv" (boot [""; ""; " Q "] [[2; 0]; [1]])) in
  let k := Nat.min (confirmations [""; ""; " Q "]) (length sample_rows) in
  delivered (trace final) = map (row_outcome sample_env "out" sample_rows) (seq 0 k) /\
  NoDup (created (trace final)) /\
  (forall i, i ∈ created (trace final) -> i < length sample_rows) /\
  (forall i, i < k -> i ∈ created (trace final)) /\
  (ended = Normal tt \/ ended = Uncaught eof).
Proof.
  apply (prefetch_delivers_in_row_order sample_env "job" "out" "Supervised"
           "layers.csv" sample_rows [""; ""; " Q "] [[2; 0]; [1]]);
    reflexivity.
Defined.

(** C3. In supervised prefetching mode, if the user confirms [k] rows out of
    more and then answers 'q', the run goes on to its end (the summary) and
    the object it ends with is the object after loading with exactly the
    outcomes of rows [0 .. k-1] folded in: [successful_layers + failed_layers
    = k], one [error_log] entry per failed layer; this whatever the tasks in
    flight and the order of their turns (the oracle), and whatever is typed
    after the 'q'. *)
Theorem cancel_folds_exactly_k env name folder mode_arg csv_file rows
    confirms q rest oracle :
  lower mode_arg = "supervised" ->
  out_makedirs_res env = None -> read_csv env csv_file = inr rows ->
  Forall (fun line => is_quit line = false) confirms ->
  is_quit q = true -> length confirms < length rows ->
  let r := session (Smart.run env) env name folder mode_arg csv_file
             (boot (confirms ++ q :: rest) oracle) in
  let k := length confirms in
  fst r = Normal tt /\
  self (snd r) =
    foldl consume (fresh name folder mode_arg rows)
      (map (row_outcome env folder rows) (seq 0 k)) /\
  successful_layers (self (snd r)) + failed_layers (self (snd r)) = k /\
  length (error_log (self (snd r))) = failed_layers (self (snd r)) /\
  aborted (trace (snd r)) = true.
Proof.
  intros Hmode Hdir Hcsv Hconf Hq Hk r k. subst r. unfold Smart.run.
  rewrite (session_loaded _ _ _ _ _ _ _ rows) by done.
  rewrite Hmode. simpl String.eqb. cbv iota.
  destruct (supervised_then_summary env name folder mode_arg csv_file rows
              (confirms ++ q :: rest) oracle)
    as (l' & m2 & st & Hinv & Hpc & Hself & Hst & evs & Htr & _ & _ & _).
  destruct Hinv as [_ _ _ _ _ _ _ _ _ _ _ Hfold _ _ Hfin _].
  rewrite Hpc in Hfin. simpl in Hfin, Hfold.
  assert (Hcount : confirmations (confirms ++ q :: rest) = k).
  { rewrite confirmations_app by done. simpl. rewrite Hq. lia. }
  rewrite Hcount in Hfin. destruct Hfin as [Hcur Hend].
  rewrite Nat.min_l in Hcur by lia.
  assert (Hnormal : st = Normal tt /\ aborted (trace m2) = true).
  { destruct st as [[]|code|e]; [|done|].
    - split; [done|]. destruct Hend as [Hall|Hab]; [lia|done].
    - destruct Hend as (_ & Hlen & _).
      rewrite length_app in Hlen. simpl in Hlen. lia. }
  destruct Hnormal as [-> Hab].
  rewrite Hself, Hfold, Hcur, Htr, aborted_app, Hab.
  split; [exact Hst|]. split; [done|].
  destruct (foldl_consume_counts
              (map (row_outcome env folder rows) (seq 0 k))
              (fresh name folder mode_arg rows)) as (H1 & H2 & _).
  fold (fresh name folder mode_arg rows).
  rewrite length_map, length_seq in H1. simpl in H1, H2.
  split; [lia|]. split; [lia|done].
Qed.

Lemma cancel_folds_exactly_k_witness :
  let r := session (Smart.run sample_env) sample_env "job" "out" "supervised"
             "layers.csv" (boot ([""; ""] ++ "q" :: ["later"]) [[2; 0]; [1]]) in
  let k := length [""; ""] in
  fst r = Normal tt /\
  self (snd r) =
    foldl consume (fresh "job" "out" "supervised" sample_rows)
      (map (row_outcome sample_env "out" sample_rows) (seq 0 k)) /\
  successful_layers (self (snd r)) + failed_layers (self (snd r)) = k /\
  length (error_log (self (snd r))) = failed_layers (self (snd r)) /\
  aborted (trace (snd r)) = true.
Proof.
  apply (cancel_folds_exactly_k sample_env "job" "out" "supervised" "layers.csv"
           sample_rows [""; ""] "q" ["later"] [[2; 0]; [1]]);
    try reflexivity; [repeat constructor | simpl; lia].
Defined.

(** ** Mode selection *)

(** C10. At [run], mode selection is case-insensitive: for a mode string
    whose lowercasing is "supervised" or "automatic" (the constructor stores
    the lowercased string and [run] compares that), constructing the object
    and running it is exactly: construct, load the data frame, run the
    corresponding mode, write the summary; the branch that prints the
    invalid-mode message and exits is not taken. *)
Theorem mode_selection_case_insensitive env name folder mode_arg csv_file m :
  lower mode_arg = "supervised" \/ lower mode_arg = "automatic" ->
  session (Smart.run env) env name folder mode_arg csv_file m
  = (init env name folder mode_arg ;;
     load_csv_data env csv_file ;;
     (if String.eqb (lower mode_arg) "supervised"
      then Smart.supervised_mode_async env
      else Smart.automatic_mode_async env) ;;
     generate_summary env) m.
Proof.
  intros Hmode. unfold session, Smart.run, run_with, init, load_csv_data.
  unfold os_makedirs, attempt.
  destruct (out_makedirs_res env) as [e|]; [reflexivity|].
  destruct (read_csv env csv_file) as [e|rows]; [reflexivity|].
  unfold_m. unfold any_exception. cbv beta iota. simpl mode.
  destruct Hmode as [-> | ->]; reflexivity.
Qed.

Lemma mode_selection_case_insensitive_witness :
  session (Smart.run sample_env) sample_env "job" "out" "AUTOMATIC" "layers.csv"
    (boot [] [[2; 1; 0]])
  = (init sample_env "job" "out" "AUTOMATIC" ;;
     load_csv_data sample_env "layers.csv" ;;
     (if String.eqb (lower "AUTOMATIC") "supervised"
      then Smart.supervised_mode_async sample_env
      else Smart.automatic_mode_async sample_env) ;;
     generate_summary sample_env) (boot [] [[2; 1; 0]]).
Proof.
  apply (mode_selection_case_insensitive sample_env "job" "out" "AUTOMATIC"
           "layers.csv" (boot [] [[2; 1; 0]])).
  right. reflexivity.
Defined.

Lemma run_with_invalid_mode env supervised automatic csv_file m :
  mode (self m) <> "supervised" -> mode (self m) <> "automatic" ->
  exits_before_work m (run_with env supervised automatic csv_file m).
Proof.
  intros Hs Ha. apply String.eqb_neq in Hs, Ha.
  unfold exits_before_work, run_with, load_csv_data. unfold_m.
  unfold any_exception.
  destruct (read_csv env csv_file) as [e|rows]; simpl.
  - repeat split; try reflexivity. exists [MsgErrorLoading (exn_msg e)]. done.
  - rewrite Hs, Ha. simpl. repeat split; try reflexivity.
    exists [MsgLoaded (length rows) csv_file; MsgInvalidMode].
    simpl. by rewrite <- app_assoc.
Qed.

(** C8. When the mode held by the object is neither "supervised" nor
    "automatic", [run] (of each of the three drivers) ends in [sys.exit(1)]:
    a non-zero status; before that only console messages were produced, so
    no row was processed, no layer artifact written, no summary generated
    and the counters are as they were. *)
Theorem invalid_mode_exits env csv_file m :
  mode (self m) <> "supervised" -> mode (self m) <> "automatic" ->
  exits_before_work m (Normal.run env csv_file m) /\
  exits_before_work m (Multi.run env csv_file m) /\
  exits_before_work m (Smart.run env csv_file m).
Proof.
  intros Hs Ha. split; [|split]; apply run_with_invalid_mode; done.
Qed.

(** ** Where the artifacts go *)

Lemma chars_app s t : chars (s +:+ t) = chars s ++ chars t.
Proof. induction s as [|c s IH]; simpl; [done|]. by rewrite IH. Qed.

Lemma chars_inj s t : chars s = chars t -> s = t.
Proof.
  intros H. rewrite <- (String.string_of_list_ascii_of_string s),
    <- (String.string_of_list_ascii_of_string t).
  unfold chars in H. by rewrite H.
Qed.

Lemma append_assoc s t u : (s +:+ t) +:+ u = s +:+ t +:+ u.
Proof. apply chars_inj. by rewrite !chars_app, app_assoc. Qed.

Lemma ends_with_slash_app s t :
  t <> "" -> ends_with_slash (s +:+ t) = ends_with_slash t.
Proof.
  intros Ht. induction s as [|c s IH]; [done|].
  simpl. rewrite IH. destruct (s +:+ t) eqn:E; [|done].
  destruct s; simpl in E; [done|discriminate].
Qed.

Lemma has_slash_ends s : has_slash s = false -> ends_with_slash s = false.
Proof.
  induction s as [|c s IH]; [done|]. simpl. intros H.
  apply orb_false_iff in H as [Hc Hs]. destruct s; [done|]. by apply IH.
Qed.

Lemma join_relative a b :
  starts_with_slash b = false -> path_join a b = join_prefix a +:+ b.
Proof.
  intros Hb. unfold path_join, join_prefix. rewrite Hb.
  destruct (String.eqb a "" || ends_with_slash a); [done|].
  by rewrite append_assoc.
Qed.

Lemma layer_paths folder layer :
  has_slash (layer_name layer) = false ->
  data_file_of folder layer =
    join_prefix folder +:+ "layer_" +:+ layer_name layer +:+ "/layer_data.txt" /\
  image_file_of folder layer =
    join_prefix folder +:+ "layer_" +:+ layer_name layer +:+ "/layer_"
    +:+ layer_name layer +:+ ".png".
Proof.
  intros Hn. unfold data_file_of, image_file_of.
  set (n := layer_name layer) in *.
  rewrite (join_relative folder ("layer_" +:+ n)) by done.
  assert (Hp : join_prefix (join_prefix folder +:+ "layer_" +:+ n) =
               join_prefix folder +:+ "layer_" +:+ n +:+ "/").
  { unfold join_prefix at 1.
    rewrite ends_with_slash_app by (simpl; discriminate).
    assert (ends_with_slash ("layer_" +:+ n) = false) as ->.
    { destruct n as [|c n]; [done|].
      change ("layer_" +:+ String c n) with ("layer_" +:+ (String c n)).
      rewrite (ends_with_slash_app "layer_" (String c n)) by discriminate.
      by apply has_slash_ends. }
    rewrite orb_false_r.
    assert (String.eqb (join_prefix folder +:+ "layer_" +:+ n) "" = false) as ->.
    { apply String.eqb_neq. intros E. apply (f_equal chars) in E.
      rewrite chars_app in E. apply app_eq_nil in E as [_ E]. discriminate. }
    by rewrite !append_assoc. }
  rewrite !join_relative by done. rewrite Hp.
  rewrite !append_assoc. done.
Qed.

(** The files a layer task writes are the row's data file and image file. *)
Lemma layer_coro_writes csv_msg folder layer io :
  Forall (fun ev =>
            match ev with
            | EvWriteText p _ _ => p = data_file_of folder layer
            | EvWriteBytes p _ _ => p = image_file_of folder layer
            | _ => True
            end)
    (remaining (layer_coro csv_msg folder layer io)).
Proof.
  unfold remaining, layer_coro, data_file_of, image_file_of, layer_name.
  layer_cases io; repeat (constructor; try done).
Qed.

(** C7, as stated, fails: two different rows that carry the same layer
    number get the same data file and the same image file. *)
Lemma shared_layer_number_collides :
  twin_a <> twin_b /\
  data_file_of "out" twin_a = data_file_of "out" twin_b /\
  image_file_of "out" twin_a = image_file_of "out" twin_b /\
  data_file_of "out" twin_a = "out/layer_7/layer_data.txt" /\
  image_file_of "out" twin_a = "out/layer_7/layer_7.png".
Proof. repeat split; try reflexivity. discriminate. Qed.

(** C7, amended. The artifact locations are keyed by the layer number, not
    by the row: for two rows whose layer numbers print differently and hold
    no '/', the data files differ, the image files differ, and no data file
    is the other row's image file; and the files a layer task writes are
    exactly these two. *)
Theorem distinct_layer_numbers_distinct_paths folder layer1 layer2 :
  layer_name layer1 <> layer_name layer2 ->
  has_slash (layer_name layer1) = false ->
  has_slash (layer_name layer2) = false ->
  data_file_of folder layer1 <> data_file_of folder layer2 /\
  image_file_of folder layer1 <> image_file_of folder layer2 /\
  data_file_of folder layer1 <> image_file_of folder layer2 /\
  image_file_of folder layer1 <> data_file_of folder layer2 /\
  forall io,
    Forall (fun ev =>
              match ev with
              | EvWriteText p _ _ => p = data_file_of folder layer1
              | EvWriteBytes p _ _ => p = image_file_of folder layer1
              | _ => True
              end)
      (remaining (Smart.fetch_layer_supervised folder layer1 io)).
Proof.
  intros Hne H1 H2.
  destruct (layer_paths folder layer1 H1) as [Hd1 Hi1].
  destruct (layer_paths folder layer2 H2) as [Hd2 Hi2].
  assert (Hw := fun io => layer_coro_writes MsgHasCsvError folder layer1 io).
  split; [|split; [|split; [|split; [|exact Hw]]]]; clear Hw;
    rewrite ?Hd1, ?Hd2, ?Hi1, ?Hi2;
    set (n1 := layer_name layer1) in *; set (n2 := layer_name layer2) in *;
    set (P := join_prefix folder).
  - intros E. apply String.app_inj in E. apply String.app_inj in E.
    apply (f_equal chars) in E. rewrite !chars_app in E.
    apply app_inv_tail in E. apply chars_inj in E. done.
  - intros E. apply String.app_inj in E. apply String.app_inj in E.
    apply (f_equal chars) in E. rewrite !chars_app in E.
    assert (Hlen : length (chars n1) = length (chars n2)).
    { apply (f_equal length) in E. rewrite !length_app in E. simpl in E. lia. }
    apply app_inj_1 in E as [E _]; [|done]. apply chars_inj in E. done.
  - intros E. apply (f_equal chars) in E. rewrite !chars_app in E.
    change (chars "/layer_data.txt") with (chars "/layer_data" ++ chars ".txt") in E.
    rewrite !app_assoc in E.
    apply app_inj_2 in E as [_ E]; [discriminate|done].
  - intros E. apply (f_equal chars) in E. rewrite !chars_app in E.
    change (chars "/layer_data.txt") with (chars "/layer_data" ++ chars ".txt") in E.
    rewrite !app_assoc in E.
    apply app_inj_2 in E as [_ E]; [discriminate|done].
Qed.

Lemma distinct_layer_numbers_distinct_paths_witness :
  data_file_of "out" (row sample_rows 0) <> data_file_of "out" (row sample_rows 2) /\
  image_file_of "out" (row sample_rows 0) <> image_file_of "out" (row sample_rows 2) /\
  data_file_of "out" (row sample_rows 0) <> image_file_of "out" (row sample_rows 2) /\
  image_file_of "out" (row sample_rows 0) <> data_file_of "out" (row sample_rows 2) /\
  forall io,
    Forall (fun ev =>
              match ev with
              | EvWriteText p _ _ => p = data_file_of "out" (row sample_rows 0)
              | EvWriteBytes p _ _ => p = image_file_of "out" (row sample_rows 0)
              | _ => True
              end)
      (remaining (Smart.fetch_layer_supervised "out" (row sample_rows 0) io)).
Proof.
  apply (distinct_layer_numbers_distinct_paths "out" (row sample_rows 0)
           (row sample_rows 2)); [vm_compute; discriminate | reflexivity | reflexivity].
Defined.

(** ** The outcome of one layer *)






Lemma layer_coro_inherent_error csv_msg :
  inherent_error_after_io (layer_coro csv_msg).
Proof.
  intros folder layer io n x. unfold final, remaining, layer_coro, data_file_of,
    image_file_of, layer_name.
  layer_cases io; intros H; try discriminate H; injection H as _ Hx;
    try discriminate Hx; subst x.
  - split; [done|]. split; [done|].
    split; [repeat (first [left; reflexivity | right])|].
    split; [|done]. intros _. eexists. split; [done|]. split; [done|].
    split; repeat (first [left; reflexivity | right]).
  - split; [done|]. split; [done|].
    split; [repeat (first [left; reflexivity | right])|].
    split; [|done]. intros Hurl. discriminate Hurl.
Qed.

(** C6, as stated, fails in the sequential automatic mode: the third row of
    the sample has the inherent error "Nozzle Jam"; it is logged as failed
    with that text, and nothing was done for it before: its data file was
    not written (the first row's was) and its image was not requested. *)
Lemma inherent_error_logged_without_io :
  let r := session (Normal.run sample_env) sample_env "job" "out" "automatic"
             "layers.csv" (boot [] []) in
  fst r = Normal tt /\
  failed_layers (self (snd r)) = 1 /\
  error_log (self (snd r)) = ["Layer 3: Nozzle Jam"] /\
  data_file_of "out" (row sample_rows 2) = "out/layer_3/layer_data.txt" /\
  persisted "out/layer_3/layer_data.txt" (trace (snd r)) = false /\
  persisted "out/layer_1/layer_data.txt" (trace (snd r)) = true /\
  ~ In (EvHttpGet (PStr "http://host/3.png") true) (trace (snd r)).
Proof.
  vm_compute. repeat split; try reflexivity.
  intros H. repeat (destruct H as [H|H]; [discriminate H|]). exact H.
Qed.

(** C6, amended. For the layer coroutines ([fetch_layer_supervised],
    [print_layer_async]): when the outcome is the inherent-data error, the
    record's folder was made and its data written, the image, when there is
    one, was fetched and written, and the message ends with the original
    value of the "Error" column.  In the sequential automatic mode of
    [normal_driver.py] a row with an inherent error is logged with that
    original value and counted as failed without any I/O for it. *)
Theorem inherent_error_after_successful_io :
  inherent_error_after_io Smart.fetch_layer_supervised /\
  inherent_error_after_io Multi.print_layer_async /\
  forall env index layer m,
    let n := series_get layer "Layer Number" (PStr "unknown") in
    let err := series_get layer "Error" (PStr "SUCCESS") in
    py_ne err (PStr "SUCCESS") = true ->
    let r := Normal.automatic_rows env [(index, layer)] m in
    fst r = Normal tt /\
    trace (snd r) = trace m ++ [EvPrint (MsgErrorLogging n err); EvSleep] /\
    successful_layers (self (snd r)) = successful_layers (self m) /\
    failed_layers (self (snd r)) = failed_layers (self m) + 1 /\
    error_log (self (snd r)) =
      error_log (self m) ++ ["Layer " +:+ py_str n +:+ ": " +:+ py_str err].
Proof.
  split; [apply layer_coro_inherent_error|].
  split; [apply layer_coro_inherent_error|].
  intros env index layer m n err Herr r. subst r n err.
  unfold Normal.automatic_rows. rewrite Herr. unfold_m. simpl.
  rewrite <- app_assoc. done.
Qed.

Lemma inherent_error_after_successful_io_witness :
  let r := Normal.automatic_rows sample_env [(2, row sample_rows 2)] sample_machine in
  fst r = Normal tt /\
  trace (snd r) =
    trace sample_machine ++
    [EvPrint (MsgErrorLogging (PInt 3) (PStr "Nozzle Jam")); EvSleep] /\
  successful_layers (self (snd r)) = successful_layers (self sample_machine) /\
  failed_layers (self (snd r)) = failed_layers (self sample_machine) + 1 /\
  error_log (self (snd r)) =
    error_log (self sample_machine) ++ ["Layer 3: Nozzle Jam"].
Proof.
  apply (proj2 (proj2 inherent_error_after_successful_io) sample_env 2
           (row sample_rows 2) sample_machine).
  reflexivity.
Defined.

(** ** The counters never pass the number of rows *)

Lemma print_layer_sync_row_ok env catches no_image :
  row_ok (print_layer_sync env catches no_image).
Proof.
  intros index layer m. unfold print_layer_sync, done_count. unfold_m.
  destruct (makedirs_res _); simpl; [repeat split; try lia; discriminate|].
  destruct (write_data_res _); simpl; [repeat split; lia|].
  destruct (truthy _); simpl; [|repeat split; lia].
  destruct (http_res _) as [e|content]; simpl.
  - destruct (catches e); simpl; repeat split; try lia; discriminate.
  - destruct (write_image_res _) as [e|]; simpl; [|repeat split; lia].
    destruct (catches e); simpl; repeat split; try lia; discriminate.
Qed.

Lemma enumerate_from_length {A} i (l : list A) :
  length (enumerate_from i l) = length l.
Proof. revert i. induction l as [|x l IH]; intros i; simpl; [done|]. by rewrite IH. Qed.

Section SequentialLoops.
Context (process : nat -> Series -> M unit) (choice_prompt : msg).
Hypothesis process_ok : row_ok process.

Lemma supervised_rows_counts rows m :
  let r := supervised_rows process choice_prompt rows m in
  total_layers (self (snd r)) = total_layers (self m) /\
  done_count (snd r) <= done_count m + length rows /\
  (fst r = Normal tt -> aborted (trace (snd r)) = false ->
   done_count (snd r) = done_count m + length rows).
Proof.
  revert m. induction rows as [|[index layer] rest IH]; intros m.
  { simpl. repeat split; lia. }
  cbn [supervised_rows length]. unfold_m. unfold done_count in *.
  destruct (stdin m) as [|line lines]; simpl.
  { repeat split; try lia; discriminate. }
  destruct (String.eqb (lower (strip line)) "q"); simpl.
  { split; [done|]. split; [lia|]. intros _ Hab.
    rewrite aborted_app in Hab. simpl in Hab. by rewrite orb_true_r in Hab. }
  set (after := fun (m1 : machine) =>
    match process index layer m1 with
    | (Normal _, m2) => supervised_rows process choice_prompt rest m2
    | (SysExit code, m2) => (SysExit code, m2)
    | (Uncaught e, m2) => (Uncaught e, m2)
    end).
  assert (Hafter : forall m1,
            total_layers (self (snd (after m1))) = total_layers (self m1) /\
            successful_layers (self (snd (after m1)))
            + failed_layers (self (snd (after m1)))
            <= successful_layers (self m1) + failed_layers (self m1)
               + S (length rest) /\
            (fst (after m1) = Normal tt ->
             aborted (trace (snd (after m1))) = false ->
             successful_layers (self (snd (after m1)))
             + failed_layers (self (snd (after m1)))
             = successful_layers (self m1) + failed_layers (self m1)
               + S (length rest))).
  { intros m1. subst after. cbv beta.
    pose proof (process_ok index layer m1) as (Ht & Hle & Heq).
    unfold done_count in *.
    destruct (process index layer m1) as [[[]|code|e] m2]; simpl in *.
    - specialize (Heq eq_refl). destruct (IH m2) as (Ht2 & Hle2 & Heq2).
      split; [congruence|]. split; [lia|]. intros Hn Hab.
      specialize (Heq2 Hn Hab). lia.
    - repeat split; try lia; discriminate.
    - repeat split; try lia; discriminate. }
  destruct (py_ne _ _); simpl.
  - destruct lines as [|line' lines']; simpl.
    { repeat split; try lia; discriminate. }
    destruct (String.eqb (lower (strip line')) "e"); simpl.
    + split; [done|]. split; [lia|]. intros _ Hab.
      rewrite aborted_app in Hab. simpl in Hab. by rewrite orb_true_r in Hab.
    + match goal with
      | |- context [after ?m1] => pose proof (Hafter m1) as H
      end.
      subst after. simpl in H |- *. exact H.
  - match goal with
    | |- context [after ?m1] => pose proof (Hafter m1) as H
    end.
    subst after. simpl in H |- *. exact H.
Qed.

Lemma supervised_mode_sync_ok : mode_ok (supervised_mode_sync process choice_prompt).
Proof.
  intros m rows Hdata Htotal _. unfold supervised_mode_sync. unfold_m.
  rewrite Hdata. cbv beta iota.
  pose proof (supervised_rows_counts (enumerate_from 0 rows) m) as H.
  rewrite enumerate_from_length, Htotal in H. exact H.
Qed.
End SequentialLoops.

Lemma automatic_rows_counts env rows m :
  let r := Normal.automatic_rows env rows m in
  total_layers (self (snd r)) = total_layers (self m) /\
  done_count (snd r) <= done_count m + length rows /\
  (fst r = Normal tt -> done_count (snd r) = done_count m + length rows).
Proof.
  revert m. induction rows as [|[index layer] rest IH]; intros m.
  { simpl. repeat split; lia. }
  cbn [Normal.automatic_rows length].
  set (row_step :=
         if py_ne (series_get layer "Error" (PStr "SUCCESS")) (PStr "SUCCESS")
         then _ else _).
  assert (Hstep : row_ok (fun _ _ => row_step)).
  { subst row_step. intros i l' m1. destruct (py_ne _ _).
    - unfold done_count. unfold_m. simpl. split; [done|]. split; [lia|]. intros _. lia.
    - apply (print_layer_sync_row_ok env is_request_exception MsgNoImageSkipping
               index layer m1). }
  pose proof (Hstep index layer m) as (Ht & Hle & Heq). cbv beta in Ht, Hle, Heq.
  unfold bind.
  destruct (row_step m) as [[[]|code|e] m1]; simpl in *.
  - specialize (Heq eq_refl). unfold_m. cbv beta iota.
    match goal with
    | |- context [Normal.automatic_rows env rest ?m2] =>
        destruct (IH m2) as (Ht2 & Hle2 & Heq2)
    end.
    unfold done_count in *. simpl in *.
    split; [congruence|]. split; [lia|]. intros Hn. specialize (Heq2 Hn). lia.
  - repeat split; try lia; discriminate.
  - repeat split; try lia; discriminate.
Qed.

Lemma automatic_mode_ok env : mode_ok (Normal.automatic_mode env).
Proof.
  intros m rows Hdata Htotal _. unfold Normal.automatic_mode. unfold_m.
  rewrite Hdata. cbv beta iota.
  pose proof (automatic_rows_counts env (enumerate_from 0 rows) m) as H.
  rewrite enumerate_from_length, Htotal in H.
  destruct H as (H1 & H2 & H3). split; [done|]. split; [done|]. auto.
Qed.

(** [gather] leaves the object alone and, when it returns, returns one result
    per coroutine. *)
Lemma advance_self id m : self (advance id m) = self m.
Proof. unfold advance. destruct (tasks m !! id); [|done]. by destruct (slice c). Qed.

Lemma complete_self id m : self (complete id m) = self m.
Proof.
  unfold complete. destruct (tasks m !! id); [|done]. by destruct (run_to_end c).
Qed.

Lemma gather_turns_self ids m : self (snd (gather_turns ids m)) = self m.
Proof.
  revert m. induction ids as [|id ids IH]; intros m; simpl; [done|].
  destruct (tasks (advance id m) !! id) as [[]|];
    simpl; rewrite ?IH; apply advance_self.
Qed.

Lemma gather_finish_spec ids m :
  self (snd (gather_finish ids m)) = self m /\
  forall rs, fst (gather_finish ids m) = Normal rs -> length rs = length ids.
Proof.
  revert m. induction ids as [|id ids IH]; intros m; simpl.
  { split; [done|]. intros rs [= <-]. done. }
  destruct (IH (complete id m)) as [Hs Hl].
  destruct (tasks (complete id m) !! id) as [[r|e| |]|]; simpl;
    try (split; [apply complete_self|discriminate]).
  destruct (gather_finish ids (complete id m)) as [[rs|code|e] m'']; simpl in *.
  - split; [by rewrite Hs, complete_self|]. intros rs' [= <-]. simpl.
    f_equal. by apply Hl.
  - split; [by rewrite Hs, complete_self|discriminate].
  - split; [by rewrite Hs, complete_self|discriminate].
Qed.

Lemma gather_spec cs m :
  self (snd (gather cs m)) = self m /\
  forall rs, fst (gather cs m) = Normal rs -> length rs = length cs.
Proof.
  unfold gather.
  pose proof (gather_turns_self (hd [] (sched (with_tasks (fun ts => ts ++ cs) m)))
                (with_sched tl (with_tasks (fun ts => ts ++ cs) m))) as Hs.
  destruct (gather_turns _ _) as [[e|] m2]; simpl in *.
  - split; [done|discriminate].
  - destruct (gather_finish_spec (seq (length (tasks m)) (length cs)) m2)
      as [Hs2 Hl].
    split; [congruence|]. intros rs Hrs. rewrite (Hl rs Hrs). apply length_seq.
Qed.

Lemma fold_results_counts results m :
  let r := fold_results results m in
  fst r = Normal tt /\
  total_layers (self (snd r)) = total_layers (self m) /\
  done_count (snd r) = done_count m + length results.
Proof.
  revert m. induction results as [|[[n success] error] rest IH]; intros m.
  { simpl. repeat split; unfold done_count; lia. }
  cbn [fold_results length]. unfold_m. cbv beta iota.
  destruct success; simpl;
    match goal with
    | |- context [fold_results rest ?m2] => destruct (IH m2) as (H1 & H2 & H3)
    end;
    unfold done_count in *; simpl in *; repeat split; try done; lia.
Qed.

Lemma automatic_mode_gather_ok env csv_msg : mode_ok (automatic_mode_gather env csv_msg).
Proof.
  intros m rows Hdata Htotal _. unfold automatic_mode_gather.
  unfold iterrows, get_self, bind, ret.
  rewrite Hdata. cbv beta iota.
  match goal with
  | |- context [gather ?cs m] =>
      destruct (gather_spec cs m) as [Hs Hl];
      destruct (gather cs m) as [[rs|code|e] m1]
  end; simpl in *.
  - specialize (Hl rs eq_refl).
    rewrite length_map, enumerate_from_length in Hl.
    destruct (fold_results_counts rs m1) as (H1 & H2 & H3).
    unfold done_count in *. rewrite Hs in *.
    split; [congruence|]. split; [lia|]. intros _ _. lia.
  - unfold done_count. rewrite Hs. repeat split; try lia; discriminate.
  - unfold done_count. rewrite Hs. repeat split; try lia; discriminate.
Qed.

Lemma supervised_mode_async_ok env : mode_ok (Smart.supervised_mode_async env).
Proof.
  intros m rows Hdata Htotal Htasks.
  destruct (supervised_run env 10 6 rows m) as (l' & Hinv & Hpc); try done; [lia|].
  fold (Smart.supervised_mode_async env) in Hinv, Hpc.
  destruct (Smart.supervised_mode_async env m) as [st m2]. simpl in *.
  destruct Hinv as [_ _ _ _ _ Hbnd _ _ _ _ _ Hself _ _ Hfin _].
  rewrite Hpc in Hfin.
  destruct (foldl_consume_counts
              (map (row_outcome env (output_folder (self m)) rows)
                 (seq 0 (Smart.current_index l'))) (self m)) as (H1 & _ & H3).
  rewrite <- Hself, length_map, length_seq in H1. rewrite <- Hself in H3.
  unfold done_count. split; [congruence|]. split; [lia|].
  intros -> Hab. destruct Hfin as [_ [Hall|Habt]]; [lia|congruence].
Qed.

Lemma mode_then_summary env act name folder mode_arg csv_file rows lines oracle :
  mode_ok act ->
  counts_ok ((act ;; generate_summary env)
               (loaded name folder mode_arg csv_file rows lines oracle)).
Proof.
  intros Hok.
  set (m1 := loaded name folder mode_arg csv_file rows lines oracle).
  destruct (Hok m1 rows) as (Ht & Hle & Heq); try reflexivity.
  unfold counts_ok, bind.
  destruct (act m1) as [[[]|code|e] m2]; simpl in *.
  - destruct (generate_summary_spec env m2) as (Hn & Hs & evs & Htr & _ & _ & _).
    unfold done_count in *. rewrite Hs, Htr, Ht.
    split; [lia|]. intros _ Hab. rewrite aborted_app in Hab.
    apply orb_false_iff in Hab as [Hab _]. specialize (Heq eq_refl Hab). lia.
  - unfold done_count in *. rewrite Ht. split; [lia|discriminate].
  - unfold done_count in *. rewrite Ht. split; [lia|discriminate].
Qed.

Lemma session_counts env supervised automatic name folder mode_arg csv_file
    lines oracle :
  mode_ok supervised -> mode_ok automatic ->
  counts_ok (session (run_with env supervised automatic) env name folder
               mode_arg csv_file (boot lines oracle)).
Proof.
  intros Hs Ha.
  destruct (out_makedirs_res env) as [e|] eqn:Hdir.
  { unfold session, init, os_makedirs, attempt. rewrite Hdir.
    unfold counts_ok, done_count. simpl. split; [lia|discriminate]. }
  destruct (read_csv env csv_file) as [e|rows] eqn:Hcsv.
  { unfold session, init, run_with, load_csv_data, os_makedirs, attempt.
    rewrite Hdir, Hcsv. unfold counts_ok, done_count. simpl.
    split; [lia|discriminate]. }
  rewrite (session_loaded _ _ _ _ _ _ _ rows) by done.
  destruct (String.eqb (lower mode_arg) "supervised");
    [by apply mode_then_summary|].
  destruct (String.eqb (lower mode_arg) "automatic");
    [by apply mode_then_summary|].
  unfold counts_ok, done_count. simpl. split; [lia|discriminate].
Qed.

(** The three rows of the sample, all confirmed, in the prefetching mode:
    the program returns, prints no abort message, and counts three rows. *)
Example counters_sample :
  let r := session (Smart.run sample_env) sample_env "job" "out" "supervised"
             "layers.csv" (boot [""; ""; ""] [[0; 1]; [2; 2; 2]]) in
  fst r = Normal tt /\ aborted (trace (snd r)) = false /\
  successful_layers (self (snd r)) = 2 /\ failed_layers (self (snd r)) = 1 /\
  error_log (self (snd r)) = ["Layer 3: Inherent CSV error: Nozzle Jam"] /\
  total_layers (self (snd r)) = 3.
Proof. vm_compute. repeat split; reflexivity. Qed.

Lemma invalid_mode_exits_witness :
  exits_before_work manual_machine (Normal.run sample_env "layers.csv" manual_machine) /\
  exits_before_work manual_machine (Multi.run sample_env "layers.csv" manual_machine) /\
  exits_before_work manual_machine (Smart.run sample_env "layers.csv" manual_machine).
Proof.
  apply (invalid_mode_exits sample_env "layers.csv" manual_machine);
    simpl; discriminate.
Defined.


#[local] Arguments Smart.step : simpl never.

(** ** Further properties: loading, summary, the synchronous processor *)

(** X1. When the CSV file cannot be read, [run] of each driver prints the
    load error and exits with status 1, whatever the mode held by the
    object; nothing else happens: the object, the input and the event loop
    are as before. *)
Theorem load_failure_exits env csv_file m e :
  read_csv env csv_file = inl e ->
  let m' := with_trace (fun tr => tr ++ [EvPrint (MsgErrorLoading (exn_msg e))]) m in
  Normal.run env csv_file m = (SysExit 1, m') /\
  Multi.run env csv_file m = (SysExit 1, m') /\
  Smart.run env csv_file m = (SysExit 1, m').
Proof.
  intros Hcsv m'. subst m'.
  unfold Normal.run, Multi.run, Smart.run, run_with, load_csv_data.
  rewrite Hcsv. repeat split; reflexivity.
Qed.

Lemma load_failure_exits_witness :
  let m' := with_trace
              (fun tr => tr ++ [EvPrint (MsgErrorLoading "No such file or directory")])
              sample_machine in
  Normal.run broken_env "layers.csv" sample_machine = (SysExit 1, m') /\
  Multi.run broken_env "layers.csv" sample_machine = (SysExit 1, m') /\
  Smart.run broken_env "layers.csv" sample_machine = (SysExit 1, m').
Proof.
  apply (load_failure_exits broken_env "layers.csv" sample_machine
           (Exn OSError "No such file or directory")).
  reflexivity.
Defined.

(** X2. [generate_summary] always returns normally and leaves the object,
    the input and the event loop alone.  It attempts the summary file and
    then the chart, each with the counters the object holds, and the chart
    is attempted also when the summary file could not be written; a failure
    of either is only reported on the console. *)
Theorem summary_never_fails env m :
  let p := self m in
  let r := generate_summary env m in
  let summary_file := path_join (output_folder p) "print_summary.txt" in
  let chart_path := path_join (output_folder p) "print_summary_chart.png" in
  fst r = Normal tt /\
  self (snd r) = p /\ stdin (snd r) = stdin m /\ tasks (snd r) = tasks m /\
  trace (snd r) =
    trace m ++
    [EvWriteSummary summary_file (print_name p) (total_layers p)
       (successful_layers p) (failed_layers p) (error_log p)
       (match summary_res env with Some _ => false | None => true end);
     EvPrint (match summary_res env with
              | Some e => MsgErrorSummary (exn_msg e)
              | None => MsgSummarySaved summary_file
              end);
     EvSaveChart chart_path (successful_layers p) (failed_layers p)
       (match chart_res env with Some _ => false | None => true end);
     EvPrint (match chart_res env with
              | Some e => MsgErrorChart (exn_msg e)
              | None => MsgChartSaved chart_path
              end)].
Proof.
  unfold generate_summary. unfold_m. unfold any_exception.
  destruct (summary_res env), (chart_res env); simpl;
    rewrite <- !app_assoc; repeat split; reflexivity.
Qed.

(** X3. An exception of the image step that is not a
    [requests.RequestException] (an [OSError] while writing the file, say)
    escapes from [print_layer] of [normal_driver.py]: the call raises it,
    the row is counted neither as successful nor as failed and nothing is
    logged.  [print_layer] of the two other drivers catches it and counts
    the row as failed. *)
Theorem image_error_escapes_normal_only env index layer m e :
  let io := row_io env index in
  let n := series_get layer "Layer Number" (PStr "unknown") in
  makedirs_res io = None -> write_data_res io = None ->
  image_failed layer io e -> is_request_exception e = false ->
  (fst (Normal.print_layer env index layer m) = Uncaught e /\
   self (snd (Normal.print_layer env index layer m)) = self m) /\
  (fst (Multi.print_layer env index layer m) = Normal tt /\
   successful_layers (self (snd (Multi.print_layer env index layer m)))
     = successful_layers (self m) /\
   failed_layers (self (snd (Multi.print_layer env index layer m)))
     = failed_layers (self m) + 1 /\
   error_log (self (snd (Multi.print_layer env index layer m)))
     = error_log (self m) ++ ["Layer " +:+ py_str n +:+ ": " +:+ exn_msg e]) /\
  Smart.print_layer env index layer m = Multi.print_layer env index layer m.
Proof.
  intros io n Hdir Hwrite [Hurl Hfail] Hreq. subst io n.
  unfold Normal.print_layer, Multi.print_layer, Smart.print_layer,
    print_layer_sync.
  cbv zeta. rewrite Hdir, Hwrite, Hurl.
  destruct Hfail as [-> | (content & -> & ->)]; run_m; rewrite Hreq;
    repeat split; reflexivity.
Qed.

Lemma image_error_escapes_normal_only_witness :
  (fst (Normal.print_layer disk_full_env 0 (row sample_rows 0) sample_machine)
   = Uncaught (Exn OSError "No space left on device") /\
   self (snd (Normal.print_layer disk_full_env 0 (row sample_rows 0) sample_machine))
   = self sample_machine) /\
  (fst (Multi.print_layer disk_full_env 0 (row sample_rows 0) sample_machine)
   = Normal tt /\
   successful_layers
     (self (snd (Multi.print_layer disk_full_env 0 (row sample_rows 0) sample_machine)))
   = successful_layers (self sample_machine) /\
   failed_layers
     (self (snd (Multi.print_layer disk_full_env 0 (row sample_rows 0) sample_machine)))
   = failed_layers (self sample_machine) + 1 /\
   error_log
     (self (snd (Multi.print_layer disk_full_env 0 (row sample_rows 0) sample_machine)))
   = error_log (self sample_machine)
     ++ ["Layer " +:+ py_str (PInt 1) +:+ ": " +:+ "No space left on device"]) /\
  Smart.print_layer disk_full_env 0 (row sample_rows 0) sample_machine
  = Multi.print_layer disk_full_env 0 (row sample_rows 0) sample_machine.
Proof.
  apply (image_error_escapes_normal_only disk_full_env 0 (row sample_rows 0)
           sample_machine (Exn OSError "No space left on device"));
    try reflexivity.
  split; [reflexivity|]. right. exists "PNG". split; reflexivity.
Defined.

(** ** Further properties: what the user may answer *)

Lemma is_space2_lead c1 c2 :
  is_space2 c1 c2 = true ->
  nat_of_ascii c1 = 194 /\ (nat_of_ascii c2 = 133 \/ nat_of_ascii c2 = 160).
Proof.
  unfold is_space2. intros H. apply andb_true_iff in H as [Ha Hb].
  apply Nat.eqb_eq in Ha. apply orb_true_iff in Hb as [Hb|Hb];
    apply Nat.eqb_eq in Hb; auto.
Qed.

Lemma is_space3_lead c1 c2 c3 :
  is_space3 c1 c2 c3 = true ->
  225 <= nat_of_ascii c1 <= 227 /\ 128 <= nat_of_ascii c2 <= 154 /\
  128 <= nat_of_ascii c3.
Proof.
  unfold is_space3. intros H.
  repeat match goal with
         | H : (_ || _) = true |- _ => apply orb_true_iff in H as [H|H]
         | H : (_ && _) = true |- _ =>
             let H1 := fresh in let H2 := fresh in
             apply andb_true_iff in H as [H1 H2]
         | H : (_ =? _)%nat = true |- _ => apply Nat.eqb_eq in H
         | H : (_ <=? _)%nat = true |- _ => apply Nat.leb_le in H
         end; lia.
Qed.

Lemma high_byte_no_space c : 128 <= nat_of_ascii c -> is_space c = false.
Proof.
  intros H. unfold is_space.
  apply orb_false_iff. split; apply andb_false_iff; right; apply Nat.leb_gt; lia.
Qed.

Lemma no_lead_no_space2 c1 c2 : nat_of_ascii c1 <> 194 -> is_space2 c1 c2 = false.
Proof.
  intros H. unfold is_space2. apply andb_false_iff. left. by apply Nat.eqb_neq.
Qed.

Lemma no_lead_no_space3 c1 c2 c3 :
  nat_of_ascii c1 < 225 -> is_space3 c1 c2 c3 = false.
Proof.
  intros H. unfold is_space3.
  assert (E : forall k, 225 <= k -> (nat_of_ascii c1 =? k) = false)
    by (intros k Hk; apply Nat.eqb_neq; lia).
  rewrite !E by lia. reflexivity.
Qed.

Lemma lstrip_spec s :
  exists ws, s = ws +:+ lstrip s /\ all_space ws = true.
Proof.
  remember (String.length s) as n eqn:Hn. revert s Hn.
  induction n as [n IH] using lt_wf_ind. intros s ->.
  destruct s as [|c1 r1]; [by exists ""|].
  cbn [lstrip]. destruct (is_space c1) eqn:H1.
  { destruct (IH (String.length r1) ltac:(simpl; lia) r1 eq_refl) as (ws & Hs & Hws).
    exists (String c1 ws). cbn [all_space String.append]. rewrite H1.
    split; [by f_equal|done]. }
  destruct r1 as [|c2 r2]; [by exists ""|].
  destruct (is_space2 c1 c2) eqn:H2.
  { destruct (IH (String.length r2) ltac:(simpl; lia) r2 eq_refl) as (ws & Hs & Hws).
    exists (String c1 (String c2 ws)). cbn [all_space String.append].
    rewrite H1, H2. split; [by do 2 f_equal|done]. }
  destruct r2 as [|c3 r3]; [by exists ""|].
  destruct (is_space3 c1 c2 c3) eqn:H3; [|by exists ""].
  destruct (IH (String.length r3) ltac:(simpl; lia) r3 eq_refl) as (ws & Hs & Hws).
  exists (String c1 (String c2 (String c3 ws))). cbn [all_space String.append].
  rewrite H1, H2, H3. split; [by do 3 f_equal|done].
Qed.

Lemma all_space_app a b :
  all_space a = true -> all_space b = true -> all_space (a +:+ b) = true.
Proof.
  remember (String.length a) as n eqn:Hn. revert a Hn.
  induction n as [n IH] using lt_wf_ind. intros a -> Ha Hb.
  destruct a as [|c1 r1]; [done|].
  cbn [all_space String.append] in *. destruct (is_space c1) eqn:H1.
  { apply (IH (String.length r1)); simpl; try done; lia. }
  destruct r1 as [|c2 r2]; [done|].
  cbn [String.append]. destruct (is_space2 c1 c2) eqn:H2.
  { apply (IH (String.length r2)); simpl; try done; lia. }
  destruct r2 as [|c3 r3]; [done|].
  cbn [String.append]. apply andb_true_iff in Ha as [-> Ha]. simpl.
  apply (IH (String.length r3)); simpl; try done; lia.
Qed.

Lemma space_char_all_space s : space_char s = true -> all_space s = true.
Proof.
  destruct s as [|c1 [|c2 [|c3 [|c4 r]]]]; simpl; try done.
  - by intros ->.
  - intros H. destruct (is_space2_lead _ _ H) as [Ha _].
    rewrite H. unfold is_space. rewrite Ha. reflexivity.
  - intros H. destruct (is_space3_lead _ _ _ H) as (Ha & Hb & _).
    rewrite H, (high_byte_no_space c1), no_lead_no_space2 by lia. done.
Qed.

Lemma rstrip_spec s :
  exists ws, s = rstrip s +:+ ws /\ all_space ws = true.
Proof.
  induction s as [|c s (ws & Hs & Hws)]; [by exists ""|].
  cbn [rstrip]. cbv zeta. destruct (space_char (String c (rstrip s))) eqn:Hc.
  - exists (String c (rstrip s) +:+ ws). split.
    + cbn [String.append]. by f_equal.
    + apply all_space_app; [by apply space_char_all_space|done].
  - exists ws. cbn [String.append]. split; [by f_equal|done].
Qed.

Lemma lstrip_app_space ws s : all_space ws = true -> lstrip (ws +:+ s) = lstrip s.
Proof.
  remember (String.length ws) as n eqn:Hn. revert ws Hn.
  induction n as [n IH] using lt_wf_ind. intros ws -> Hws.
  destruct ws as [|c1 r1]; [done|].
  cbn [all_space String.append lstrip] in *. destruct (is_space c1) eqn:H1.
  { apply (IH (String.length r1)); simpl; try done; lia. }
  destruct r1 as [|c2 r2]; [done|].
  cbn [String.append]. destruct (is_space2 c1 c2) eqn:H2.
  { apply (IH (String.length r2)); simpl; try done; lia. }
  destruct r2 as [|c3 r3]; [done|].
  cbn [String.append]. apply andb_true_iff in Hws as [-> Hws].
  apply (IH (String.length r3)); simpl; try done; lia.
Qed.

Lemma rstrip_all_space ws : all_space ws = true -> rstrip ws = "".
Proof.
  remember (String.length ws) as n eqn:Hn. revert ws Hn.
  induction n as [n IH] using lt_wf_ind. intros ws -> Hws.
  destruct ws as [|c1 r1]; [done|].
  cbn [all_space] in Hws. destruct (is_space c1) eqn:H1.
  { cbn [rstrip]. cbv zeta.
    rewrite (IH (String.length r1) ltac:(simpl; lia) r1 eq_refl Hws).
    simpl. by rewrite H1. }
  destruct r1 as [|c2 r2]; [done|].
  destruct (is_space2 c1 c2) eqn:H2.
  { destruct (is_space2_lead _ _ H2) as [_ Hb].
    cbn [rstrip]. cbv zeta.
    rewrite (IH (String.length r2) ltac:(simpl; lia) r2 eq_refl Hws).
    cbn [space_char]. rewrite (high_byte_no_space c2) by lia.
    cbn [space_char]. by rewrite H2. }
  destruct r2 as [|c3 r3]; [done|].
  apply andb_true_iff in Hws as [H3 Hws].
  destruct (is_space3_lead _ _ _ H3) as (Ha & Hb & Hc).
  cbn [rstrip]. cbv zeta.
  rewrite (IH (String.length r3) ltac:(simpl; lia) r3 eq_refl Hws).
  cbn [space_char]. rewrite (high_byte_no_space c3) by lia.
  cbn [space_char]. rewrite (no_lead_no_space2 c2 c3) by lia.
  cbn [space_char]. by rewrite H3.
Qed.

Lemma ascii_lower_q c :
  ascii_lower c = "q"%char -> c = "q"%char \/ c = "Q"%char.
Proof.
  destruct c as [[] [] [] [] [] [] [] []]; vm_compute; intros H;
    try discriminate H; auto.
Qed.

Lemma lstrip_letter c s :
  nat_of_ascii c < 128 -> is_space c = false -> lstrip (String c s) = String c s.
Proof.
  intros Hc Hs. cbn [lstrip]. rewrite Hs.
  destruct s as [|c2 [|c3 r3]]; try done;
    rewrite no_lead_no_space2 by lia; try done.
  by rewrite no_lead_no_space3 by lia.
Qed.

(** X4. The answers that quit a supervised loop (the test
    [.strip().lower() == 'q'] of the three drivers) are exactly the lines
    made of white space, one letter 'q' or 'Q', and white space, the white
    space being that of [str.strip()], ASCII and Unicode; any other line,
    the empty one included, goes on. *)
Theorem quit_answers line :
  is_quit line = true <->
  exists ws1 c ws2,
    line = ws1 +:+ String c ws2 /\
    all_space ws1 = true /\ all_space ws2 = true /\
    (c = "q"%char \/ c = "Q"%char).
Proof.
  unfold is_quit, strip. split.
  - intros H. apply String.eqb_eq in H.
    destruct (lstrip_spec line) as (ws1 & Hl & Hws1).
    destruct (rstrip_spec (lstrip line)) as (ws2 & Hr & Hws2).
    destruct (rstrip (lstrip line)) as [|c [|c' s']]; simpl in H;
      try discriminate H.
    injection H as Hc. apply ascii_lower_q in Hc.
    exists ws1, c, ws2. rewrite Hl at 1. rewrite Hr. done.
  - intros (ws1 & c & ws2 & -> & Hws1 & Hws2 & Hc).
    rewrite lstrip_app_space by done.
    assert (Hns : is_space c = false) by (destruct Hc as [-> | ->]; reflexivity).
    assert (Hlow : nat_of_ascii c < 128)
      by (destruct Hc as [-> | ->]; vm_compute; lia).
    rewrite (lstrip_letter c ws2 Hlow Hns).
    cbn [rstrip]. cbv zeta. rewrite rstrip_all_space by done.
    cbn [space_char]. rewrite Hns.
    destruct Hc as [-> | ->]; reflexivity.
Qed.

Example quit_after_no_break_space :
  is_quit (String (ascii_of_nat 194) (String (ascii_of_nat 160) "q")) = true /\
  is_quit (String "q"%char
             (String (ascii_of_nat 226)
                (String (ascii_of_nat 128) (String (ascii_of_nat 131) "")))) = true /\
  is_quit "" = false /\ is_quit " Q " = true /\ is_quit "quit" = false.
Proof. vm_compute. done. Qed.

(** ** Further properties: one layer, two processors, missing columns *)

(** X5. On a row without inherent error, the sequential [print_layer] and
    the concurrent [print_layer_async] of [multi_driver.py] agree, whatever
    happens to the I/O: one counts the row as successful exactly when the
    other returns [success = True], as failed exactly when the other returns
    [success = False], and raises the exception the other raises (when the
    layer folder cannot be made). *)
Theorem multi_processors_agree env index layer m :
  py_ne (series_get layer "Error" (PStr "SUCCESS")) (PStr "SUCCESS") = false ->
  let r := Multi.print_layer env index layer m in
  let c := Multi.print_layer_async (output_folder (self m)) layer (row_io env index) in
  match final c with
  | Return (_, true, _) =>
      fst r = Normal tt /\
      successful_layers (self (snd r)) = successful_layers (self m) + 1 /\
      failed_layers (self (snd r)) = failed_layers (self m)
  | Return (_, false, _) =>
      fst r = Normal tt /\
      successful_layers (self (snd r)) = successful_layers (self m) /\
      failed_layers (self (snd r)) = failed_layers (self m) + 1
  | Raise e => fst r = Uncaught e /\ self (snd r) = self m
  | _ => False
  end.
Proof.
  intros Herr r c. subst r c.
  unfold Multi.print_layer, Multi.print_layer_async, print_layer_sync,
    layer_coro, final.
  cbv zeta. rewrite Herr.
  destruct (makedirs_res _); [run_m; simpl; done|].
  destruct (write_data_res _); [run_m; simpl; done|].
  destruct (truthy _); [|run_m; simpl; done].
  destruct (http_res _); [run_m; simpl; done|].
  destruct (write_image_res _); run_m; simpl; done.
Qed.

Lemma multi_processors_agree_witness :
  let r := Multi.print_layer sample_env 0 (row sample_rows 0) sample_machine in
  let c := Multi.print_layer_async (output_folder (self sample_machine))
             (row sample_rows 0) (row_io sample_env 0) in
  match final c with
  | Return (_, true, _) =>
      fst r = Normal tt /\
      successful_layers (self (snd r)) = successful_layers (self sample_machine) + 1 /\
      failed_layers (self (snd r)) = failed_layers (self sample_machine)
  | Return (_, false, _) =>
      fst r = Normal tt /\
      successful_layers (self (snd r)) = successful_layers (self sample_machine) /\
      failed_layers (self (snd r)) = failed_layers (self sample_machine) + 1
  | Raise e => fst r = Uncaught e /\ self (snd r) = self sample_machine
  | _ => False
  end.
Proof.
  apply (multi_processors_agree sample_env 0 (row sample_rows 0) sample_machine).
  reflexivity.
Defined.

Lemma series_get_missing layer key default :
  has_column layer key = false -> series_get layer key default = default.
Proof.
  induction layer as [|[k v] rest IH]; [done|]. simpl. intros H.
  apply orb_false_iff in H as [-> H]. by apply IH.
Qed.

(** X6. A row that has none of the columns "Layer Number", "image url" and
    "Error" is processed under the name "unknown", without any fetch and as
    free of inherent error: when its folder and data file can be written,
    the layer coroutine makes the folder [layer_unknown], writes the data
    file there, reports that there is no image and returns success; the
    synchronous [print_layer] counts the row as successful. *)
Theorem row_without_columns folder layer io :
  has_column layer "Layer Number" = false ->
  has_column layer "image url" = false ->
  has_column layer "Error" = false ->
  makedirs_res io = None -> write_data_res io = None ->
  final (Smart.fetch_layer_supervised folder layer io)
  = Return (PStr "unknown", true, None) /\
  remaining (Smart.fetch_layer_supervised folder layer io)
  = [EvMakedirs (path_join folder "layer_unknown") true;
     EvWriteText (path_join (path_join folder "layer_unknown") "layer_data.txt")
       (json_text io) true;
     EvPrint (MsgNoImage (PStr "unknown"))] /\
  forall env index m,
    row_io env index = io ->
    fst (Normal.print_layer env index layer m) = Normal tt /\
    successful_layers (self (snd (Normal.print_layer env index layer m)))
    = successful_layers (self m) + 1 /\
    failed_layers (self (snd (Normal.print_layer env index layer m)))
    = failed_layers (self m).
Proof.
  intros Hn Hu He Hdir Hwrite.
  unfold Smart.fetch_layer_supervised, final, remaining, layer_coro,
    Normal.print_layer, print_layer_sync.
  rewrite !(series_get_missing layer) by done.
  rewrite Hdir, Hwrite. simpl. split; [done|]. split; [done|].
  intros env index m ->. rewrite Hdir, Hwrite. run_m. done.
Qed.

Lemma row_without_columns_witness :
  final (Smart.fetch_layer_supervised "out" [("Speed", PInt 40)] ok_io)
  = Return (PStr "unknown", true, None) /\
  remaining (Smart.fetch_layer_supervised "out" [("Speed", PInt 40)] ok_io)
  = [EvMakedirs (path_join "out" "layer_unknown") true;
     EvWriteText (path_join (path_join "out" "layer_unknown") "layer_data.txt")
       (json_text ok_io) true;
     EvPrint (MsgNoImage (PStr "unknown"))] /\
  forall env index m,
    row_io env index = ok_io ->
    fst (Normal.print_layer env index [("Speed", PInt 40)] m) = Normal tt /\
    successful_layers (self (snd (Normal.print_layer env index [("Speed", PInt 40)] m)))
    = successful_layers (self m) + 1 /\
    failed_layers (self (snd (Normal.print_layer env index [("Speed", PInt 40)] m)))
    = failed_layers (self m).
Proof.
  apply (row_without_columns "out" [("Speed", PInt 40)] ok_io); reflexivity.
Defined.

(** ** Further properties: the concurrent automatic mode *)

Lemma advance_final cs0 id m :
  Forall2 same_final cs0 (tasks m) -> Forall2 same_final cs0 (tasks (advance id m)).
Proof.
  intros H. unfold advance.
  destruct (tasks m !! id) as [c|] eqn:Hc; [|done].
  destruct (Forall2_lookup_r _ _ _ _ _ H Hc) as (c0 & Hc0 & Hst).
  assert (Hs : same_final c0 (snd (slice c))).
  { unfold same_final, final in *. rewrite (slice_run_to_end c) in Hst. exact Hst. }
  destruct (slice c) as [evs c']. simpl in *.
  rewrite <- (list_insert_id cs0 id c0) by done. by apply Forall2_insert.
Qed.

Lemma complete_final cs0 id m :
  Forall2 same_final cs0 (tasks m) -> Forall2 same_final cs0 (tasks (complete id m)).
Proof.
  intros H. unfold complete.
  destruct (tasks m !! id) as [c|] eqn:Hc; [|done].
  destruct (Forall2_lookup_r _ _ _ _ _ H Hc) as (c0 & Hc0 & Hst).
  assert (Hs : same_final c0 (final c)).
  { unfold same_final in *. by rewrite final_final. }
  unfold final in Hs. destruct (run_to_end c) as [evs c']. simpl in *.
  rewrite <- (list_insert_id cs0 id c0) by done. by apply Forall2_insert.
Qed.

Lemma gather_turns_final cs0 ids m :
  Forall2 same_final cs0 (tasks m) ->
  match gather_turns ids m with
  | (Some e, _) => exists j c0, cs0 !! j = Some c0 /\ final c0 = Raise e
  | (None, m') => Forall2 same_final cs0 (tasks m')
  end.
Proof.
  revert m. induction ids as [|id ids IH]; intros m H; simpl; [done|].
  pose proof (advance_final cs0 id m H) as H'.
  destruct (tasks (advance id m) !! id) as [c|] eqn:Hc; [|by apply IH].
  destruct c as [r|e|ev k|k]; try by apply IH.
  destruct (Forall2_lookup_r _ _ _ _ _ H' Hc) as (c0 & Hc0 & Hst).
  exists id, c0. split; [done|]. by rewrite <- Hst.
Qed.

Lemma gather_finish_collect cs0 n a m :
  Forall2 same_final cs0 (tasks m) -> a + n <= length cs0 ->
  fst (gather_finish (seq a n) m) = collect (take n (drop a cs0)).
Proof.
  revert a m. induction n as [|n IH]; intros a m H Hlen; [done|].
  destruct (lookup_lt_is_Some_2 cs0 a) as [c0 Hc0]; [lia|].
  destruct (Forall2_lookup_l _ _ _ _ _ H Hc0) as (c & Hc & Hst).
  rewrite (drop_S _ _ _ Hc0). cbn [seq gather_finish take collect].
  rewrite (complete_lookup _ _ _ Hc). rewrite Hst.
  pose proof (complete_final cs0 a m H) as H'.
  specialize (IH (S a) (complete a m) H' ltac:(lia)).
  destruct (final c0) as [r|e|ev k|k]; try done.
  destruct (gather_finish (seq (S a) n) (complete a m)) as [[rs|code|e] m''];
    simpl in IH; rewrite <- IH; done.
Qed.

Lemma gather_outcome cs m :
  tasks m = [] ->
  fst (gather cs m) = collect cs \/
  exists e j c0, fst (gather cs m) = Uncaught e /\ cs !! j = Some c0 /\
                 final c0 = Raise e.
Proof.
  intros Ht. unfold gather. rewrite Ht.
  set (m1 := with_sched tl (with_tasks (fun ts => ts ++ cs) m)).
  assert (H1 : Forall2 same_final cs (tasks m1)).
  { subst m1. simpl. rewrite Ht. simpl. by apply Forall_Forall2_diag, Forall_true. }
  pose proof (gather_turns_final cs
                (hd [] (sched (with_tasks (fun ts => ts ++ cs) m))) m1 H1) as Hturn.
  destruct (gather_turns _ m1) as [[e|] m2].
  - right. destruct Hturn as (j & c0 & ? & ?). exists e, j, c0. done.
  - left. simpl. rewrite (gather_finish_collect cs (length cs) 0 m2) by done.
    by rewrite drop_0, firstn_all.
Qed.

Lemma collect_returns cs :
  Forall (fun c => exists r, final c = Return r) cs ->
  collect cs = Normal (map returned cs).
Proof.
  induction 1 as [|c cs [r Hr] _ IH]; [done|].
  simpl. unfold returned at 1. rewrite Hr, IH. done.
Qed.

Lemma collect_raises cs j c0 e :
  cs !! j = Some c0 -> final c0 = Raise e ->
  exists e' j' c', collect cs = Uncaught e' /\ cs !! j' = Some c' /\
                   final c' = Raise e'.
Proof.
  revert j. induction cs as [|c cs IH]; intros j Hj Hf; [done|].
  simpl. pose proof (run_to_end_done c) as Hdone.
  destruct (final c) as [r|e1|ev k|k] eqn:Hc; try discriminate Hdone.
  - destruct j as [|j]; [simpl in Hj; congruence|].
    destruct (IH j Hj Hf) as (e' & j' & c' & -> & Hj' & Hf').
    exists e', (S j'), c'. done.
  - exists e1, 0, c. done.
Qed.

Lemma enumerate_from_seq (pre l : list Series) :
  enumerate_from (length pre) l =
  map (fun i => (i, row (pre ++ l) i)) (seq (length pre) (length l)).
Proof.
  revert pre. induction l as [|x l IH]; intros pre; [done|].
  simpl. f_equal.
  - unfold row. by rewrite list_lookup_middle.
  - specialize (IH (pre ++ [x])). rewrite length_app in IH. simpl in IH.
    rewrite Nat.add_1_r, <- app_assoc in IH. exact IH.
Qed.

Lemma enumerate_seq (rows : list Series) :
  enumerate_from 0 rows = map (fun i => (i, row rows i)) (seq 0 (length rows)).
Proof. exact (enumerate_from_seq [] rows). Qed.

Lemma layer_coro_final csv_msg folder layer io :
  final (layer_coro csv_msg folder layer io)
  = match makedirs_res io with
    | Some e => Raise e
    | None => Return (returned (layer_coro csv_msg folder layer io))
    end /\
  final (layer_coro csv_msg folder layer io)
  = final (Smart.fetch_layer_supervised folder layer io).
Proof.
  unfold returned, final, Smart.fetch_layer_supervised, layer_coro.
  layer_cases io; done.
Qed.

Lemma fold_results_self results m :
  self (snd (fold_results results m)) = foldl consume (self m) results.
Proof.
  revert m. induction results as [|[[n success] error] rest IH]; intros m; [done|].
  cbn [fold_results foldl]. unfold_m. cbv beta iota.
  destruct success; simpl; rewrite IH; done.
Qed.

(** The coroutines that [automatic_mode_async] hands to [gather]. *)
Lemma automatic_mode_gather_unfold env csv_msg m rows :
  csv_data (self m) = Some rows ->
  automatic_mode_gather env csv_msg m =
  (do results <-
     gather (map (fun i => layer_coro csv_msg (output_folder (self m))
                             (row rows i) (row_io env i))
               (seq 0 (length rows)));
   fold_results results) m.
Proof.
  intros Hdata. unfold automatic_mode_gather, iterrows, get_self, bind, ret.
  rewrite Hdata. cbv beta iota.
  rewrite enumerate_seq, map_map. reflexivity.
Qed.

Lemma automatic_mode_gather_returns env csv_msg m rows :
  csv_data (self m) = Some rows -> tasks m = [] ->
  (forall i, i < length rows -> makedirs_res (row_io env i) = None) ->
  fst (automatic_mode_gather env csv_msg m) = Normal tt /\
  self (snd (automatic_mode_gather env csv_msg m))
  = foldl consume (self m)
      (map (row_outcome env (output_folder (self m)) rows) (seq 0 (length rows))).
Proof.
  intros Hdata Ht Hdir. rewrite (automatic_mode_gather_unfold _ _ _ rows Hdata).
  set (cs := map _ (seq 0 (length rows))).
  assert (Hall : Forall (fun c => exists r, final c = Return r) cs).
  { subst cs. apply Forall_forall. intros c Hc.
    apply list_elem_of_In, in_map_iff in Hc as (i & <- & Hi).
    apply in_seq in Hi.
    destruct (layer_coro_final csv_msg (output_folder (self m)) (row rows i)
                (row_io env i)) as [-> _].
    rewrite Hdir by lia. eauto. }
  assert (Hres : map returned cs =
                 map (row_outcome env (output_folder (self m)) rows)
                   (seq 0 (length rows))).
  { subst cs. rewrite map_map. apply map_ext_in. intros i Hi. apply in_seq in Hi.
    unfold returned, row_outcome, row_coro.
    destruct (layer_coro_final csv_msg (output_folder (self m)) (row rows i)
                (row_io env i)) as [H1 H2].
    rewrite <- H2, H1, Hdir by lia. done. }
  pose proof (gather_spec cs m) as [Hself _].
  unfold bind.
  destruct (gather_outcome cs m Ht) as [Hc|(e & j & c0 & _ & Hj & Hf)].
  - rewrite (collect_returns cs Hall) in Hc.
    destruct (gather cs m) as [st m1]. simpl in *. subst st.
    destruct (fold_results_counts (map returned cs) m1) as (Hn & _ & _).
    rewrite fold_results_self, Hself, Hres. rewrite Hres in Hn. done.
  - apply list_elem_of_lookup_2 in Hj.
    rewrite Forall_forall in Hall. destruct (Hall c0 Hj) as [r Hr]. congruence.
Qed.

Lemma automatic_mode_gather_raises env csv_msg m rows i e :
  csv_data (self m) = Some rows -> tasks m = [] ->
  i < length rows -> makedirs_res (row_io env i) = Some e ->
  exists e' j,
    j < length rows /\ makedirs_res (row_io env j) = Some e' /\
    fst (automatic_mode_gather env csv_msg m) = Uncaught e' /\
    self (snd (automatic_mode_gather env csv_msg m)) = self m.
Proof.
  intros Hdata Ht Hi Hdir. rewrite (automatic_mode_gather_unfold _ _ _ rows Hdata).
  set (f := fun i => layer_coro csv_msg (output_folder (self m)) (row rows i)
                       (row_io env i)).
  set (cs := map f (seq 0 (length rows))).
  assert (Hraise : forall j c e', cs !! j = Some c -> final c = Raise e' ->
                     j < length rows /\ makedirs_res (row_io env j) = Some e').
  { intros j c e' Hj Hf. subst cs.
    assert (Hlt : j < length rows).
    { apply lookup_lt_Some in Hj. by rewrite length_map, length_seq in Hj. }
    rewrite (lookup_map_seq f _ _ Hlt) in Hj. injection Hj as <-.
    split; [done|]. subst f. cbv beta in Hf.
    destruct (layer_coro_final csv_msg (output_folder (self m)) (row rows j)
                (row_io env j)) as [H1 _].
    rewrite H1 in Hf. destruct (makedirs_res (row_io env j)); congruence. }
  assert (Hci : cs !! i = Some (f i)) by (by apply lookup_map_seq).
  assert (Hfi : final (f i) = Raise e).
  { subst f. cbv beta.
    destruct (layer_coro_final csv_msg (output_folder (self m)) (row rows i)
                (row_io env i)) as [-> _]. by rewrite Hdir. }
  pose proof (gather_spec cs m) as [Hself _].
  unfold bind.
  destruct (gather_outcome cs m Ht) as [Hc|(e' & j & c0 & Hg & Hj & Hf)].
  - destruct (collect_raises cs i (f i) e Hci Hfi) as (e' & j & c' & Hcol & Hj & Hf).
    destruct (Hraise j c' e' Hj Hf) as [Hlt Hd].
    exists e', j. rewrite Hcol in Hc.
    destruct (gather cs m) as [st m1]. simpl in *. subst st. done.
  - destruct (Hraise j c0 e' Hj Hf) as [Hlt Hd].
    exists e', j.
    destruct (gather cs m) as [st m1]. simpl in *. subst st. done.
Qed.

(** X7. In the concurrent automatic mode of [multi_driver.py] and of
    [smart_driver.py], when the folder of every row can be made, the mode
    returns and the object ends as the object it started from with the
    outcomes of all the rows folded in, in row order: the counters and the
    order of the error log do not depend on the order in which the event
    loop runs the tasks (the oracle does not occur in the result). *)
Theorem automatic_mode_order_independent env m rows :
  csv_data (self m) = Some rows -> tasks m = [] ->
  (forall i, i < length rows -> makedirs_res (row_io env i) = None) ->
  let expected :=
    foldl consume (self m)
      (map (row_outcome env (output_folder (self m)) rows) (seq 0 (length rows))) in
  (fst (Multi.automatic_mode_async env m) = Normal tt /\
   self (snd (Multi.automatic_mode_async env m)) = expected) /\
  (fst (Smart.automatic_mode_async env m) = Normal tt /\
   self (snd (Smart.automatic_mode_async env m)) = expected).
Proof.
  intros Hdata Ht Hdir expected.
  unfold Multi.automatic_mode_async, Smart.automatic_mode_async.
  split; apply automatic_mode_gather_returns; done.
Qed.

Lemma automatic_mode_order_independent_witness :
  let expected :=
    foldl consume (self sample_machine)
      (map (row_outcome sample_env (output_folder (self sample_machine)) sample_rows)
         (seq 0 (length sample_rows))) in
  (fst (Multi.automatic_mode_async sample_env sample_machine) = Normal tt /\
   self (snd (Multi.automatic_mode_async sample_env sample_machine)) = expected) /\
  (fst (Smart.automatic_mode_async sample_env sample_machine) = Normal tt /\
   self (snd (Smart.automatic_mode_async sample_env sample_machine)) = expected).
Proof.
  apply (automatic_mode_order_independent sample_env sample_machine sample_rows);
    reflexivity.
Defined.

(** X8. In the concurrent automatic mode of [multi_driver.py] and of
    [smart_driver.py], when the folder of some row cannot be made
    ([os.makedirs] is outside the [try] blocks of the layer coroutine), the
    mode raises the exception of such a row and the object is left as it
    was: no row is counted or logged, whatever the other tasks did. *)
Theorem automatic_mode_raises env m rows i e :
  csv_data (self m) = Some rows -> tasks m = [] ->
  i < length rows -> makedirs_res (row_io env i) = Some e ->
  (exists e' j,
     j < length rows /\ makedirs_res (row_io env j) = Some e' /\
     fst (Multi.automatic_mode_async env m) = Uncaught e' /\
     self (snd (Multi.automatic_mode_async env m)) = self m) /\
  (exists e' j,
     j < length rows /\ makedirs_res (row_io env j) = Some e' /\
     fst (Smart.automatic_mode_async env m) = Uncaught e' /\
     self (snd (Smart.automatic_mode_async env m)) = self m).
Proof.
  intros Hdata Ht Hi Hdir.
  unfold Multi.automatic_mode_async, Smart.automatic_mode_async.
  split; eapply automatic_mode_gather_raises; done.
Qed.

Lemma automatic_mode_raises_witness :
  (exists e' j,
     j < length sample_rows /\ makedirs_res (row_io no_folder_env j) = Some e' /\
     fst (Multi.automatic_mode_async no_folder_env sample_machine) = Uncaught e' /\
     self (snd (Multi.automatic_mode_async no_folder_env sample_machine))
     = self sample_machine) /\
  (exists e' j,
     j < length sample_rows /\ makedirs_res (row_io no_folder_env j) = Some e' /\
     fst (Smart.automatic_mode_async no_folder_env sample_machine) = Uncaught e' /\
     self (snd (Smart.automatic_mode_async no_folder_env sample_machine))
     = self sample_machine).
Proof.
  apply (automatic_mode_raises no_folder_env sample_machine sample_rows 1
           (Exn OSError "Permission denied"));
    [reflexivity | reflexivity | simpl; lia | reflexivity].
Defined.

(** ** Further properties: the prefetching mode, whole runs *)

Lemma error_log_foldl outs p n error :
  In (n, false, error) outs ->
  In ("Layer " +:+ py_str n +:+ ": " +:+ fmt_opt error)
    (error_log (foldl consume p outs)).
Proof.
  assert (Hkeep : forall outs p x,
            In x (error_log p) -> In x (error_log (foldl consume p outs))).
  { clear. induction outs as [|[[n []] e] outs IH]; intros p x Hx; simpl;
      [done| |]; apply IH; simpl; [done|].
    apply in_or_app. by left. }
  revert p. induction outs as [|r outs IH]; intros p Hin; [done|].
  destruct Hin as [-> | Hin]; [|by apply IH].
  simpl. apply Hkeep. simpl. apply in_or_app. right. by left.
Qed.

Lemma foldl_consume_fields outs p q :
  successful_layers p = successful_layers q ->
  failed_layers p = failed_layers q -> error_log p = error_log q ->
  successful_layers (foldl consume p outs) = successful_layers (foldl consume q outs) /\
  failed_layers (foldl consume p outs) = failed_layers (foldl consume q outs) /\
  error_log (foldl consume p outs) = error_log (foldl consume q outs).
Proof.
  revert p q. induction outs as [|[[n []] e] outs IH]; intros p q Hs Hf Hl;
    [done| |]; simpl; apply IH; simpl; congruence.
Qed.

Lemma supervised_session_self env name folder mode_arg csv_file rows lines oracle :
  lower mode_arg = "supervised" ->
  out_makedirs_res env = None -> read_csv env csv_file = inr rows ->
  self (snd (session (Smart.run env) env name folder mode_arg csv_file
               (boot lines oracle)))
  = foldl consume (fresh name folder mode_arg rows)
      (map (row_outcome env folder rows)
         (seq 0 (Nat.min (confirmations lines) (length rows)))).
Proof.
  intros Hmode Hdir Hcsv. unfold Smart.run.
  rewrite (session_loaded _ _ _ _ _ _ _ rows) by done.
  rewrite Hmode. simpl String.eqb. cbv iota.
  destruct (supervised_then_summary env name folder mode_arg csv_file rows
              lines oracle)
    as (l' & m2 & st & Hinv & Hpc & Hself & _).
  destruct Hinv as [_ _ _ _ _ _ _ _ _ _ _ Hfold _ _ Hfin _].
  rewrite Hpc in Hfin. destruct Hfin as [Hk _]. simpl in Hfold, Hk.
  rewrite Hself, Hfold, Hk. reflexivity.
Qed.

(** X9. In the prefetching supervised mode a task that raises (its layer
    folder cannot be made) does not stop the run: for every confirmed row
    the consumer folds in one outcome, and for such a row that outcome is a
    failure whose log entry is "Layer <number>: Error: <exception text>".
    The object at the end of the program is the freshly loaded object with
    the outcomes of the [k] confirmed rows folded in, in row order. *)
Theorem prefetch_recovers_from_raising_task env name folder mode_arg csv_file
    rows lines oracle :
  lower mode_arg = "supervised" ->
  out_makedirs_res env = None -> read_csv env csv_file = inr rows ->
  let final :=
    snd (session (Smart.run env) env name folder mode_arg csv_file
           (boot lines oracle)) in
  let k := Nat.min (confirmations lines) (length rows) in
  self final =
    foldl consume (fresh name folder mode_arg rows)
      (map (row_outcome env folder rows) (seq 0 k)) /\
  forall i e,
    i < k -> makedirs_res (row_io env i) = Some e ->
    row_outcome env folder rows i =
      (series_get (row rows i) "Layer Number" (PStr "unknown"), false,
       Some ("Error: " +:+ exn_msg e)) /\
    In ("Layer " +:+ layer_name (row rows i) +:+ ": Error: " +:+ exn_msg e)
      (error_log (self final)).
Proof.
  intros Hmode Hdir Hcsv final k. subst final k.
  rewrite (supervised_session_self _ _ _ _ _ rows) by done.
  split; [done|]. intros i e Hi Hfail.
  assert (Hout : row_outcome env folder rows i =
                 (series_get (row rows i) "Layer Number" (PStr "unknown"), false,
                  Some ("Error: " +:+ exn_msg e))).
  { unfold row_outcome, row_coro.
    destruct (layer_coro_final MsgHasCsvError folder (row rows i) (row_io env i))
      as [H1 _].
    unfold Smart.fetch_layer_supervised. rewrite H1, Hfail. done. }
  split; [done|].
  apply (error_log_foldl _ _ (series_get (row rows i) "Layer Number" (PStr "unknown"))
           (Some ("Error: " +:+ exn_msg e))).
  rewrite <- Hout. apply in_map. apply in_seq. lia.
Qed.

Lemma prefetch_recovers_from_raising_task_witness :
  let final :=
    snd (session (Smart.run no_folder_env) no_folder_env "job" "out" "supervised"
           "layers.csv" (boot [""; ""; ""] [[0; 1; 2]])) in
  let k := Nat.min (confirmations [""; ""; ""]) (length sample_rows) in
  self final =
    foldl consume (fresh "job" "out" "supervised" sample_rows)
      (map (row_outcome no_folder_env "out" sample_rows) (seq 0 k)) /\
  forall i e,
    i < k -> makedirs_res (row_io no_folder_env i) = Some e ->
    row_outcome no_folder_env "out" sample_rows i =
      (series_get (row sample_rows i) "Layer Number" (PStr "unknown"), false,
       Some ("Error: " +:+ exn_msg e)) /\
    In ("Layer " +:+ layer_name (row sample_rows i) +:+ ": Error: " +:+ exn_msg e)
      (error_log (self final)).
Proof.
  apply (prefetch_recovers_from_raising_task no_folder_env "job" "out" "supervised"
           "layers.csv" sample_rows [""; ""; ""] [[0; 1; 2]]);
    reflexivity.
Defined.

(** X10. With [smart_driver.py], when every layer folder can be made, a
    supervised run in which the user confirms every row and an automatic run
    on the same data end with the same counters and the same error log,
    whatever the two completion orders. *)
Theorem confirmed_supervised_matches_automatic env name folder mode_s mode_a
    csv_file rows lines oracle lines' oracle' :
  lower mode_s = "supervised" -> lower mode_a = "automatic" ->
  out_makedirs_res env = None -> read_csv env csv_file = inr rows ->
  (forall i, i < length rows -> makedirs_res (row_io env i) = None) ->
  length rows <= confirmations lines ->
  let s := snd (session (Smart.run env) env name folder mode_s csv_file
                  (boot lines oracle)) in
  let a := snd (session (Smart.run env) env name folder mode_a csv_file
                  (boot lines' oracle')) in
  successful_layers (self s) = successful_layers (self a) /\
  failed_layers (self s) = failed_layers (self a) /\
  error_log (self s) = error_log (self a).
Proof.
  intros Hs Ha Hdir Hcsv Hrows Hconf s a. subst s a.
  rewrite (supervised_session_self _ _ _ _ _ rows) by done.
  rewrite Nat.min_r by done.
  unfold Smart.run. rewrite (session_loaded _ _ _ _ _ _ _ rows) by done.
  rewrite Ha. simpl String.eqb. cbv iota.
  set (m1 := loaded name folder mode_a csv_file rows lines' oracle').
  destruct (automatic_mode_gather_returns env MsgHasCsvError m1 rows)
    as [Hn Hself]; try done.
  unfold bind. fold (Smart.automatic_mode_async env) in Hn, Hself.
  destruct (Smart.automatic_mode_async env m1) as [st m2]. simpl in Hn, Hself.
  subst st. destruct (generate_summary_spec env m2) as (_ & Hsum & _).
  rewrite Hsum, Hself. apply foldl_consume_fields; reflexivity.
Qed.

Lemma confirmed_supervised_matches_automatic_witness :
  let s := snd (session (Smart.run sample_env) sample_env "job" "out" "supervised"
                  "layers.csv" (boot [""; ""; ""] [[2]; [1; 0]])) in
  let a := snd (session (Smart.run sample_env) sample_env "job" "out" "automatic"
                  "layers.csv" (boot [] [[1; 2; 0; 1]])) in
  successful_layers (self s) = successful_layers (self a) /\
  failed_layers (self s) = failed_layers (self a) /\
  error_log (self s) = error_log (self a).
Proof.
  apply (confirmed_supervised_matches_automatic sample_env "job" "out"
           "supervised" "automatic" "layers.csv" sample_rows
           [""; ""; ""] [[2]; [1; 0]] [] [[1; 2; 0; 1]]);
    try reflexivity; simpl; lia.
Defined.

(** ** Further properties: how far the prefetching mode runs ahead *)

Lemma retrieve_locals l m l' :
  fst (Smart.retrieve l m) = Normal l' ->
  Smart.pc l' = Smart.Refill /\
  Smart.current_index l' = Smart.current_index l + 1 /\
  Smart.next_index_to_prefetch l' = Smart.next_index_to_prefetch l /\
  Smart.n_layers l' = Smart.n_layers l.
Proof.
  unfold Smart.retrieve. unfold bind at 1.
  match goal with |- context [match ?x m with _ => _ end] => destruct (x m) as [[store|code|e] m1] end;
    simpl; intros [= <-]; done.
Qed.

Lemma prompt_locals env l m :
  Smart.pc l = Smart.LoopHead ->
  exists c, snd (Smart.step env (m, l)) = Smart.goto c l /\
            (c = Smart.Retrieve \/ exists st, c = Smart.Finished st).
Proof.
  intros Hat. unfold Smart.step, Smart.step_body. rewrite Hat.
  destruct (Smart.current_index l <? Smart.n_layers l); simpl; [|eauto].
  unfold bind.
  destruct (run_in_executor_input _ m) as [[line|code|e] m1]; simpl; [|eauto..].
  destruct (String.eqb _ _); simpl; eauto.
Qed.

Lemma step_pace env mw ifill rows m0 m l :
  1 <= ifill <= mw ->
  prefetch_inv env mw ifill rows m0 m l -> pace mw ifill l ->
  pace mw ifill (snd (Smart.step env (m, l))).
Proof.
  intros Hfill Hinv Hpace.
  pose proof Hinv as [Hmax Hini Htot _ _ Hbnd _ Hsize Hwin _ _ _ _ _ Hpc _].
  destruct (Smart.pc l) eqn:Hat.
  - unfold Smart.step, Smart.step_body. rewrite Hat.
    destruct ((Smart.next_index_to_prefetch l <? Smart.n_layers l)
              && (size (Smart.prefetched l) <? Smart.initial_prefetch l)) eqn:Hcond.
    + apply andb_true_iff in Hcond as [Hn _]. apply Nat.ltb_lt in Hn.
      rewrite Htot in Hn. rewrite (launch_spec env mw ifill rows m0 m l Hinv Hn).
      unfold pace. simpl. by rewrite Hat.
    + simpl. unfold pace, lookahead. simpl.
      destruct Hpc as [Hcur Hle]. rewrite Hcur. simpl.
      apply andb_false_iff in Hcond as [Hc|Hc]; apply Nat.ltb_ge in Hc; lia.
  - destruct (prompt_locals env l m Hat) as (c & -> & Hc).
    unfold pace in *. rewrite Hat in Hpace. simpl.
    destruct Hc as [-> | [st ->]]; exact Hpace.
  - unfold Smart.step, Smart.step_body. rewrite Hat.
    destruct (retrieve_inv env mw ifill rows m0 Hfill m l Hinv Hat) as (l' & E & _ & _).
    destruct (retrieve_locals l m l' E) as (Hp & Hc & _).
    destruct (Smart.retrieve l m) as [st m']. simpl in E. subst st. simpl.
    unfold pace. rewrite Hp. lia.
  - unfold Smart.step, Smart.step_body. rewrite Hat.
    unfold pace in Hpace. rewrite Hat in Hpace.
    destruct ((Smart.next_index_to_prefetch l <? Smart.n_layers l)
              && (size (Smart.prefetched l) <? Smart.max_prefetch l)) eqn:Hcond.
    + apply andb_true_iff in Hcond as [Hn _]. apply Nat.ltb_lt in Hn.
      rewrite Htot in Hn. rewrite (launch_spec env mw ifill rows m0 m l Hinv Hn).
      unfold pace. simpl. by rewrite Hat.
    + simpl. unfold pace, lookahead. simpl.
      destruct (Nat.eqb_spec (Smart.current_index l) 0) as [Hz|_]; [lia|].
      apply andb_false_iff in Hcond as [Hc|Hc]; apply Nat.ltb_ge in Hc; lia.
  - unfold Smart.step. rewrite Hat. exact Hpace.
Qed.

Lemma steps_pace env mw ifill rows m0 n m l :
  1 <= ifill <= mw ->
  prefetch_inv env mw ifill rows m0 m l -> pace mw ifill l ->
  pace mw ifill (snd (Smart.steps env n (m, l))).
Proof.
  intros Hfill. revert m l. induction n as [|n IH]; intros m l Hinv Hpace; [done|].
  simpl. pose proof (step_inv env mw ifill rows m0 Hfill m l Hinv) as [Hi _].
  pose proof (step_pace env mw ifill rows m0 m l Hfill Hinv Hpace) as Hp.
  destruct (Smart.step env (m, l)) as [m' l']. by apply IH.
Qed.

(** X11. In the prefetching supervised mode, for all window sizes
    [1 <= initial_fill <= max_window], after any number of transitions: the
    tasks created so far are those of rows [0 .. next_index_to_prefetch - 1],
    one each and in row order, and whenever control is outside the two
    prefetch loops the producer is exactly [lookahead] rows ahead:
    [min total initial_fill] rows before the first row is consumed,
    [min total (current_index + max_window)] afterwards. *)
Theorem prefetch_pace_invariant env max_window initial_fill rows m0 n :
  1 <= initial_fill <= max_window ->
  csv_data (self m0) = Some rows -> tasks m0 = [] ->
  let c := Smart.steps env n (m0, Smart.entry max_window initial_fill (length rows)) in
  created (trace (fst c)) =
    created (trace m0) ++ seq 0 (Smart.next_index_to_prefetch (snd c)) /\
  Smart.n_layers (snd c) = length rows /\
  pace max_window initial_fill (snd c).
Proof.
  intros Hfill Hdata Htasks c.
  pose proof (inv_entry env max_window initial_fill rows m0 Hfill Hdata Htasks) as Hinv0.
  pose proof (steps_inv env max_window initial_fill rows m0 Hfill n m0 _ Hinv0)
    as Hinv.
  pose proof (steps_pace env max_window initial_fill rows m0 n m0 _ Hfill Hinv0 I)
    as Hpace.
  fold c in Hinv, Hpace.
  split; [apply Hinv|]. split; [apply Hinv|exact Hpace].
Qed.

Lemma prefetch_pace_invariant_witness :
  let c := Smart.steps sample_env 5 (sample_machine, Smart.entry 2 1 (length sample_rows)) in
  created (trace (fst c)) =
    created (trace sample_machine) ++ seq 0 (Smart.next_index_to_prefetch (snd c)) /\
  Smart.n_layers (snd c) = length sample_rows /\
  pace 2 1 (snd c).
Proof.
  apply (prefetch_pace_invariant sample_env 2 1 sample_rows sample_machine 5);
    [lia | reflexivity | reflexivity].
Defined.

Lemma supervised_run_pace env mw ifill rows m :
  1 <= ifill <= mw ->
  csv_data (self m) = Some rows -> total_layers (self m) = length rows ->
  tasks m = [] ->
  exists l',
    prefetch_inv env mw ifill rows m
      (snd (Smart.supervised_mode_async_with mw ifill env m)) l' /\
    pace mw ifill l' /\
    Smart.pc l' =
      Smart.Finished (fst (Smart.supervised_mode_async_with mw ifill env m)).
Proof.
  intros Hfill Hdata Htotal Htasks.
  pose proof (inv_entry env mw ifill rows m Hfill Hdata Htasks) as Hinv0.
  unfold Smart.supervised_mode_async_with. rewrite Htotal.
  pose proof (steps_inv env mw ifill rows m Hfill
                (Smart.budget (length rows)) m _ Hinv0) as Hinv.
  pose proof (steps_pace env mw ifill rows m (Smart.budget (length rows)) m _
                Hfill Hinv0 I) as Hpace.
  destruct (steps_finish env mw ifill rows m Hfill
              (Smart.budget (length rows)) m _ Hinv0) as [st Hst].
  { unfold potential, Smart.budget. simpl. lia. }
  destruct (Smart.steps env (Smart.budget (length rows))
              (m, Smart.entry mw ifill (length rows))) as [m' l'].
  simpl in *. rewrite Hst. simpl. eauto.
Qed.

(** X12. A whole run of [smart_driver.py] in supervised mode: when the user
    has confirmed [k] rows (before a 'q', the end of the input or the end of
    the rows), tasks have been created for exactly the rows
    [0 .. lookahead 10 6 total k - 1], in row order: the first
    [min total 6] rows when no row was confirmed, the first
    [min total (k + 10)] otherwise.  Tasks are thus created also for rows
    that were never confirmed. *)
Theorem prefetch_runs_ahead env name folder mode_arg csv_file rows lines oracle :
  lower mode_arg = "supervised" ->
  out_makedirs_res env = None -> read_csv env csv_file = inr rows ->
  let final :=
    snd (session (Smart.run env) env name folder mode_arg csv_file
           (boot lines oracle)) in
  let k := Nat.min (confirmations lines) (length rows) in
  created (trace final) = seq 0 (lookahead 10 6 (length rows) k) /\
  k <= lookahead 10 6 (length rows) k <= length rows.
Proof.
  intros Hmode Hdir Hcsv final k. subst final. unfold Smart.run.
  rewrite (session_loaded _ _ _ _ _ _ _ rows) by done.
  rewrite Hmode. simpl String.eqb. cbv iota.
  set (m1 := loaded name folder mode_arg csv_file rows lines oracle).
  destruct (supervised_run_pace env 10 6 rows m1) as (l' & Hinv & Hpace & Hpc);
    [lia|reflexivity|reflexivity|reflexivity|].
  fold (Smart.supervised_mode_async env) in Hinv, Hpc.
  unfold bind.
  destruct (Smart.supervised_mode_async env m1) as [st m2]. simpl in Hinv, Hpc.
  assert (Hcre : created (trace m2) = seq 0 (lookahead 10 6 (length rows) k) /\
                 k <= lookahead 10 6 (length rows) k <= length rows).
  { destruct Hinv as [_ _ Htot _ _ Hbnd _ _ _ _ _ _ _ Hcre Hfin _].
    unfold pace in Hpace. rewrite Hpc in Hpace, Hfin. destruct Hfin as [Hk _].
    simpl in Hcre, Hk. fold k in Hk.
    rewrite Hcre, Hpace, Htot, Hk. split; [done|].
    rewrite Hpace, Htot, Hk in Hbnd. exact Hbnd. }
  destruct Hcre as [Hcre Hbnd]. split; [|exact Hbnd].
  destruct st as [[]|code|e]; simpl; try exact Hcre.
  destruct (generate_summary_spec env m2) as (_ & _ & evs & -> & Hc & _).
  by rewrite created_app, Hc, app_nil_r.
Qed.

Lemma prefetch_runs_ahead_witness :
  let final :=
    snd (session (Smart.run sample_env) sample_env "job" "out" "supervised"
           "layers.csv" (boot ["q"] [[0]])) in
  let k := Nat.min (confirmations ["q"]) (length sample_rows) in
  created (trace final) = seq 0 (lookahead 10 6 (length sample_rows) k) /\
  k <= lookahead 10 6 (length sample_rows) k <= length sample_rows.
Proof.
  apply (prefetch_runs_ahead sample_env "job" "out" "supervised" "layers.csv"
           sample_rows ["q"] [[0]]);
    reflexivity.
Defined.

(** ** Further properties: the two sequential modes of [normal_driver.py] *)

(** What the synchronous [print_layer] does to the object depends on the
    object only, and it reads no input. *)
Lemma print_layer_sync_frame env catches no_image index layer m m' :
  self m = self m' ->
  same_status (fst (print_layer_sync env catches no_image index layer m))
    (fst (print_layer_sync env catches no_image index layer m')) /\
  self (snd (print_layer_sync env catches no_image index layer m))
  = self (snd (print_layer_sync env catches no_image index layer m')) /\
  stdin (snd (print_layer_sync env catches no_image index layer m)) = stdin m.
Proof.
  destruct m as [p i t ts sc], m' as [p' i' t' ts' sc']. simpl.
  intros <-. unfold print_layer_sync. cbv zeta.
  destruct (makedirs_res _); [run_m; done|].
  destruct (write_data_res _); [run_m; done|].
  destruct (truthy _); [|run_m; done].
  destruct (http_res _) as [e|content].
  - run_m. destruct (catches e); done.
  - destruct (write_image_res _) as [e|]; [|run_m; done].
    run_m. destruct (catches e); done.
Qed.

Lemma supervised_rows_confirmed process choice_prompt index layer rest m line lines :
  stdin m = line :: lines -> is_quit line = false -> error_free layer = true ->
  supervised_rows process choice_prompt ((index, layer) :: rest) m =
  (process index layer ;; supervised_rows process choice_prompt rest)
    {| self := self m; stdin := lines;
       trace := trace m ++
                [EvInput (PromptPrint
                            (series_get layer "Layer Number" (PStr "unknown")))];
       tasks := tasks m; sched := sched m |}.
Proof.
  intros Hin Hq Hrow. unfold is_quit in Hq. unfold error_free in Hrow.
  apply negb_true_iff in Hrow.
  cbn [supervised_rows]. cbv zeta. rewrite Hrow.
  unfold bind at 1. unfold input. rewrite Hin, Hq. reflexivity.
Qed.

Lemma automatic_rows_clean env index layer rest m :
  error_free layer = true ->
  Normal.automatic_rows env ((index, layer) :: rest) m =
  (Normal.print_layer env index layer ;; emit EvSleep ;;
   Normal.automatic_rows env rest) m.
Proof.
  intros Hrow. unfold error_free in Hrow. apply negb_true_iff in Hrow.
  cbn [Normal.automatic_rows]. cbv zeta. rewrite Hrow. reflexivity.
Qed.

Lemma sequential_rows_agree env rows m m' :
  Forall (fun il => error_free (snd il) = true) rows ->
  length rows <= confirmations (stdin m) -> self m = self m' ->
  same_status
    (fst (supervised_rows (Normal.print_layer env) PromptChoiceNormal rows m))
    (fst (Normal.automatic_rows env rows m')) /\
  self (snd (supervised_rows (Normal.print_layer env) PromptChoiceNormal rows m))
  = self (snd (Normal.automatic_rows env rows m')).
Proof.
  intros Hfree. revert m m'.
  induction Hfree as [|[index layer] rest Hrow _ IH]; intros m m' Hconf Hself;
    [done|].
  simpl in Hrow, Hconf.
  destruct (stdin m) as [|line lines] eqn:Hin; simpl in Hconf; [lia|].
  destruct (is_quit line) eqn:Hq; [lia|].
  rewrite (supervised_rows_confirmed _ _ _ _ _ _ line lines Hin Hq Hrow).
  rewrite (automatic_rows_clean _ _ _ _ _ Hrow).
  set (m1 := {| self := self m; stdin := lines; trace := _;
                tasks := tasks m; sched := sched m |}).
  destruct (print_layer_sync_frame env is_request_exception MsgNoImageSkipping
              index layer m1 m' Hself) as (Hst & Hs & Hi).
  fold (Normal.print_layer env) in Hst, Hs, Hi.
  unfold bind.
  destruct (Normal.print_layer env index layer m1) as [[[]|code|e] m2];
    destruct (Normal.print_layer env index layer m') as [[[]|code'|e'] m2'];
    simpl in Hst, Hs, Hi; try done.
  unfold emit. apply IH; simpl; [rewrite Hi; lia|exact Hs].
Qed.

Lemma iterrows_loaded m rows :
  csv_data (self m) = Some rows -> iterrows m = (Normal (enumerate_from 0 rows), m).
Proof. intros Hdata. unfold iterrows, get_self, bind, ret. by rewrite Hdata. Qed.

(** X13. With [normal_driver.py], on a data frame without inherent errors
    and with every row confirmed, the supervised mode and the automatic mode
    do the same to the object: they end in the same way (both return, or
    both raise the same exception at the same row) with the same counters
    and the same error log. *)
Theorem sequential_modes_agree env m m' rows :
  csv_data (self m) = Some rows -> self m' = self m ->
  Forall (fun layer => error_free layer = true) rows ->
  length rows <= confirmations (stdin m) ->
  same_status (fst (Normal.supervised_mode env m))
    (fst (Normal.automatic_mode env m')) /\
  self (snd (Normal.supervised_mode env m))
  = self (snd (Normal.automatic_mode env m')).
Proof.
  intros Hdata Hself Hfree Hconf.
  assert (Hdata' : csv_data (self m') = Some rows) by (by rewrite Hself).
  unfold Normal.supervised_mode, supervised_mode_sync, Normal.automatic_mode, bind.
  rewrite (iterrows_loaded m rows Hdata), (iterrows_loaded m' rows Hdata').
  apply sequential_rows_agree; [|by rewrite enumerate_from_length|done].
  rewrite enumerate_seq.
  apply Forall_forall. intros [i layer] Hin.
  apply list_elem_of_In, in_map_iff in Hin as (j & [= <- <-] & Hj).
  apply in_seq in Hj. simpl. unfold row.
  destruct (rows !! j) as [l0|] eqn:Hl; [|done].
  rewrite Forall_forall in Hfree. apply Hfree.
  by apply list_elem_of_lookup_2 in Hl.
Qed.

Lemma sequential_modes_agree_witness :
  same_status (fst (Normal.supervised_mode sample_env clean_machine))
    (fst (Normal.automatic_mode sample_env clean_machine)) /\
  self (snd (Normal.supervised_mode sample_env clean_machine))
  = self (snd (Normal.automatic_mode sample_env clean_machine)).
Proof.
  apply (sequential_modes_agree sample_env clean_machine clean_machine
           (take 2 sample_rows));
    [reflexivity | reflexivity | repeat constructor | vm_compute; lia].
Defined.

(** ** Further properties: the dialogue of the prefetching mode *)

Lemma retrieve_dialogue env mw ifill rows m0 m l :
  prefetch_inv env mw ifill rows m0 m l -> Smart.pc l = Smart.Retrieve ->
  prompts (trace (snd (Smart.retrieve l m))) = prompts (trace m) /\
  stdin (snd (Smart.retrieve l m)) = stdin m.
Proof.
  intros Hinv Hat.
  destruct (await_spec env mw ifill rows m0 m l Hinv Hat) as (m1 & Hq & Hcur & Hawait).
  pose proof (inv_quiet env mw ifill rows m0 m m1 l Hinv Hq) as Hinv1.
  destruct Hq as (_ & Hin & _ & (evs & Htr & Hev) & _).
  destruct (task_events_silent evs Hev) as (_ & _ & Hp & _).
  pose proof (inv_store _ _ _ _ _ _ _ Hinv (Smart.current_index l)) as Hst.
  pose proof (inv_pc _ _ _ _ _ _ _ Hinv) as Hpc. rewrite Hat in Hpc.
  destruct Hpc as [Hlt Hnext].
  rewrite decide_True in Hst by lia.
  assert (Hsame : forall ev, prompts [ev] = [] ->
            prompts (trace m1 ++ [ev]) = prompts (trace m)).
  { intros ev Hev1. rewrite prompts_app, Htr, prompts_app, Hp, Hev1, !app_nil_r. done. }
  unfold Smart.retrieve. rewrite Hst.
  unfold bind, try_except. rewrite Hawait.
  pose proof (run_to_end_done (row_coro env (output_folder (self m0)) rows
                                 (Smart.current_index l))) as Hdone.
  destruct (final (row_coro env (output_folder (self m0)) rows (Smart.current_index l)))
    as [[[n success] error]|e| |]; try discriminate Hdone.
  - destruct success; unfold_m; simpl; (split; [by apply Hsame|done]).
  - unfold any_exception. unfold_m. cbv beta iota.
    rewrite (inv_data _ _ _ _ _ _ _ Hinv1).
    destruct (lookup_lt_is_Some_2 rows _ Hlt) as [layer Hlayer].
    rewrite Hlayer. simpl. split; [by apply Hsame|done].
Qed.

Lemma step_dialogue env mw ifill rows m0 m l :
  1 <= ifill <= mw ->
  prefetch_inv env mw ifill rows m0 m l -> dialogue m0 m l ->
  dialogue m0 (fst (Smart.step env (m, l))) (snd (Smart.step env (m, l))).
Proof.
  intros Hfill Hinv (Hpr & Hin & Hans).
  pose proof Hinv as [_ _ Htot _ _ _ _ _ _ Htasks _ _ _ _ _ _].
  assert (Hloop : forall bound,
            Smart.pc l = Smart.InitialPrefetch \/ Smart.pc l = Smart.Refill ->
            let r := (if (Smart.next_index_to_prefetch l <? Smart.n_layers l)
                         && (size (Smart.prefetched l) <? bound)
                      then Smart.launch env l
                      else ret (Smart.goto Smart.LoopHead l)) m in
            exists l', fst r = Normal l' /\ asked l' = asked l /\
                       prompts (trace (snd r)) = prompts (trace m) /\
                       stdin (snd r) = stdin m /\
                       (Smart.pc l' = Smart.pc l \/ Smart.pc l' = Smart.LoopHead)).
  { intros bound Hat.
    destruct ((Smart.next_index_to_prefetch l <? Smart.n_layers l)
              && (size (Smart.prefetched l) <? bound)) eqn:Hcond; simpl.
    - apply andb_true_iff in Hcond as [Hn _]. apply Nat.ltb_lt in Hn.
      rewrite Htot in Hn. rewrite (launch_spec env mw ifill rows m0 m l Hinv Hn).
      eexists. split; [reflexivity|]. simpl.
      split; [unfold asked; simpl; done|].
      split; [|split; [done|by left]].
      rewrite prompts_app. simpl. by rewrite app_nil_r.
    - eexists. split; [reflexivity|]. simpl.
      split; [|split; [done|split; [done|by right]]].
      unfold asked. simpl. destruct Hat as [-> | ->]; done. }
  unfold dialogue, Smart.step.
  destruct (Smart.pc l) eqn:Hat.
  - unfold Smart.step_body. rewrite Hat.
    destruct (Hloop (Smart.initial_prefetch l)) as (l' & E & Ha & Hp & Hi & Hpc');
      [by left|].
    simpl in E, Hp, Hi.
    match type of E with fst ?x = _ => destruct x as [st m'] end.
    simpl in *. subst st. simpl. rewrite Ha, Hp, Hi.
    split; [done|]. split; [done|]. by destruct Hpc' as [-> | ->].
  - unfold Smart.step_body. rewrite Hat.
    assert (Hask : asked l = Smart.current_index l)
      by (unfold asked; rewrite Hat; lia).
    rewrite Hask in Hpr, Hin, Hans.
    destruct (Smart.current_index l <? Smart.n_layers l) eqn:Hcur.
    2: { simpl. unfold asked. simpl. rewrite Hcur, Nat.add_0_r. done. }
    unfold bind, run_in_executor_input.
    set (p := PromptProcess (Smart.current_index l)).
    set (ma := with_trace (fun tr => tr ++ [EvInput p]) m).
    destruct (suspend_quiet _ ma Htasks) as (_ & Ei & _ & (evs & Et & Hev) & _).
    destruct (task_events_silent evs Hev) as (_ & _ & Hp & _).
    assert (Hpr1 : prompts (trace (suspend ma)) =
                   prompts (trace m0) ++
                   map PromptProcess (seq 0 (Smart.current_index l + 1))).
    { rewrite Et, prompts_app, Hp, app_nil_r. subst ma. simpl.
      rewrite prompts_app, Hpr, seq_app, map_app, <- app_assoc. done. }
    assert (Hin1 : stdin (suspend ma) = drop (Smart.current_index l) (stdin m0))
      by (rewrite Ei; exact Hin).
    assert (Hask1 : forall c,
              c = Smart.Retrieve \/ (exists st, c = Smart.Finished st) ->
              asked (Smart.goto c l) = Smart.current_index l + 1).
    { intros c [-> | [st ->]]; unfold asked; simpl; [done|by rewrite Hcur]. }
    destruct (stdin (suspend ma)) as [|line rest] eqn:Hlines.
    + simpl. rewrite Hask1 by eauto. split; [done|]. split; [|done].
      rewrite Hlines, <- drop_drop, <- Hin1. done.
    + assert (Hlen : Smart.current_index l + 1 <= length (stdin m0)).
      { pose proof (f_equal length Hin1) as Hl.
        rewrite length_drop in Hl. simpl in Hl. lia. }
      simpl. destruct (String.eqb (lower (strip line)) "q"); simpl;
        rewrite Hask1 by eauto.
      * unfold_m. simpl. rewrite prompts_app, Hpr1. simpl. rewrite app_nil_r.
        split; [done|]. split; [|done].
        rewrite Hlines, <- drop_drop, <- Hin1. done.
      * split; [done|]. split; [|done].
        rewrite Hlines, <- drop_drop, <- Hin1. done.
  - unfold Smart.step_body. rewrite Hat.
    destruct (retrieve_inv env mw ifill rows m0 Hfill m l Hinv Hat) as (l' & E & _ & _).
    destruct (retrieve_locals l m l' E) as (Hp' & Hc & _).
    destruct (retrieve_dialogue env mw ifill rows m0 m l Hinv Hat) as [Hp Hi].
    destruct (Smart.retrieve l m) as [st m']. simpl in E, Hp, Hi. subst st. simpl.
    assert (Ha : asked l' = asked l) by (unfold asked; rewrite Hp', Hat; lia).
    rewrite Ha, Hp, Hi, Hp'. done.
  - unfold Smart.step_body. rewrite Hat.
    destruct (Hloop (Smart.max_prefetch l)) as (l' & E & Ha & Hp & Hi & Hpc');
      [by right|].
    simpl in E, Hp, Hi.
    match type of E with fst ?x = _ => destruct x as [st' m'] end.
    simpl in *. subst st'. simpl. rewrite Ha, Hp, Hi.
    split; [done|]. split; [done|]. by destruct Hpc' as [-> | ->].
  - simpl. rewrite Hat. done.
Qed.

Lemma steps_dialogue env mw ifill rows m0 n m l :
  1 <= ifill <= mw ->
  prefetch_inv env mw ifill rows m0 m l -> dialogue m0 m l ->
  dialogue m0 (fst (Smart.steps env n (m, l))) (snd (Smart.steps env n (m, l))).
Proof.
  intros Hfill. revert m l. induction n as [|n IH]; intros m l Hinv Hd; [done|].
  simpl. pose proof (step_inv env mw ifill rows m0 Hfill m l Hinv) as [Hi _].
  pose proof (step_dialogue env mw ifill rows m0 m l Hfill Hinv Hd) as Hd'.
  destruct (Smart.step env (m, l)) as [m' l']. by apply IH.
Qed.

(** The summary shows no prompt and reads no input. *)
Lemma generate_summary_dialogue env m :
  prompts (trace (snd (generate_summary env m))) = prompts (trace m) /\
  stdin (snd (generate_summary env m)) = stdin m.
Proof.
  unfold generate_summary. unfold_m. unfold any_exception.
  destruct (summary_res env), (chart_res env); simpl;
    rewrite ?prompts_app; simpl; rewrite ?app_nil_r; done.
Qed.

(** The method, run from a machine that holds the data frame [rows] and an
    empty event loop, ends with the invariant and the dialogue as stated. *)
Lemma supervised_run_dialogue env mw ifill rows m :
  1 <= ifill <= mw ->
  csv_data (self m) = Some rows -> total_layers (self m) = length rows ->
  tasks m = [] ->
  exists l',
    prefetch_inv env mw ifill rows m
      (snd (Smart.supervised_mode_async_with mw ifill env m)) l' /\
    dialogue m (snd (Smart.supervised_mode_async_with mw ifill env m)) l' /\
    Smart.pc l' =
      Smart.Finished (fst (Smart.supervised_mode_async_with mw ifill env m)).
Proof.
  intros Hfill Hdata Htotal Htasks.
  pose proof (inv_entry env mw ifill rows m Hfill Hdata Htasks) as Hinv0.
  assert (Hd0 : dialogue m m (Smart.entry mw ifill (length rows))).
  { split; [|split]; [simpl; by rewrite ?app_nil_r | done | apply Nat.le_0_l]. }
  unfold Smart.supervised_mode_async_with. rewrite Htotal.
  pose proof (steps_inv env mw ifill rows m Hfill
                (Smart.budget (length rows)) m _ Hinv0) as Hinv.
  pose proof (steps_dialogue env mw ifill rows m (Smart.budget (length rows)) m _
                Hfill Hinv0 Hd0) as Hd.
  destruct (steps_finish env mw ifill rows m Hfill
              (Smart.budget (length rows)) m _ Hinv0) as [st Hst].
  { unfold potential, Smart.budget. simpl. lia. }
  destruct (Smart.steps env (Smart.budget (length rows))
              (m, Smart.entry mw ifill (length rows))) as [m' l'].
  simpl in *. rewrite Hst. simpl. eauto.
Qed.

(** X14. A whole run of [smart_driver.py] in supervised mode: the prompts
    shown are "Press Enter to process layer i" for the row positions
    [i = 0, 1, ..] in order, one for each confirmed row and one more for the
    row at which the user answered 'q' or the input ended; exactly one line
    of input is read per prompt, and what was typed after the 'q' is left
    unread. *)
Theorem prefetch_prompts_once_per_row env name folder mode_arg csv_file rows
    lines oracle :
  lower mode_arg = "supervised" ->
  out_makedirs_res env = None -> read_csv env csv_file = inr rows ->
  let final :=
    snd (session (Smart.run env) env name folder mode_arg csv_file
           (boot lines oracle)) in
  let k := Nat.min (confirmations lines) (length rows) in
  let shown := if k <? length rows then k + 1 else k in
  prompts (trace final) = map PromptProcess (seq 0 shown) /\
  stdin final = drop shown lines.
Proof.
  intros Hmode Hdir Hcsv final k shown. subst final. unfold Smart.run.
  rewrite (session_loaded _ _ _ _ _ _ _ rows) by done.
  rewrite Hmode. simpl String.eqb. cbv iota.
  set (m1 := loaded name folder mode_arg csv_file rows lines oracle).
  destruct (supervised_run_dialogue env 10 6 rows m1) as (l2 & Hinv & Hd & Hst);
    [lia|reflexivity|reflexivity|reflexivity|].
  fold (Smart.supervised_mode_async env) in Hinv, Hd, Hst.
  unfold bind.
  destruct (Smart.supervised_mode_async env m1) as [st m2]. simpl in Hinv, Hd, Hst.
  assert (Hask : asked l2 = shown).
  { destruct Hinv as [_ _ Htot _ _ _ _ _ _ _ _ _ _ _ Hfin _].
    rewrite Hst in Hfin. destruct Hfin as [Hk _]. simpl in Hk. fold k in Hk.
    unfold asked, shown. rewrite Hst, Htot, Hk.
    destruct (k <? length rows); lia. }
  destruct Hd as (Hp & Hi & _). rewrite Hask in Hp, Hi. simpl in Hp, Hi.
  destruct st as [[]|code|e]; simpl; [|done..].
  destruct (generate_summary_dialogue env m2) as [-> ->]. done.
Qed.

Lemma prefetch_prompts_once_per_row_witness :
  let final :=
    snd (session (Smart.run sample_env) sample_env "job" "out" "supervised"
           "layers.csv" (boot [""; "q"; "later"] [[0]; [1; 2]])) in
  let k := Nat.min (confirmations [""; "q"; "later"]) (length sample_rows) in
  let shown := if k <? length sample_rows then k + 1 else k in
  prompts (trace final) = map PromptProcess (seq 0 shown) /\
  stdin final = drop shown [""; "q"; "later"].
Proof.
  apply (prefetch_prompts_once_per_row sample_env "job" "out" "supervised"
           "layers.csv" sample_rows [""; "q"; "later"] [[0]; [1; 2]]);
    reflexivity.
Defined.

Lemma confirmations_all lines :
  Forall (fun line => is_quit line = false) lines ->
  confirmations lines = length lines.
Proof.
  intros H. rewrite <- (app_nil_r lines) at 1.
  rewrite confirmations_app by done. simpl. lia.
Qed.

(** X15. A run of [smart_driver.py] in supervised mode whose input ends
    before the rows do, without a 'q' (a closed or too short standard
    input): the program ends with [EOFError] at the prompt that got no line,
    where the mode ends, so that [generate_summary] is not run; the rows
    confirmed until then have been counted. *)
Theorem input_exhausted_no_summary env name folder mode_arg csv_file rows
    lines oracle :
  lower mode_arg = "supervised" ->
  out_makedirs_res env = None -> read_csv env csv_file = inr rows ->
  Forall (fun line => is_quit line = false) lines ->
  length lines < length rows ->
  let r := session (Smart.run env) env name folder mode_arg csv_file
             (boot lines oracle) in
  fst r = Uncaught eof /\
  r = Smart.supervised_mode_async env
        (loaded name folder mode_arg csv_file rows lines oracle) /\
  prompts (trace (snd r)) = map PromptProcess (seq 0 (length lines + 1)) /\
  self (snd r) =
    foldl consume (fresh name folder mode_arg rows)
      (map (row_outcome env folder rows) (seq 0 (length lines))).
Proof.
  intros Hmode Hdir Hcsv Hconf Hshort r. subst r. unfold Smart.run.
  rewrite (session_loaded _ _ _ _ _ _ _ rows) by done.
  rewrite Hmode. simpl String.eqb. cbv iota.
  set (m1 := loaded name folder mode_arg csv_file rows lines oracle).
  destruct (supervised_run_dialogue env 10 6 rows m1) as (l2 & Hinv & Hd & Hst);
    [lia|reflexivity|reflexivity|reflexivity|].
  fold (Smart.supervised_mode_async env) in Hinv, Hd, Hst.
  unfold bind.
  destruct (Smart.supervised_mode_async env m1) as [st m2]. simpl in Hinv, Hd, Hst.
  destruct Hinv as [_ _ Htot _ _ _ _ _ _ _ _ Hself _ _ Hfin _].
  destruct Hd as (Hp & _ & Hans).
  rewrite Hst in Hfin, Hans. destruct Hfin as [Hk Hend]. simpl in Hk, Hans, Hself, Hp.
  rewrite (confirmations_all lines Hconf), Nat.min_l in Hk by lia.
  assert (Hask : asked l2 = length lines + 1).
  { unfold asked. rewrite Hst, Htot, Hk.
    destruct (Nat.ltb_spec (length lines) (length rows)); lia. }
  rewrite Hask in Hp, Hans. rewrite Hk in Hself.
  destruct st as [[]|code|e]; [lia|done|].
  destruct Hend as [-> _]. simpl. done.
Qed.

Lemma input_exhausted_no_summary_witness :
  let r := session (Smart.run sample_env) sample_env "job" "out" "supervised"
             "layers.csv" (boot [""; "yes"] [[1]; [0; 2]]) in
  fst r = Uncaught eof /\
  r = Smart.supervised_mode_async sample_env
        (loaded "job" "out" "supervised" "layers.csv" sample_rows [""; "yes"]
           [[1]; [0; 2]]) /\
  prompts (trace (snd r)) = map PromptProcess (seq 0 (length [""; "yes"] + 1)) /\
  self (snd r) =
    foldl consume (fresh "job" "out" "supervised" sample_rows)
      (map (row_outcome sample_env "out" sample_rows) (seq 0 (length [""; "yes"]))).
Proof.
  apply (input_exhausted_no_summary sample_env "job" "out" "supervised"
           "layers.csv" sample_rows [""; "yes"] [[1]; [0; 2]]);
    [reflexivity | reflexivity | reflexivity | repeat constructor | simpl; lia].
Defined.

(** ** The counters and the way the program stops *)

Lemma print_layer_sync_returns env catches no_image index layer m :
  makedirs_res (row_io env index) = None ->
  (forall e, image_failed layer (row_io env index) e -> catches e = true) ->
  fst (print_layer_sync env catches no_image index layer m) = Normal tt.
Proof.
  intros Hdir Hcatch. unfold print_layer_sync. cbv zeta. rewrite Hdir.
  destruct (write_data_res _); [run_m; done|].
  destruct (truthy _) eqn:Hurl; [|run_m; done].
  destruct (http_res _) as [e|content] eqn:Hget.
  - pose proof (Hcatch e (conj Hurl (or_introl Hget))) as Hc.
    run_m. rewrite Hc. done.
  - destruct (write_image_res _) as [e|] eqn:Hput; [|run_m; done].
    assert (Hc : catches e = true).
    { apply Hcatch. split; [done|]. right. exists content. done. }
    run_m. rewrite Hc. done.
Qed.

Lemma supervised_rows_status process choice_prompt rows m :
  (forall index layer m', In (index, layer) rows ->
     fst (process index layer m') = Normal tt) ->
  returns_or_eof (supervised_rows process choice_prompt rows m).
Proof.
  unfold returns_or_eof.
  revert m. induction rows as [|[index layer] rest IH]; intros m Hrows.
  { left. reflexivity. }
  assert (Hrest : forall m1,
            fst (supervised_rows process choice_prompt rest m1) = Normal tt \/
            fst (supervised_rows process choice_prompt rest m1) = Uncaught eof).
  { intros m1. apply IH. intros i l m' Hin. apply Hrows. by right. }
  cbn [supervised_rows]. unfold_m.
  destruct (stdin m) as [|line lines]; simpl; [by right|].
  destruct (String.eqb (lower (strip line)) "q"); simpl; [by left|].
  set (after := fun (m1 : machine) =>
    match process index layer m1 with
    | (Normal _, m2) => supervised_rows process choice_prompt rest m2
    | (SysExit code, m2) => (SysExit code, m2)
    | (Uncaught e, m2) => (Uncaught e, m2)
    end).
  assert (Hafter : forall m1,
            fst (after m1) = Normal tt \/ fst (after m1) = Uncaught eof).
  { intros m1. subst after. cbv beta.
    pose proof (Hrows index layer m1 (or_introl eq_refl)) as Hp.
    destruct (process index layer m1) as [[[]|code|e] m2]; try discriminate Hp.
    apply Hrest. }
  destruct (py_ne _ _); simpl.
  - destruct lines as [|line' lines']; simpl; [by right|].
    destruct (String.eqb (lower (strip line')) "e"); simpl; [by left|].
    match goal with
    | |- context [after ?m1] => pose proof (Hafter m1) as H
    end.
    subst after. simpl in H |- *. exact H.
  - match goal with
    | |- context [after ?m1] => pose proof (Hafter m1) as H
    end.
    subst after. simpl in H |- *. exact H.
Qed.

Lemma automatic_rows_status env rows m :
  (forall index layer m', In (index, layer) rows ->
     fst (Normal.print_layer env index layer m') = Normal tt) ->
  fst (Normal.automatic_rows env rows m) = Normal tt.
Proof.
  revert m. induction rows as [|[index layer] rest IH]; intros m Hrows; [done|].
  assert (Hrest : forall m1, fst (Normal.automatic_rows env rest m1) = Normal tt).
  { intros m1. apply IH. intros i l m' Hin. apply Hrows. by right. }
  cbn [Normal.automatic_rows]. cbv zeta. destruct (py_ne _ _).
  - unfold_m. simpl. apply Hrest.
  - unfold bind at 1.
    pose proof (Hrows index layer m (or_introl eq_refl)) as Hp.
    destruct (Normal.print_layer env index layer m) as [[[]|code|e] m2];
      try discriminate Hp.
    unfold bind, emit. apply Hrest.
Qed.

Lemma rows_processed env catches no_image rows :
  folders_ok env rows ->
  (forall i e, i < length rows ->
     image_failed (row rows i) (row_io env i) e -> catches e = true) ->
  forall index layer m', In (index, layer) (enumerate_from 0 rows) ->
    fst (print_layer_sync env catches no_image index layer m') = Normal tt.
Proof.
  intros Hdir Hcatch index layer m' Hin. rewrite enumerate_seq in Hin.
  apply in_map_iff in Hin as (j & [= <- <-] & Hj). apply in_seq in Hj.
  apply print_layer_sync_returns; [apply Hdir; lia|].
  intros e He. apply (Hcatch j); [lia|done].
Qed.

Lemma then_summary_status env act m :
  returns_or_eof (act m) -> returns_or_eof ((act ;; generate_summary env) m).
Proof.
  unfold returns_or_eof, bind. destruct (act m) as [[[]|code|e] m2]; simpl; try done.
  intros _. left. apply generate_summary_spec.
Qed.

Lemma then_summary_counted env act m :
  fst (act m) = Normal tt ->
  done_count (snd (act m)) = total_layers (self (snd (act m))) ->
  all_counted ((act ;; generate_summary env) m).
Proof.
  unfold all_counted, bind.
  destruct (act m) as [[[]|code|e] m2]; simpl; try done. intros _ Hdone.
  destruct (generate_summary_spec env m2) as (Hn & Hs & _).
  unfold done_count in *. rewrite Hs. done.
Qed.

Lemma sequential_supervised_status env catches no_image choice_prompt rows m :
  csv_data (self m) = Some rows -> folders_ok env rows ->
  (forall i e, i < length rows ->
     image_failed (row rows i) (row_io env i) e -> catches e = true) ->
  returns_or_eof
    (supervised_mode_sync (print_layer_sync env catches no_image) choice_prompt m).
Proof.
  intros Hdata Hdir Hcatch. unfold supervised_mode_sync, bind.
  rewrite (iterrows_loaded m rows Hdata).
  apply supervised_rows_status. intros index layer m'. by apply rows_processed.
Qed.

Lemma sequential_automatic_counted env rows m :
  csv_data (self m) = Some rows -> total_layers (self m) = length rows ->
  done_count m = 0 ->
  folders_ok env rows -> request_failures_only env rows ->
  fst (Normal.automatic_mode env m) = Normal tt /\
  done_count (snd (Normal.automatic_mode env m))
  = total_layers (self (snd (Normal.automatic_mode env m))).
Proof.
  intros Hdata Htotal Hzero Hdir Hreq. unfold Normal.automatic_mode, bind.
  rewrite (iterrows_loaded m rows Hdata).
  assert (Hn : fst (Normal.automatic_rows env (enumerate_from 0 rows) m) = Normal tt).
  { apply automatic_rows_status. intros index layer m'.
    by apply rows_processed. }
  split; [exact Hn|].
  destruct (automatic_rows_counts env (enumerate_from 0 rows) m) as (Ht & _ & Heq).
  rewrite (Heq Hn), Ht, enumerate_from_length, Hzero, Htotal. done.
Qed.

Lemma gather_automatic_counted env csv_msg rows m :
  csv_data (self m) = Some rows -> total_layers (self m) = length rows ->
  done_count m = 0 -> tasks m = [] ->
  folders_ok env rows ->
  fst (automatic_mode_gather env csv_msg m) = Normal tt /\
  done_count (snd (automatic_mode_gather env csv_msg m))
  = total_layers (self (snd (automatic_mode_gather env csv_msg m))).
Proof.
  intros Hdata Htotal Hzero Htasks Hdir.
  destruct (automatic_mode_gather_returns env csv_msg m rows Hdata Htasks Hdir)
    as [Hn Hself].
  split; [exact Hn|]. unfold done_count in *. rewrite Hself.
  destruct (foldl_consume_counts
              (map (row_outcome env (output_folder (self m)) rows)
                 (seq 0 (length rows))) (self m)) as (H1 & _ & H3).
  rewrite H1, H3, length_map, length_seq. lia.
Qed.

Lemma prefetch_status env name folder mode_arg csv_file rows lines oracle :
  let r := (Smart.supervised_mode_async env ;; generate_summary env)
             (loaded name folder mode_arg csv_file rows lines oracle) in
  returns_or_eof r /\
  (length rows <= confirmations lines -> all_counted r).
Proof.
  intros r.
  destruct (supervised_then_summary env name folder mode_arg csv_file rows
              lines oracle)
    as (l' & m2 & st & Hinv & Hpc & Hself & Hst & _).
  fold r in Hself, Hst.
  destruct Hinv as [_ _ _ _ _ _ _ _ _ _ _ Hfold _ _ Hfin _].
  rewrite Hpc in Hfin. destruct Hfin as [Hk Hend]. simpl in Hfold, Hk.
  unfold returns_or_eof, all_counted. rewrite Hst.
  split.
  - destruct st as [[]|code|e]; [by left|done|right]. by destruct Hend as [-> _].
  - intros Hall. rewrite Nat.min_r in Hk by done.
    split.
    + destruct st as [[]|code|e]; [done|done|]. destruct Hend as (_ & _ & Hlt). lia.
    + unfold done_count. rewrite Hself, Hfold, Hk.
      destruct (foldl_consume_counts
                  (map (row_outcome env folder rows) (seq 0 (length rows)))
                  (fresh name folder mode_arg rows)) as (H1 & _ & H3).
      fold (fresh name folder mode_arg rows).
      rewrite H1, H3, length_map, length_seq. simpl. lia.
Qed.

(** C5, as stated, fails when the program ends with an uncaught exception.
    The folder of the second row of the sample cannot be made: in automatic
    mode [normal_driver.py] stops there with one row counted out of three,
    the two other drivers with none, and nobody aborted. *)
Lemma crash_leaves_rows_uncounted :
  let rn := session (Normal.run no_folder_env) no_folder_env "job" "out"
              "automatic" "layers.csv" (boot [] []) in
  let rm := session (Multi.run no_folder_env) no_folder_env "job" "out"
              "automatic" "layers.csv" (boot [] [[0; 1; 2]]) in
  let rs := session (Smart.run no_folder_env) no_folder_env "job" "out"
              "automatic" "layers.csv" (boot [] [[2; 1; 0]]) in
  (fst rn = Uncaught (Exn OSError "Permission denied") /\
   aborted (trace (snd rn)) = false /\
   done_count (snd rn) = 1 /\ total_layers (self (snd rn)) = 3) /\
  (fst rm = Uncaught (Exn OSError "Permission denied") /\
   aborted (trace (snd rm)) = false /\
   done_count (snd rm) = 0 /\ total_layers (self (snd rm)) = 3) /\
  (fst rs = Uncaught (Exn OSError "Permission denied") /\
   aborted (trace (snd rs)) = false /\
   done_count (snd rs) = 0 /\ total_layers (self (snd rs)) = 3).
Proof. vm_compute. repeat split; reflexivity. Qed.

(** C5, amended. For every environment, arguments, input and oracle, and
    for each of the three drivers in whichever mode: when the program stops,
    [successful_layers + failed_layers <= total_layers]; and when it has
    returned from [run] (the loop ended without an uncaught exception and
    the summary was written) without an abort message ('q' or 'e') in its
    output, the two counters add up to [total_layers]: every row counted
    exactly once, a call of [print_layer] that returns having incremented
    exactly one of the two counters.  The program does return, with every row counted, in
    automatic mode whenever the folder of every row can be made (and, for
    [normal_driver.py], the image step fails with a
    [requests.RequestException] when it fails), and in the prefetching
    supervised mode whenever every row is confirmed.  A supervised run stops
    only by returning or by [EOFError] at a prompt that got no line: the
    prefetching one always, the sequential ones under the conditions of the
    automatic mode. *)
Theorem counters_bounded_by_total env name folder mode_arg csv_file lines oracle :
  let rn := session (Normal.run env) env name folder mode_arg csv_file
              (boot lines oracle) in
  let rm := session (Multi.run env) env name folder mode_arg csv_file
              (boot lines oracle) in
  let rs := session (Smart.run env) env name folder mode_arg csv_file
              (boot lines oracle) in
  (counts_ok rn /\ counts_ok rm /\ counts_ok rs) /\
  (row_ok (Normal.print_layer env) /\ row_ok (Multi.print_layer env) /\
   row_ok (Smart.print_layer env)) /\
  forall rows,
    out_makedirs_res env = None -> read_csv env csv_file = inr rows ->
    (lower mode_arg = "automatic" -> folders_ok env rows ->
     all_counted rm /\ all_counted rs /\
     (request_failures_only env rows -> all_counted rn)) /\
    (lower mode_arg = "supervised" ->
     returns_or_eof rs /\
     (length rows <= confirmations lines -> all_counted rs) /\
     (folders_ok env rows ->
      returns_or_eof rm /\
      (request_failures_only env rows -> returns_or_eof rn))).
Proof.
  intros rn rm rs. split.
  { split; [|split]; apply session_counts.
    - apply supervised_mode_sync_ok, print_layer_sync_row_ok.
    - apply automatic_mode_ok.
    - apply supervised_mode_sync_ok, print_layer_sync_row_ok.
    - exact (automatic_mode_gather_ok env MsgCsvError).
    - apply supervised_mode_async_ok.
    - exact (automatic_mode_gather_ok env MsgHasCsvError). }
  split; [split; [|split]; apply print_layer_sync_row_ok|].
  intros rows Hdir Hcsv. subst rn rm rs.
  unfold Normal.run, Multi.run, Smart.run.
  rewrite !(session_loaded _ _ _ _ _ _ _ rows) by done.
  set (m1 := loaded name folder mode_arg csv_file rows lines oracle).
  split.
  - intros Hmode Hfold. rewrite Hmode. simpl String.eqb. cbv iota.
    split; [|split].
    + destruct (gather_automatic_counted env MsgCsvError rows m1) as [Ha Hb];
        try done.
      by apply then_summary_counted.
    + destruct (gather_automatic_counted env MsgHasCsvError rows m1) as [Ha Hb];
        try done.
      by apply then_summary_counted.
    + intros Hreq.
      destruct (sequential_automatic_counted env rows m1) as [Ha Hb]; try done.
      by apply then_summary_counted.
  - intros Hmode. rewrite Hmode. simpl String.eqb. cbv iota.
    destruct (prefetch_status env name folder mode_arg csv_file rows lines oracle)
      as [Hs1 Hs2].
    split; [exact Hs1|]. split; [exact Hs2|].
    intros Hfold. split.
    + apply then_summary_status.
      apply (sequential_supervised_status env any_exception MsgNoImage
               PromptChoiceMulti rows); done.
    + intros Hreq. apply then_summary_status.
      apply (sequential_supervised_status env is_request_exception
               MsgNoImageSkipping PromptChoiceNormal rows); done.
Qed.

Lemma counters_bounded_by_total_witness :
  all_counted (session (Multi.run sample_env) sample_env "job" "out" "automatic"
                 "layers.csv" (boot [] [[1; 0]])) /\
  all_counted (session (Smart.run sample_env) sample_env "job" "out" "automatic"
                 "layers.csv" (boot [] [[1; 0]])) /\
  all_counted (session (Normal.run sample_env) sample_env "job" "out" "automatic"
                 "layers.csv" (boot [] [[1; 0]])).
Proof.
  assert (Hfold : folders_ok sample_env sample_rows) by (intros i _; reflexivity).
  assert (Hreq : request_failures_only sample_env sample_rows).
  { intros i e _ [_ [H | (content & _ & H)]]; discriminate H. }
  destruct (proj1 (proj2 (proj2 (counters_bounded_by_total sample_env "job"
                                   "out" "automatic" "layers.csv" [] [[1; 0]]))
                     sample_rows eq_refl eq_refl) eq_refl Hfold)
    as (Hm & Hs & Hn).
  split; [exact Hm|]. split; [exact Hs|]. exact (Hn Hreq).
Defined.
